(** * Open Library data dumps: a shallow embedding of [openlibrary/data/dump.py]

    The development follows the Python module function by function:
    the text codec ([_make_sub], [pgencode], [pgdecode]), record
    normalisation ([_process_key], [_process_data]), the snapshot generator
    ([print_dump], [read_data_file], [generate_cdump]), the bucket sort
    ([sort_dump]) and the revision collapse ([generate_dump]).

    The definitions end with [split_dump], the command line of [main] and
    the helpers of [openlibrary/utils/__init__.py] ([str_to_key], [uniq],
    [dicthash], the identifier functions).

    Python text is modelled by [string]: a sequence of characters whose code
    points are below 256.  Exceptions are modelled by an error monad; output
    written before an exception is raised stays written, so the printing
    functions return what they emitted together with the exception, if any. *)

From Stdlib Require Import ZArith Ascii String DecimalString Lia.
From stdpp Require Import base list strings gmap sorting.

Set Warnings "-register-all".

(** ** Exceptions *)

Inductive exn : Type :=
  | KeyError
  | TypeError
  | AttributeError
  | ValueError
  | IndexError
  | RecursionError
  | Exception (msg : string).

Inductive result (A : Type) : Type :=
  | OK (a : A)
  | Raise (e : exn).
Arguments OK {A} a.
Arguments Raise {A} e.

Global Instance result_ret : MRet result := fun _ a => OK a.
Global Instance result_bind : MBind result := fun _ _ f m =>
  match m with
  | OK a => f a
  | Raise e => Raise e
  end.

(** An iterable that may raise while it is consumed: the items it yields,
    then the exception that ends it (if any). *)
Record stream (A : Type) : Type := Stream { items : list A; failure : option exn }.
Arguments Stream {A} items failure.
Arguments items {A} s.
Arguments failure {A} s.

(** ** Characters and strings *)

Definition TAB : ascii := "009"%char.
Definition LF : ascii := "010"%char.
Definition CR : ascii := "013"%char.
Definition BSLASH : ascii := "\"%char.

Definition chr (c : ascii) : string := String c EmptyString.

(** [s.startswith(p)] *)
Fixpoint startswith (s p : string) {struct p} : bool :=
  match p with
  | EmptyString => true
  | String a p' =>
      match s with
      | EmptyString => false
      | String b s' => Ascii.eqb a b && startswith s' p'
      end
  end.

(** [s[n:]] *)
Fixpoint drop_str (n : nat) (s : string) : string :=
  match n, s with
  | O, _ => s
  | S n', String _ s' => drop_str n' s'
  | S _, EmptyString => EmptyString
  end.

(** [s.replace(a, b)] for one-character [a] and [b]: every occurrence. *)
Fixpoint replace_char (a b : ascii) (s : string) : string :=
  match s with
  | EmptyString => EmptyString
  | String c s' => String (if Ascii.eqb c a then b else c) (replace_char a b s')
  end.

(** ** Text codec *)

(** A Python [dict] from text to text, in insertion order. *)
Definition table : Type := list (string * string).

(** The compiled pattern is the alternation of the (escaped, hence literal)
    keys in dictionary order: at a given position the first key that is a
    prefix of the remaining text matches.  The keys of both tables of this
    module are non-empty; an empty key is not a candidate here. *)
Fixpoint match_here (d : table) (s : string) : option (string * string) :=
  match d with
  | [] => None
  | (k, v) :: d' =>
      if negb (String.eqb k EmptyString) && startswith s k then Some (k, v)
      else match_here d' s
  end.

(** [rx.sub(f, s)] with [f(a) = d[a.group(0)]]: scan from the left; on a
    match emit the replacement and resume after the matched text ([skip]
    counts the characters of the match still to be passed over), otherwise
    copy one character. *)
Fixpoint rx_sub (d : table) (skip : nat) (s : string) : string :=
  match s with
  | EmptyString => EmptyString
  | String c s' =>
      match skip with
      | S n => rx_sub d n s'
      | O =>
          match match_here d s with
          | Some (k, v) => String.append v (rx_sub d (String.length k - 1) s')
          | None => String c (rx_sub d 0 s')
          end
      end
  end.

(** [lambda s: s and rx.sub(f, s)]: [None] and the empty text are falsy and
    are returned as they are. *)
Definition _make_sub (d : table) (s : option string) : option string :=
  match s with
  | None => None
  | Some EmptyString => Some EmptyString
  | Some t => Some (rx_sub d 0 t)
  end.

Definition _invert_dict (d : table) : table := map (fun kv => (snd kv, fst kv)) d.

Definition _pgencode_dict : table :=
  [ (chr LF, "\n"); (chr CR, "\r"); (chr TAB, "\t"); (chr BSLASH, "\\") ].

Definition _pgencode : option string -> option string := _make_sub _pgencode_dict.
Definition _pgdecode : option string -> option string :=
  _make_sub (_invert_dict _pgencode_dict).

Definition pgencode (text : option string) : option string := _pgdecode text.
Definition pgdecode (text : option string) : option string := _pgdecode text.

(** ** JSON values and Python dictionaries *)

(** What [json.loads] returns.  A float carries its printed form only: no
    function of this module computes with one. *)
Inductive json : Type :=
  | JNull
  | JBool (b : bool)
  | JInt (z : Z)
  | JFloat (repr : string)
  | JStr (s : string)
  | JList (l : list json)
  | JDict (entries : list (string * json)).

(** A [dict] with text keys, in insertion order.  A Python [dict] holds a
    key once; the functions below read and write the first entry of a key.
    [d.get(k)]: *)
Fixpoint dict_get {A} (k : string) (d : list (string * A)) : option A :=
  match d with
  | [] => None
  | (k', v) :: d' => if String.eqb k' k then Some v else dict_get k d'
  end.

(** [d[k] = v]: an existing key keeps its place, a new one goes last. *)
Fixpoint dict_set {A} (k : string) (v : A) (d : list (string * A)) : list (string * A) :=
  match d with
  | [] => [(k, v)]
  | (k', v') :: d' =>
      if String.eqb k' k then (k, v) :: d' else (k', v') :: dict_set k v d'
  end.

(** [d.pop(k, None)], for its effect on [d]. *)
Fixpoint dict_pop {A} (k : string) (d : list (string * A)) : list (string * A) :=
  match d with
  | [] => []
  | (k', v') :: d' => if String.eqb k' k then d' else (k', v') :: dict_pop k d'
  end.

(** [v[k]] for a text subscript [k]. *)
Definition subscript (v : json) (k : string) : result json :=
  match v with
  | JDict d =>
      match dict_get k d with
      | Some x => OK x
      | None => Raise KeyError
      end
  | _ => Raise TypeError
  end.

(** The number of nested calls a recursive traversal of a value makes. *)
Fixpoint json_depth (j : json) : nat :=
  match j with
  | JList l => S (max_list (map json_depth l))
  | JDict d => S (max_list (map (fun kv => match kv with (_, v) => json_depth v end) d))
  | _ => 1
  end.

(** ** Key normalisation *)

Definition mapping : list string :=
  [ "/l/"; "/languages/"; "/a/"; "/authors/"; "/b/"; "/books/"; "/user/"; "/people/" ].

(** [web.group(seq, 2)], on a sequence of even length. *)
Fixpoint group2 {A} (l : list A) : list (A * A) :=
  match l with
  | a :: b :: l' => (a, b) :: group2 l'
  | _ => []
  end.

Fixpoint rewrite_prefix (pairs : list (string * string)) (key : string) : string :=
  match pairs with
  | [] => key
  | (old, new) :: rest =>
      if startswith key old then String.append new (drop_str (String.length old) key)
      else rewrite_prefix rest key
  end.

(** Only text has [startswith]. *)
Definition _process_key (key : json) : result json :=
  match key with
  | JStr s => OK (JStr (rewrite_prefix (group2 mapping) s))
  | _ => Raise AttributeError
  end.

(** [if 'key' in data: data['key'] = _process_key(data['key'])] *)
Definition rewrite_key (data : list (string * json)) : result (list (string * json)) :=
  match dict_get "key" data with
  | Some k => k' ← _process_key k; mret (dict_set "key" k' data)
  | None => mret data
  end.

(** [data.get('type') == '/type/datetime'] *)
Definition is_datetime (data : list (string * json)) : bool :=
  match dict_get "type" data with
  | Some (JStr t) => String.eqb t "/type/datetime"
  | _ => false
  end.

(** [data['value'] = data['value'].replace(' ', 'T')]: only text has
    [replace]. *)
Definition rewrite_datetime (data : list (string * json)) : result (list (string * json)) :=
  if is_datetime data then
    match dict_get "value" data with
    | None => Raise KeyError
    | Some (JStr s) => mret (dict_set "value" (JStr (replace_char " " "T" s)) data)
    | Some _ => Raise AttributeError
    end
  else mret data.

(** [_process_data], with the interpreter's bound on the depth of the
    recursion made explicit: [depth] calls may be nested. *)
Fixpoint process_data_at (depth : nat) (data : json) : result json :=
  match depth with
  | O => Raise RecursionError
  | S n =>
      match data with
      | JList l => l' ← mapM (process_data_at n) l; mret (JList l')
      | JDict d =>
          d1 ← rewrite_key d;
          d2 ← rewrite_datetime d1;
          d' ← mapM (fun kv => v' ← process_data_at n kv.2; mret (kv.1, v')) d2;
          mret (JDict d')
      | _ => mret data
      end
  end.

(** The recursion is as deep as the value is nested, so this bound is never
    reached (see [_process_data_list] and [_process_data_dict] below). *)
Definition _process_data (data : json) : result json :=
  process_data_at (json_depth data) data.

(** ** Lines and fields *)

(** [str.isspace] on code points below 256, and its [bytes] counterpart. *)
Definition str_isspace (c : ascii) : bool :=
  let n := nat_of_ascii c in
  (9 <=? n) && (n <=? 13) || (28 <=? n) && (n <=? 32) || (n =? 133) || (n =? 160).

Definition bytes_isspace (c : ascii) : bool :=
  let n := nat_of_ascii c in
  (9 <=? n) && (n <=? 13) || (n =? 32).

Fixpoint lstrip (sp : ascii -> bool) (s : string) : string :=
  match s with
  | EmptyString => EmptyString
  | String c s' => if sp c then lstrip sp s' else s
  end.

Fixpoint rstrip (sp : ascii -> bool) (s : string) : string :=
  match s with
  | EmptyString => EmptyString
  | String c s' =>
      match rstrip sp s' with
      | EmptyString => if sp c then EmptyString else chr c
      | r => String c r
      end
  end.

(** [s.strip()] *)
Definition strip (sp : ascii -> bool) (s : string) : string := rstrip sp (lstrip sp s).

(** [s.split(sep)] for a one-character separator: never an empty list. *)
Fixpoint split_on (sep : ascii) (s : string) : list string :=
  match s with
  | EmptyString => [EmptyString]
  | String c s' =>
      if Ascii.eqb c sep then EmptyString :: split_on sep s'
      else
        match split_on sep s' with
        | f :: fs => String c f :: fs
        | [] => [chr c]
        end
  end.

(** ["\t".join] *)
Definition tjoin (fields : list string) : string := String.concat (chr TAB) fields.

(** [read_tsv]: an iterator over the rows of a tab separated file (the
    progress log goes to the diagnostic channel and is not modelled). *)
Definition read_tsv (file : list string) (do_strip : bool) : list (list string) :=
  map (fun line => split_on TAB (if do_strip then strip str_isspace line else line)) file.

(** ** Snapshot generator *)

(** What the module takes from the Python runtime and its libraries:
    [json.loads] (which raises on text that is not JSON), [json.dumps], the
    builtins [str], [int] (on text) and [hash] (on [bytes]), and
    [os.system], the exit status the shell reports for a command. *)
Class Runtime : Type := {
  json_loads : string -> result json;
  json_dumps : json -> string;
  py_str : json -> string;
  py_int : string -> result Z;
  py_hash : string -> Z;
  os_system : string -> Z
}.

Section Snapshot.

Context `{RT : Runtime}.

(** [web.safestr]: text is returned as it is, anything else through [str]. *)
Definition safestr (obj : json) : string :=
  match obj with
  | JStr s => s
  | _ => py_str obj
  end.

(** [d.pop('id', None)]: a list takes no second argument, other values have
    no [pop]. *)
Definition pop_id (d : json) : result json :=
  match d with
  | JDict m => OK (JDict (dict_pop "id" m))
  | JList _ => Raise TypeError
  | _ => Raise AttributeError
  end.

(** [key.startswith((p1, ..., pn))] *)
Definition startswith_any (s : string) (ps : list string) : bool :=
  existsb (startswith s) ps.

(** An element of the list handed to ["\t".join] must be text. *)
Definition as_text (v : json) : result string :=
  match v with
  | JStr s => OK s
  | _ => Raise TypeError
  end.

(** A caller-supplied predicate; [None] stands for a falsy [filter]. *)
Definition predicate : Type := option (json -> result json).

(** [filter and filter(d) is False] *)
Definition vetoed (filter : predicate) (d : json) : result bool :=
  match filter with
  | None => OK false
  | Some f =>
      r ← f d;
      mret (match r with JBool false => true | _ => false end)
  end.

(** The body of the loop of [print_dump] for one record: the five fields of
    the printed line, or [None] when the record is skipped. *)
Definition dump_record (filter : predicate) (json_data : string)
  : result (option (list string)) :=
  d ← json_loads json_data;
  d ← pop_id d;
  d ← _process_data d;
  k ← subscript d "key";
  let key := safestr k in
  t ← subscript d "type";
  type_ ← subscript t "key";
  lm ← subscript d "last_modified";
  timestamp ← subscript lm "value";
  let json_data := json_dumps d in
  if startswith_any key ["/people/"; "/admin/"] then mret None
  else if startswith_any key ["/b/"; "/scan"; "/old/"] || negb (startswith key "/")
  then mret None
  else
    veto ← vetoed filter d;
    if (veto : bool) then mret None
    else
      revision ← subscript d "revision";
      type_ ← as_text type_;
      timestamp ← as_text timestamp;
      mret (Some [type_; key; py_str revision; timestamp; json_data]).

Fixpoint print_dump_loop (filter : predicate) (json_records : list string)
  : list (list string) * option exn :=
  match json_records with
  | [] => ([], None)
  | json_data :: rest =>
      match dump_record filter json_data with
      | Raise e => ([], Some e)
      | OK None => print_dump_loop filter rest
      | OK (Some fields) =>
          let '(out, e) := print_dump_loop filter rest in (fields :: out, e)
      end
  end.

(** The rows [print_dump] prints, and the exception that ends the run. *)
Definition print_dump_rows (json_records : stream string) (filter : predicate)
  : stream (list string) :=
  let '(out, e) := print_dump_loop filter (items json_records) in
  Stream out (match e with Some _ => e | None => failure json_records end).

Definition print_dump (json_records : stream string) (filter : predicate)
  : stream string :=
  let r := print_dump_rows json_records filter in
  Stream (map tjoin (items r)) (failure r).

(** [read_data_file]: the third column of each line, decoded. *)
Fixpoint read_data_file (file : list string) : stream string :=
  match file with
  | [] => Stream [] None
  | line :: rest =>
      match split_on TAB (strip str_isspace line) with
      | [thing_id; revision; json_data] =>
          let r := read_data_file rest in
          Stream (default json_data (pgdecode (Some json_data)) :: items r) (failure r)
      | _ => Stream [] (Some ValueError)
      end
  end.

(** [doc['last_modified']['value'] < date + "Z"]: text is compared
    lexicographically by code point; text and a value of another JSON type
    are not ordered. *)
Definition cdump_before (date : string) (doc : json) : result json :=
  lm ← subscript doc "last_modified";
  v ← subscript lm "value";
  match v with
  | JStr t => mret (JBool (String.ltb t (String.append date "Z")))
  | _ => Raise TypeError
  end.

(** [filter = date and (lambda doc: ...)] *)
Definition cdump_filter (date : option string) : predicate :=
  match date with
  | None => None
  | Some EmptyString => None
  | Some d => Some (cdump_before d)
  end.

Definition generate_cdump_rows (data_file : list string) (date : option string)
  : stream (list string) :=
  print_dump_rows (read_data_file data_file) (cdump_filter date).

Definition generate_cdump (data_file : list string) (date : option string)
  : stream string :=
  print_dump (read_data_file data_file) (cdump_filter date).

End Snapshot.

(** ** Bucket sort *)

Definition hex_digit (n : nat) : ascii :=
  match String.get n "0123456789abcdef" with
  | Some c => c
  | None => "0"%char
  end.

(** ["%02x" % i], for [i] in [range(256)]. *)
Definition fmt_02x (i : nat) : string :=
  String (hex_digit (i / 16)) (String (hex_digit (i mod 16)) EmptyString).

(** ["%d" % n] *)
Definition fmt_d (n : Z) : string := NilZero.string_of_int (Z.to_int n).

Fixpoint endswith_char (c : ascii) (s : string) : bool :=
  match s with
  | EmptyString => false
  | String a EmptyString => Ascii.eqb a c
  | String _ s' => endswith_char c s'
  end.

(** [os.path.join(a, b)] on POSIX paths. *)
Definition path_join (a b : string) : string :=
  if startswith b "/" then b
  else if String.eqb a EmptyString || endswith_char "/" a then String.append a b
  else String.append a (String.append "/" b).

Section Sort.

Context `{RT : Runtime}.

Definition bucket_count : nat := 256.

Definition filenames (tmpdir : string) : list string :=
  map (fun i => path_join tmpdir (String.append (fmt_02x i) ".txt.gz")) (seq 0 bucket_count).

(** [hash(key) % 256] *)
Definition findex_of (key : string) : nat := Z.to_nat (py_hash key mod 256)%Z.

(** The loop that splits the input: [files] holds, per bucket, the lines
    written to it so far.  A line that does not unpack into five fields
    raises [ValueError]; the lines written before it stay written. *)
Fixpoint split_input (files : list (list string)) (stdin : list string)
  : list (list string) * option exn :=
  match stdin with
  | [] => (files, None)
  | line :: rest =>
      match split_on TAB (strip bytes_isspace line) with
      | [type_; key; revision; timestamp; json_data] =>
          split_input (alter (fun f => f ++ [line]) (findex_of key) files) rest
      | _ => (files, Some ValueError)
      end
  end.

Definition sort_command (buffer_size fname : string) : string :=
  String.append "gzip -cd "
    (String.append fname
       (String.append " | sort -S" (String.append buffer_size " -k2,3"))).

(** The loop over the bucket files: the commands handed to [os.system], in
    order, and the exception raised at the first non-zero status. *)
Fixpoint sort_buckets (buffer_size : string) (fnames : list string)
  : list string * option exn :=
  match fnames with
  | [] => ([], None)
  | fname :: rest =>
      let cmd := sort_command buffer_size fname in
      let status := os_system cmd in
      if negb (status =? 0)%Z then
        ([cmd], Some (Exception (String.append "sort failed with status " (fmt_d status))))
      else
        let '(cmds, e) := sort_buckets buffer_size rest in (cmd :: cmds, e)
  end.

Record sort_run : Type := SortRun {
  buckets : list (list string);
  commands : list string;
  raised : option exn
}.

(** [sort_dump]: the input is the sequence of (byte) lines of [dump_file] or
    of the standard input. *)
Definition sort_dump (stdin : list string) (tmpdir buffer_size : string) : sort_run :=
  let tmpdir := path_join tmpdir "oldumpsort" in
  let fnames := filenames tmpdir in
  match split_input (replicate bucket_count []) stdin with
  | (files, Some e) => SortRun files [] (Some e)
  | (files, None) =>
      let '(cmds, e) := sort_buckets buffer_size fnames in
      SortRun files cmds e
  end.

End Sort.

(** ** Revision collapse *)

Section Collapse.

Context `{RT : Runtime}.

(** [lambda cols: cols[1]] *)
Definition key_of (cols : list string) : result string :=
  match cols !! 1%nat with
  | Some k => OK k
  | None => Raise IndexError
  end.

(** [revision = lambda cols: int(cols[2])] *)
Definition revision (cols : list string) : result Z :=
  match cols !! 2%nat with
  | Some r => py_int r
  | None => Raise IndexError
  end.

(** [process], from inside a group: [k] is the key of the group, [best] the
    first row of maximal revision [top] seen in it.  [itertools.groupby]
    takes the key of the next row before [max] takes its revision; a row
    with another key ends the group, whose best row is yielded before the
    revision of the new row is taken. *)
Fixpoint process_group (k : string) (best : list string) (top : Z)
    (data : list (list string)) : list (list string) * option exn :=
  match data with
  | [] => ([best], None)
  | cols :: rest =>
      match key_of cols with
      | Raise e => ([], Some e)
      | OK k' =>
          if String.eqb k' k then
            match revision cols with
            | Raise e => ([], Some e)
            | OK v =>
                if (top <? v)%Z then process_group k cols v rest
                else process_group k best top rest
            end
          else
            match revision cols with
            | Raise e => ([best], Some e)
            | OK v =>
                let '(out, e) := process_group k' cols v rest in (best :: out, e)
            end
      end
  end.

Definition process (data : list (list string)) : list (list string) * option exn :=
  match data with
  | [] => ([], None)
  | cols :: rest =>
      match key_of cols with
      | Raise e => ([], Some e)
      | OK k =>
          match revision cols with
          | Raise e => ([], Some e)
          | OK v => process_group k cols v rest
          end
      end
  end.

(** [generate_dump]: the lines written to the standard output. *)
Definition generate_dump (cdump_file : list string) : stream string :=
  let '(rows, e) := process (read_tsv cdump_file false) in
  Stream (map tjoin rows) e.

End Collapse.

(** ** Reading a value along a path *)

Inductive step : Type :=
  | Key (k : string)
  | Index (i : nat).

(** [d[k1][i2]...]: the value reached from [j] by the subscripts [p]. *)
Fixpoint lookup_path (p : list step) (j : json) : option json :=
  match p with
  | [] => Some j
  | Key k :: p' =>
      match j with
      | JDict d => x ← dict_get k d; lookup_path p' x
      | _ => None
      end
  | Index i :: p' =>
      match j with
      | JList l => x ← l !! i; lookup_path p' x
      | _ => None
      end
  end.

(** The number of occurrences of a character. *)
Fixpoint count_char (a : ascii) (s : string) : nat :=
  match s with
  | EmptyString => 0
  | String c s' => (if Ascii.eqb c a then 1 else 0) + count_char a s'
  end.

(** [r] is [v] with exactly one of its spaces turned into [T]. *)
Definition one_substitution (v r : string) : Prop :=
  exists date time,
    v = String.append date (String " " time) /\
    r = String.append date (String "T" time).

(** [a in s] for a character [a]. *)
Fixpoint contains_char (a : ascii) (s : string) : bool :=
  match s with
  | EmptyString => false
  | String c s' => Ascii.eqb c a || contains_char a s'
  end.

(** ** Vocabulary of the statements about the codec and the generator *)

(** The substitution [pgdecode] performs, written out: a backslash followed
    by [n], [r], [t] or a backslash stands for one character. *)
Definition unescaped (c : ascii) : option ascii :=
  if Ascii.eqb c "n" then Some LF
  else if Ascii.eqb c "r" then Some CR
  else if Ascii.eqb c "t" then Some TAB
  else if Ascii.eqb c BSLASH then Some BSLASH
  else None.

Fixpoint unescape (s : string) : string :=
  match s with
  | EmptyString => EmptyString
  | String a t =>
      match t with
      | EmptyString => chr a
      | String c s' =>
          match (if Ascii.eqb a BSLASH then unescaped c else None) with
          | Some x => String x (unescape s')
          | None => String a (unescape t)
          end
      end
  end.

(** The substitution [_pgencode] performs: each of the four characters
    becomes its two-character escape. *)
Definition escaped (c : ascii) : string :=
  if Ascii.eqb c LF then "\n"
  else if Ascii.eqb c CR then "\r"
  else if Ascii.eqb c TAB then "\t"
  else if Ascii.eqb c BSLASH then "\\"
  else chr c.

Fixpoint escape (s : string) : string :=
  match s with
  | EmptyString => EmptyString
  | String c s' => String.append (escaped c) (escape s')
  end.

(** The test of the cutoff of [generate_cdump] on a printed row, whose
    fourth field is the timestamp. *)
Definition before_cutoff (date : string) (fields : list string) : bool :=
  match fields !! 3 with
  | Some timestamp => String.ltb timestamp (String.append date "Z")
  | None => false
  end.

(** The keys [print_dump] does not print. *)
Definition hidden_key (key : string) : bool :=
  startswith_any key ["/people/"; "/admin/"; "/b/"; "/scan"; "/old/"]
  || negb (startswith key "/").

(** ** Vocabulary of the statements about [sort_dump] and [generate_dump] *)

(** The key and the revision [sort_dump] unpacks from a line. *)
Definition line_key_revision (line : string) : option (string * string) :=
  match split_on TAB (strip bytes_isspace line) with
  | [type_; key; revision; timestamp; json_data] => Some (key, revision)
  | _ => None
  end.

Definition line_key (line : string) : option string := fst <$> line_key_revision line.

(** The bucket a line belongs to. *)
Definition bucket_of `{RT : Runtime} (line : string) : option nat :=
  findex_of <$> line_key line.

(** The hash of the key of a line, modulo 256: the number of the bucket the
    line is to be found in. *)
Definition hash_bucket `{RT : Runtime} (line : string) : option Z :=
  (fun key => (py_hash key mod 256)%Z) <$> line_key line.

(** Rows with the same key are consecutive: between two rows with one key
    there is no row with another. *)
Definition key_grouped (keys : list string) : Prop :=
  forall (i j l : nat) (k k' : string),
    i < j < l -> keys !! i = Some k -> keys !! l = Some k -> keys !! j = Some k' -> k' = k.

(** The distinct keys of a list, in the order they are first met. *)
Fixpoint distinct (keys : list string) : list string :=
  match keys with
  | [] => []
  | k :: keys' => k :: filter (fun k' => k' <> k) (distinct keys')
  end.

(** The message of the exception raised for an exit status. *)
Definition sort_failure (status : Z) : exn :=
  Exception (String.append "sort failed with status " (fmt_d status)).

(** What is asked of an emitted row: it carries the greatest revision among
    the rows of its key. *)
Definition newest_in `{RT : Runtime} (data : list (list string)) (o : list string) : Prop :=
  exists k v,
    key_of o = OK k /\ revision o = OK v /\
    forall r vr, r ∈ data -> key_of r = OK k -> revision r = OK vr -> (vr <= v)%Z.

(** The key and the revision of a row, read off its columns: the second
    column, and the integer [int] reads in the third. *)
Definition row_key (cols : list string) : option string := cols !! 1.

Definition row_revision `{RT : Runtime} (cols : list string) : option Z :=
  match cols !! 2 with
  | Some r =>
      match py_int r with
      | OK v => Some v
      | Raise _ => None
      end
  | None => None
  end.

(** A row of [data] whose revision no row of [data] with its key exceeds. *)
Definition greatest_in `{RT : Runtime} (data : list (list string)) (o : list string)
  : Prop :=
  o ∈ data /\
  exists k v,
    row_key o = Some k /\ row_revision o = Some v /\
    forall r vr, r ∈ data -> row_key r = Some k -> row_revision r = Some vr -> (vr <= v)%Z.

(** The first of the rows of its key that have the greatest revision: no
    row of the key exceeds it, and every row of the key before it is
    strictly below it. *)
Definition first_greatest_in `{RT : Runtime} (data : list (list string))
    (o : list string) : Prop :=
  exists l1 l2 k v,
    data = l1 ++ o :: l2 /\
    row_key o = Some k /\ row_revision o = Some v /\
    (forall r vr, r ∈ l1 -> row_key r = Some k -> row_revision r = Some vr -> (vr < v)%Z) /\
    (forall r vr, r ∈ l2 -> row_key r = Some k -> row_revision r = Some vr -> (vr <= v)%Z).

(** ** A sample runtime

    A concrete [Runtime] to run the model on examples: a JSON writer for
    values whose text needs no escaping, the parser that inverts it on a
    given list of documents, decimal [str] and [int], the length of a key as
    its hash, and a shell that fails on the listed commands. *)

Definition DQUOTE : ascii := "034"%char.

Definition quoted (s : string) : string := String DQUOTE (String.append s (chr DQUOTE)).

Fixpoint sample_dumps (j : json) : string :=
  match j with
  | JNull => "null"
  | JBool b => if b then "true" else "false"
  | JInt z => fmt_d z
  | JFloat r => r
  | JStr s => quoted s
  | JList l => String.append "[" (String.append (String.concat ", " (map sample_dumps l)) "]")
  | JDict d =>
      String.append "{"
        (String.append
           (String.concat ", "
              (map (fun kv => match kv with
                              | (k, v) => String.append (quoted k)
                                            (String.append ": " (sample_dumps v))
                              end) d))
           "}")
  end.

Definition sample_loads (docs : list json) (text : string) : result json :=
  match dict_get text (map (fun d => (sample_dumps d, d)) docs) with
  | Some d => OK d
  | None => Raise ValueError
  end.

Definition sample_str (j : json) : string :=
  match j with
  | JNull => "None"
  | JBool b => if b then "True" else "False"
  | JStr s => s
  | _ => sample_dumps j
  end.

Definition sample_int (s : string) : result Z :=
  match strip str_isspace s with
  | EmptyString => Raise ValueError
  | t =>
      match NilZero.int_of_string t with
      | Some i => OK (Z.of_int i)
      | None => Raise ValueError
      end
  end.

Definition sample_runtime (docs : list json) (failing : list string) : Runtime := {|
  json_loads := sample_loads docs;
  json_dumps := sample_dumps;
  py_str := sample_str;
  py_int := sample_int;
  py_hash := fun key => Z.of_nat (String.length key);
  os_system := fun cmd => if existsb (String.eqb cmd) failing then 256%Z else 0%Z
|}.

(** A raw record, its line in a data file, and the fields printed for it
    when its key and timestamp are already in normal form. *)
Definition sample_record (key timestamp : string) : json :=
  JDict [ ("key", JStr key);
          ("type", JDict [("key", JStr "/type/edition")]);
          ("revision", JInt 1);
          ("last_modified", JDict [("type", JStr "/type/datetime");
                                   ("value", JStr timestamp)]) ].

Definition sample_line (d : json) : string :=
  String.append "8" (String TAB (String.append "1" (String TAB (sample_dumps d)))).

Definition sample_fields (key timestamp : string) : list string :=
  [ "/type/edition"; key; "1"; timestamp; sample_dumps (sample_record key timestamp) ].

(** A record with two datetime values, one of them inside a list. *)
Definition two_datetimes : json :=
  JDict [ ("created", JDict [("type", JStr "/type/datetime");
                             ("value", JStr "2020-01-01 00:00:00")]);
          ("notes", JList [JDict [("type", JStr "/type/datetime");
                                  ("value", JStr "2020-01-02 10:30:00")]]) ].

Definition boundary_record : json := sample_record "/books/OL1M" "2020-05-17T10:00:00".
Definition earlier_record : json := sample_record "/books/OL2M" "2020-05-16T23:59:59".
Definition later_record : json := sample_record "/books/OL3M" "2020-05-18T00:00:00".

(** A record of a later day that has no [revision]. *)
Definition unrevised_record : json :=
  JDict [ ("key", JStr "/books/OL3M");
          ("type", JDict [("key", JStr "/type/edition")]);
          ("last_modified", JDict [("type", JStr "/type/datetime");
                                   ("value", JStr "2020-05-18T00:00:00")]) ].

(** A line of a dump, as [print_dump] writes it. *)
Definition sample_dump_line (key revision timestamp : string) : string :=
  String.append
    (tjoin ["/type/edition"; key; revision; timestamp;
            sample_dumps (sample_record key timestamp)])
    (chr LF).

(** The collapse on a small dump: two revisions of one key, then two rows of
    another key that tie on the revision (the first of them is kept). *)
Definition small_cdump : list string :=
  [ sample_dump_line "/books/OL1M" "1" "2020-05-16T23:59:59";
    sample_dump_line "/books/OL1M" "2" "2020-05-17T10:00:00";
    sample_dump_line "/books/OL2M" "3" "2020-05-18T00:00:00";
    sample_dump_line "/books/OL2M" "3" "2020-05-19T00:00:00" ].

(** ** Vocabulary of further statements about normalisation *)

(** A value with every text emptied: what is left is its nesting, the keys
    of its dictionaries in their order, and its values that are not text. *)
Fixpoint skeleton (j : json) : json :=
  match j with
  | JStr _ => JStr EmptyString
  | JList l => JList (map skeleton l)
  | JDict d => JDict (map (fun kv => match kv with (k, v) => (k, skeleton v) end) d)
  | _ => j
  end.

(** The prefixes [_process_key] rewrites. *)
Definition legacy_prefixes : list string := ["/l/"; "/a/"; "/b/"; "/user/"].

(** The JSON column of a line of a data file, when the line has the three
    columns [read_data_file] unpacks. *)
Definition data_line_json (line : string) : option string :=
  match split_on TAB (strip str_isspace line) with
  | [thing_id; revision; json_data] => Some json_data
  | _ => None
  end.

(** * More of [dump.py] *)

(** ** Splitting a dump by type *)

Definition split_types : list string :=
  [ "/type/edition"; "/type/author"; "/type/work"; "/type/redirect" ].

(** [t.split("/")[-1] + "s"], the name [split_dump] puts in the file name
    of a type (the formatting of the file name itself is not modelled). *)
Definition tname (t : string) : string :=
  String.append (default EmptyString (last (split_on "/" t))) "s".





(** ** The command line *)

(** What the loop over the arguments of [main] ends with: the positional
    arguments and the keyword arguments, or the [StopIteration] that
    [next(iargs)] raises when an option is the last argument. *)
Inductive parsed : Type :=
  | Parsed (args : list string) (kwargs : list (string * string))
  | StopIteration.

Fixpoint parse_args (iargs : list string) (args : list string)
    (kwargs : list (string * string)) : parsed :=
  match iargs with
  | [] => Parsed args kwargs
  | a :: rest =>
      if startswith a "--" then
        let name := replace_char "-" "_" (drop_str 2 a) in
        match rest with
        | value :: rest' => parse_args rest' args (dict_set name value kwargs)
        | [] => StopIteration
        end
      else parse_args rest (args ++ [a]) kwargs
  end.

(** The commands of [main] and the functions they call. *)
Definition commands_table : list (string * string) :=
  [ ("cdump", "generate_cdump"); ("dump", "generate_dump"); ("idump", "generate_idump");
    ("sort", "sort_dump"); ("split", "split_dump"); ("index", "make_index");
    ("bsddb", "make_bsddb"); ("solrdump", "solr.generate_dump");
    ("sitemaps", "generate_sitemaps"); ("htmlindex", "generate_html_index") ].

(** What [main] does once the arguments are parsed: it calls a function
    with them, or it prints a message on the diagnostic channel. *)
Inductive main_outcome : Type :=
  | Calls (function : string) (args : list string) (kwargs : list (string * string))
  | Prints (message : string)
  | Raises_StopIteration.

Definition main (cmd : string) (argv : list string) : main_outcome :=
  match parse_args argv [] [] with
  | StopIteration => Raises_StopIteration
  | Parsed args kwargs =>
      match dict_get cmd commands_table with
      | Some f => Calls f args kwargs
      | None => Prints (String.append "Unknown command: " (String.append cmd (chr LF)))
      end
  end.

(** * [openlibrary/utils] *)

(** [c.lower()] on a code point below 256. *)
Definition lower_char (c : ascii) : ascii :=
  let n := nat_of_ascii c in
  if (65 <=? n) && (n <=? 90) || (192 <=? n) && (n <=? 214) || (216 <=? n) && (n <=? 222)
  then ascii_of_nat (n + 32)
  else c.

Fixpoint lower (s : string) : string :=
  match s with
  | EmptyString => EmptyString
  | String c s' => String (lower_char c) (lower s')
  end.

Definition to_drop : list ascii :=
  list_ascii_of_string ";/?:@&=+$,<>#%"
    ++ ["034"%char]
    ++ list_ascii_of_string "{}|\^[]`"
    ++ [LF; CR].

(** [''.join(c if c != ' ' else '_' for c in s if c not in to_drop)] *)
Fixpoint join_kept (s : string) : string :=
  match s with
  | EmptyString => EmptyString
  | String c s' =>
      if existsb (Ascii.eqb c) to_drop then join_kept s'
      else String (if Ascii.eqb c " " then "_"%char else c) (join_kept s')
  end.

Definition str_to_key (s : string) : string := join_kept (lower s).

(** The characters of a key: not dropped, not a space, in lower case. *)
Definition key_char (c : ascii) : Prop :=
  existsb (Ascii.eqb c) to_drop = false /\ c <> " "%char /\ lower_char c = c.

(** [uniq]: [s] is the set of the keys met so far. *)
Fixpoint uniq_loop {A K} `{Countable K} (key : A -> K) (values : list A)
    (s : gset K) (result : list A) : list A :=
  match values with
  | [] => result
  | v :: values' =>
      let k := key v in
      if decide (k ∈ s) then uniq_loop key values' s result
      else uniq_loop key values' ({[k]} ∪ s) (result ++ [v])
  end.

Definition uniq {A K} `{Countable K} (values : list A) (key : A -> K) : list A :=
  uniq_loop key values ∅ [].

(** The class [\d] of the regular expressions, on a code point below 256:
    the digits [0] to [9].  (On text, [\d] also matches the decimal digits
    of other scripts; their code points are all above 255, outside the texts
    modelled here.) *)
Definition is_digit (c : ascii) : bool :=
  let n := nat_of_ascii c in (48 <=? n) && (n <=? 57).

(** A text made of characters of the class [\d]. *)
Definition digits (ds : string) : Prop :=
  forallb is_digit (list_ascii_of_string ds) = true.

(** The rest of a match of [\d+X$] where [X] is [suffix]: [seen] tells that
    a digit was read; [$] matches at the end and before a last newline. *)
Fixpoint digits_then (suffix : ascii) (seen : bool) (s : string) : bool :=
  match s with
  | EmptyString => false
  | String c s' =>
      if is_digit c then digits_then suffix true s'
      else seen && Ascii.eqb c suffix
           && (String.eqb s' EmptyString || String.eqb s' (chr LF))
  end.

(** [re.compile(r'^OL\d+X$').match(s)] *)
Definition olid_match (suffix : ascii) (s : string) : bool :=
  match s with
  | String "O" (String "L" rest) => digits_then suffix false rest
  | _ => false
  end.

Definition is_author_olid (s : string) : bool := olid_match "A" s.
Definition is_work_olid (s : string) : bool := olid_match "W" s.

(** [s[-1]] and [s[:-1]] *)
Fixpoint last_char (s : string) : option ascii :=
  match s with
  | EmptyString => None
  | String c EmptyString => Some c
  | String _ s' => last_char s'
  end.

Fixpoint drop_last (s : string) : string :=
  match s with
  | EmptyString => EmptyString
  | String c EmptyString => EmptyString
  | String c s' => String c (drop_last s')
  end.

Section Olid.

Context `{RT : Runtime}.

(** [is_number]: [int(s)] with its [ValueError] caught. *)
Definition is_number (s : string) : result bool :=
  match py_int s with
  | OK _ => OK true
  | Raise ValueError => OK false
  | Raise e => Raise e
  end.

Definition extract_numeric_id_from_olid (olid : string) : result string :=
  let olid :=
    if contains_char "/" olid then default EmptyString (last (split_on "/" olid))
    else olid in
  let olid := if startswith (lower olid) "ol" then drop_str 2 olid else olid in
  match last_char olid with
  | None => Raise IndexError
  | Some c =>
      number ← is_number (chr (lower_char c));
      mret (if (number : bool) then olid else drop_last olid)
  end.

End Olid.

(** ** Hashable forms *)

(** What [dicthash] returns: the values that are neither [dict] nor [list],
    and tuples. *)
Inductive hashable : Type :=
  | HNull
  | HBool (b : bool)
  | HInt (z : Z)
  | HFloat (repr : string)
  | HStr (s : string)
  | HTuple (items : list hashable).

(** The order of [sorted] on text: by code points, the first difference
    decides. *)
Definition str_le (a b : string) : Prop := String.leb a b = true.

#[global] Instance str_le_dec : RelDecision str_le :=
  fun a b => decide (String.leb a b = true).

(** [sorted(d)]: the keys of a [dict], each once, in order. *)
Definition sorted_keys {A} (d : list (string * A)) : list string :=
  merge_sort str_le (distinct d.*1).

(** [dicthash].  The values of a [dict] are converted entry by entry, and
    [d[k]] is looked up among the converted ones ([dicthash_dict] below gives
    the form of the source). *)
Fixpoint dicthash (d : json) : hashable :=
  match d with
  | JDict entries =>
      let converted :=
        (fix values (es : list (string * json)) : list (string * hashable) :=
           match es with
           | [] => []
           | (k, v) :: es' => (k, dicthash v) :: values es'
           end) entries in
      HTuple ((fun k => HTuple [HStr k; default HNull (dict_get k converted)])
                <$> sorted_keys entries)
  | JList l =>
      HTuple ((fix each (l : list json) : list hashable :=
                 match l with
                 | [] => []
                 | v :: l' => dicthash v :: each l'
                 end) l)
  | JNull => HNull
  | JBool b => HBool b
  | JInt z => HInt z
  | JFloat repr => HFloat repr
  | JStr s => HStr s
  end.

(** ** More vocabulary and samples *)

(** An emitted row comes before every other row of its key that has a
    revision as great as its own. *)
Definition first_newest_in `{RT : Runtime} (data : list (list string)) (o : list string)
  : Prop :=
  exists l1 l2 k v,
    data = l1 ++ o :: l2 /\
    key_of o = OK k /\ revision o = OK v /\
    forall r vr, r ∈ l1 -> key_of r = OK k -> revision r = OK vr -> (vr < v)%Z.

(** A raw record as the data table has it: with its [id], a legacy key and a
    timestamp with a space. *)
Definition raw_record : json :=
  JDict [ ("id", JInt 8);
          ("key", JStr "/b/OL1M");
          ("type", JDict [("key", JStr "/type/edition")]);
          ("revision", JInt 1);
          ("last_modified", JDict [("type", JStr "/type/datetime");
                                   ("value", JStr "2020-01-01 00:00:00")]) ].


(** The first character of an entry, a key for [uniq]. *)
Definition initial (s : string) : ascii :=
  match s with
  | String c _ => c
  | EmptyString => " "%char
  end.

(** * Properties *)

(** ** Text codec *)

Lemma match_here_decode (s : string) :
  match_here (_invert_dict _pgencode_dict) s =
  match s with
  | String a (String c _) =>
      if Ascii.eqb a BSLASH then
        match unescaped c with
        | Some x => Some (String BSLASH (chr c), chr x)
        | None => None
        end
      else None
  | _ => None
  end.
Proof.
  destruct s as [|a [|c s']]; cbn -[Ascii.eqb].
  - reflexivity.
  - rewrite !andb_false_r. reflexivity.
  - unfold unescaped, BSLASH, LF, CR, TAB. rewrite !andb_true_r.
    rewrite (Ascii.eqb_sym a "\"%char).
    destruct (Ascii.eqb "\"%char a); cbn -[Ascii.eqb]; [|reflexivity].
    rewrite (Ascii.eqb_sym c "n"), (Ascii.eqb_sym c "r"),
      (Ascii.eqb_sym c "t"), (Ascii.eqb_sym c "\").
    destruct (Ascii.eqb_spec "n"%char c) as [<-|]; [reflexivity|].
    destruct (Ascii.eqb_spec "r"%char c) as [<-|]; [reflexivity|].
    destruct (Ascii.eqb_spec "t"%char c) as [<-|]; [reflexivity|].
    destruct (Ascii.eqb_spec "\"%char c) as [<-|]; reflexivity.
Qed.

Lemma match_here_encode (c : ascii) (s : string) :
  match_here _pgencode_dict (String c s) =
  if Ascii.eqb c LF then Some (chr LF, "\n")
  else if Ascii.eqb c CR then Some (chr CR, "\r")
  else if Ascii.eqb c TAB then Some (chr TAB, "\t")
  else if Ascii.eqb c BSLASH then Some (chr BSLASH, "\\")
  else None.
Proof.
  cbn -[Ascii.eqb]. rewrite !andb_true_r.
  rewrite (Ascii.eqb_sym c LF), (Ascii.eqb_sym c CR),
    (Ascii.eqb_sym c TAB), (Ascii.eqb_sym c BSLASH).
  reflexivity.
Qed.

(** Two-step induction on text: the scanners look two characters ahead. *)
Lemma string_ind2 (P : string -> Prop) :
  P EmptyString ->
  (forall a, P (chr a)) ->
  (forall a c s, P s -> P (String c s) -> P (String a (String c s))) ->
  forall s, P s.
Proof.
  intros H0 H1 H2 s.
  assert (P s /\ forall a, P (String a s)) as [? _]; [|assumption].
  induction s as [|c s [IHs IHc]]; split; auto.
Qed.

Lemma rx_sub_cons (d : table) (c : ascii) (t : string) :
  rx_sub d 0 (String c t) =
  match match_here d (String c t) with
  | Some (k, v) => String.append v (rx_sub d (String.length k - 1) t)
  | None => String c (rx_sub d 0 t)
  end.
Proof. reflexivity. Qed.

Lemma rx_sub_decode (s : string) :
  rx_sub (_invert_dict _pgencode_dict) 0 s = unescape s.
Proof.
  induction s as [|a|a c s IHs IHc] using string_ind2.
  - reflexivity.
  - unfold chr. rewrite rx_sub_cons, match_here_decode. reflexivity.
  - rewrite rx_sub_cons, match_here_decode. cbn [unescape].
    destruct (Ascii.eqb a BSLASH); [|now rewrite IHc].
    destruct (unescaped c) as [x|]; [|now rewrite IHc].
    cbn -[_invert_dict _pgencode_dict]. now rewrite IHs.
Qed.

Lemma rx_sub_encode (s : string) : rx_sub _pgencode_dict 0 s = escape s.
Proof.
  induction s as [|c s IH]; [reflexivity|].
  rewrite rx_sub_cons, match_here_encode. cbn [escape]. unfold escaped.
  repeat (destruct (Ascii.eqb c _); [cbn; now rewrite IH|]).
  cbn. now rewrite IH.
Qed.

Lemma unescape_backslash (c : ascii) (s : string) :
  unescape (String BSLASH (String c s)) =
  match unescaped c with
  | Some x => String x (unescape s)
  | None => String BSLASH (unescape (String c s))
  end.
Proof. reflexivity. Qed.

Lemma unescape_escape (s : string) : unescape (escape s) = s.
Proof.
  induction s as [|c s IH]; [reflexivity|].
  cbn [escape]. unfold escaped.
  destruct (Ascii.eqb_spec c LF) as [->|HLF].
  { change (String.append "\n" ?t) with (String BSLASH (String "n" t)).
    rewrite unescape_backslash. cbn [unescaped]. now rewrite IH. }
  destruct (Ascii.eqb_spec c CR) as [->|HCR].
  { change (String.append "\r" ?t) with (String BSLASH (String "r" t)).
    rewrite unescape_backslash. cbn [unescaped]. now rewrite IH. }
  destruct (Ascii.eqb_spec c TAB) as [->|HTAB].
  { change (String.append "\t" ?t) with (String BSLASH (String "t" t)).
    rewrite unescape_backslash. cbn [unescaped]. now rewrite IH. }
  destruct (Ascii.eqb_spec c BSLASH) as [->|HB].
  { change (String.append "\\" ?t) with (String BSLASH (String BSLASH t)).
    rewrite unescape_backslash. cbn [unescaped]. now rewrite IH. }
  change (String.append (chr c) (escape s)) with (String c (escape s)).
  cbn [unescape]. destruct (escape s) as [|c' t] eqn:E.
  - cbn in IH. now subst.
  - destruct (Ascii.eqb_spec c BSLASH); [contradiction|]. now rewrite IH.
Qed.

Lemma escape_nonempty (c : ascii) (s : string) : escape (String c s) <> EmptyString.
Proof.
  cbn [escape]. unfold escaped.
  repeat (destruct (Ascii.eqb c _); [discriminate|]). discriminate.
Qed.

(** The round trip that the two substituters of the module do satisfy:
    [_pgdecode] undoes [_pgencode]. *)
Lemma _pgdecode_pgencode (s : option string) : _pgdecode (_pgencode s) = s.
Proof.
  destruct s as [[|c s]|]; try reflexivity.
  unfold _pgencode, _pgdecode.
  change (_make_sub _pgencode_dict (Some (String c s)))
    with (Some (rx_sub _pgencode_dict 0 (String c s))).
  rewrite rx_sub_encode.
  pose proof (escape_nonempty c s) as Hne.
  destruct (escape (String c s)) as [|c' t] eqn:E; [contradiction|].
  change (_make_sub ?d (Some (String c' t))) with (Some (rx_sub d 0 (String c' t))).
  rewrite rx_sub_decode, <- E, unescape_escape. reflexivity.
Qed.

(** C1 (as the code behaves): [pgencode] is bound to the decoder, so text
    that holds an escape sequence does not survive the round trip.  The
    two-character text made of two backslashes comes back as a single
    backslash. *)
Theorem pgencode_roundtrip_fails :
  pgdecode (pgencode (Some "\\")) = Some "\" /\
  pgdecode (pgencode (Some "\\")) <> Some "\\".
Proof. split; [reflexivity | discriminate]. Qed.

(** C3: [pgencode] and [pgdecode] agree on every input, [None] and the empty
    text included, and both perform the decoding substitution. *)
Theorem pgencode_eq_pgdecode (s : option string) :
  pgencode s = pgdecode s /\ pgdecode s = unescape <$> s.
Proof.
  split; [reflexivity|].
  destruct s as [[|c t]|]; try reflexivity.
  unfold pgdecode, _pgdecode.
  change (_make_sub ?d (Some (String c t))) with (Some (rx_sub d 0 (String c t))).
  now rewrite rx_sub_decode.
Qed.

(** The docstring example of [_make_sub]. *)
Example make_sub_doctest :
  _make_sub [("a", "aa"); ("bb", "b")] (Some "aabbb") = Some "aaaabb".
Proof. reflexivity. Qed.

(** The docstring example of [pgdecode]. *)
Example pgdecode_doctest : pgdecode (Some "\n") = Some (chr LF).
Proof. reflexivity. Qed.

(** ** The error monad *)

Lemma bind_OK_inv {A B} (m : result A) (k : A -> result B) (b : B) :
  (x ← m; k x) = OK b -> exists a, m = OK a /\ k a = OK b.
Proof. destruct m as [a|e]; [eauto | discriminate]. Qed.

Ltac inv_bind H :=
  let a := fresh "a" in
  let Ha := fresh "H" a in
  apply bind_OK_inv in H; destruct H as (a & Ha & H).

Tactic Notation "inv_bind_as" hyp(H) ident(a) ident(Ha) :=
  apply bind_OK_inv in H; destruct H as (a & Ha & H).

Lemma mapM_ext {A B} (f g : A -> result B) (l : list A) :
  Forall (fun x => f x = g x) l -> mapM f l = mapM g l.
Proof.
  induction 1 as [|x l Hx _ IH]; [reflexivity|].
  cbn. rewrite Hx, IH. reflexivity.
Qed.

Lemma mapM_OK_Forall2 {A B} (f : A -> result B) (l : list A) (l' : list B) :
  mapM f l = OK l' <-> Forall2 (fun x y => f x = OK y) l l'.
Proof.
  split.
  - revert l'. induction l as [|x l IH]; intros l' H; cbn in H.
    + injection H as <-. constructor.
    + inv_bind H. inv_bind H. injection H as <-. constructor; auto.
  - induction 1 as [|x y l l' Hxy _ IH]; [reflexivity|].
    cbn. rewrite Hxy. cbn. rewrite IH. reflexivity.
Qed.

(** ** Dictionaries *)

Lemma dict_get_set {A} (k k' : string) (v : A) (d : list (string * A)) :
  dict_get k (dict_set k' v d) = if String.eqb k' k then Some v else dict_get k d.
Proof.
  induction d as [|[k0 v0] d IH]; cbn.
  - destruct (String.eqb k' k); reflexivity.
  - destruct (String.eqb_spec k0 k') as [->|Hne]; cbn.
    + destruct (String.eqb k' k); reflexivity.
    + rewrite IH. destruct (String.eqb_spec k0 k) as [->|]; [|reflexivity].
      destruct (String.eqb_spec k' k) as [->|]; [contradiction|reflexivity].
Qed.

Lemma dict_set_same {A} (k : string) (v : A) (d : list (string * A)) :
  dict_get k d = Some v -> dict_set k v d = d.
Proof.
  induction d as [|[k0 v0] d IH]; cbn; [discriminate|].
  destruct (String.eqb_spec k0 k) as [->|].
  - now intros [= ->].
  - intros H. now rewrite IH.
Qed.

Lemma dict_set_Forall {A} (P : A -> Prop) (k : string) (v : A) (d : list (string * A)) :
  P v -> Forall (fun kv => P kv.2) d -> Forall (fun kv => P kv.2) (dict_set k v d).
Proof.
  intros Hv. induction 1 as [|[k0 v0] d H0 Hd IH]; cbn.
  - repeat constructor. exact Hv.
  - destruct (String.eqb k0 k); constructor; cbn in *; auto.
Qed.

Lemma dict_get_Forall {A} (P : A -> Prop) (k : string) (v : A) (d : list (string * A)) :
  dict_get k d = Some v -> Forall (fun kv => P kv.2) d -> P v.
Proof.
  intros Hg. induction 1 as [|[k0 v0] d H0 _ IH]; cbn in Hg; [discriminate|].
  destruct (String.eqb k0 k); [now injection Hg as <- | auto].
Qed.

(** The dictionary comprehension keeps the keys and their order. *)
Lemma dict_get_mapM (f : json -> result json) (k : string) (d d' : list (string * json)) :
  mapM (fun kv => v' ← f kv.2; mret (kv.1, v')) d = OK d' ->
  match dict_get k d with
  | Some x => exists y, f x = OK y /\ dict_get k d' = Some y
  | None => dict_get k d' = None
  end.
Proof.
  revert d'. induction d as [|[k0 v0] d IH]; intros d' H; cbn in H.
  - now injection H as <-.
  - inv_bind H. inv_bind H. inv_bind Ha. injection Ha as <-. injection H as <-.
    cbn. destruct (String.eqb k0 k); [eauto | apply IH; assumption].
Qed.

(** ** Normalisation *)

Lemma rewrite_prefix_canonical (s : string) :
  rewrite_prefix (group2 mapping) (rewrite_prefix (group2 mapping) s) =
  rewrite_prefix (group2 mapping) s.
Proof.
  cbn -[startswith].
  destruct (startswith s "/l/") eqn:E1; [reflexivity|].
  destruct (startswith s "/a/") eqn:E2; [reflexivity|].
  destruct (startswith s "/b/") eqn:E3; [reflexivity|].
  destruct (startswith s "/user/") eqn:E4; [reflexivity|].
  now rewrite E1, E2, E3, E4.
Qed.

Lemma _process_key_idem (k k' : json) :
  _process_key k = OK k' -> _process_key k' = OK k'.
Proof.
  destruct k; try discriminate. intros [= <-].
  unfold _process_key. do 2 f_equal. apply rewrite_prefix_canonical.
Qed.

Lemma replace_char_idem (s : string) :
  replace_char " " "T" (replace_char " " "T" s) = replace_char " " "T" s.
Proof.
  induction s as [|c s IH]; [reflexivity|].
  cbn -[Ascii.eqb]. rewrite IH.
  destruct (Ascii.eqb_spec c " ") as [->|Hc]; [reflexivity|].
  destruct (Ascii.eqb_spec c " "); [contradiction|reflexivity].
Qed.

Lemma rewrite_key_inv (d d1 : list (string * json)) :
  rewrite_key d = OK d1 ->
  (dict_get "key" d = None /\ d1 = d) \/
  (exists s, dict_get "key" d = Some (JStr s) /\
             d1 = dict_set "key" (JStr (rewrite_prefix (group2 mapping) s)) d).
Proof.
  unfold rewrite_key. destruct (dict_get "key" d) as [k|].
  - destruct k; try discriminate. cbn. intros [= <-]. right. eauto.
  - intros [= <-]. now left.
Qed.

Lemma rewrite_datetime_inv (d d2 : list (string * json)) :
  rewrite_datetime d = OK d2 ->
  (is_datetime d = false /\ d2 = d) \/
  (is_datetime d = true /\
   exists s, dict_get "value" d = Some (JStr s) /\
             d2 = dict_set "value" (JStr (replace_char " " "T" s)) d).
Proof.
  unfold rewrite_datetime. destruct (is_datetime d).
  - destruct (dict_get "value" d) as [v|]; [|discriminate].
    destruct v; try discriminate. intros [= <-]. right. eauto.
  - intros [= <-]. now left.
Qed.

(** The two in-place updates of a dictionary store text over text. *)
Lemma rewrite_key_Forall (P : json -> Prop) (d d1 : list (string * json)) :
  (forall s s', P (JStr s) -> P (JStr s')) -> rewrite_key d = OK d1 ->
  Forall (fun kv => P kv.2) d -> Forall (fun kv => P kv.2) d1.
Proof.
  intros HP H Hd. apply rewrite_key_inv in H as [[_ ->]|(s & Hs & ->)]; [assumption|].
  apply dict_set_Forall; [|assumption].
  eapply HP, (dict_get_Forall P); eassumption.
Qed.

Lemma rewrite_datetime_Forall (P : json -> Prop) (d d2 : list (string * json)) :
  (forall s s', P (JStr s) -> P (JStr s')) -> rewrite_datetime d = OK d2 ->
  Forall (fun kv => P kv.2) d -> Forall (fun kv => P kv.2) d2.
Proof.
  intros HP H Hd. apply rewrite_datetime_inv in H as [[_ ->]|(_ & s & Hs & ->)]; [assumption|].
  apply dict_set_Forall; [|assumption].
  eapply HP, (dict_get_Forall P); eassumption.
Qed.

Lemma max_list_le_Forall {A} (f : A -> nat) (l : list A) (n : nat) :
  max_list (map f l) <= n <-> Forall (fun x => f x <= n) l.
Proof.
  split.
  - induction l as [|x l IH]; cbn; intros H; constructor; [lia | apply IH; lia].
  - induction 1 as [|x l Hx _ IH]; cbn; lia.
Qed.

Lemma json_depth_dict (d : list (string * json)) :
  json_depth (JDict d) = S (max_list (map (fun kv => json_depth kv.2) d)).
Proof.
  cbn. do 2 f_equal. apply map_ext. now intros [k v].
Qed.

Lemma json_depth_list (l : list json) :
  json_depth (JList l) = S (max_list (map json_depth l)).
Proof. reflexivity. Qed.

Lemma process_data_at_list (n : nat) (l : list json) :
  process_data_at (S n) (JList l) = (l' ← mapM (process_data_at n) l; mret (JList l')).
Proof. reflexivity. Qed.

Lemma process_data_at_dict (n : nat) (d : list (string * json)) :
  process_data_at (S n) (JDict d) =
  (d1 ← rewrite_key d;
   d2 ← rewrite_datetime d1;
   d' ← mapM (fun kv => v' ← process_data_at n kv.2; mret (kv.1, v')) d2;
   mret (JDict d')).
Proof. reflexivity. Qed.

(** *** The depth bound is never reached *)

(** Any bound that covers the nesting depth gives the same result. *)
Lemma process_data_at_bound (n m : nat) (data : json) :
  json_depth data <= n -> json_depth data <= m ->
  process_data_at n data = process_data_at m data.
Proof.
  revert m data. induction n as [|n IH]; intros m data Hn Hm.
  { destruct data; cbn in Hn; lia. }
  destruct m as [|m]; [destruct data; cbn in Hm; lia|].
  destruct data as [| | | | |l|d]; try reflexivity.
  - rewrite !process_data_at_list. rewrite json_depth_list in Hn, Hm.
    rewrite (mapM_ext (process_data_at n) (process_data_at m) l); [reflexivity|].
    assert (Hl : Forall (fun x => json_depth x <= n) l) by (apply max_list_le_Forall; lia).
    assert (Hl' : Forall (fun x => json_depth x <= m) l) by (apply max_list_le_Forall; lia).
    rewrite Forall_forall in *. intros x Hx. apply IH; auto.
  - rewrite !process_data_at_dict. rewrite json_depth_dict in Hn, Hm.
    destruct (rewrite_key d) as [d1|e] eqn:E1; [|reflexivity]. cbn [mbind result_bind].
    destruct (rewrite_datetime d1) as [d2|e] eqn:E2; [|reflexivity]. cbn [mbind result_bind].
    assert (Hd : Forall (fun kv => json_depth kv.2 <= n /\ json_depth kv.2 <= m) d2).
    { apply (rewrite_datetime_Forall (fun v => json_depth v <= n /\ json_depth v <= m) d1);
        [cbn; lia | assumption |].
      apply (rewrite_key_Forall (fun v => json_depth v <= n /\ json_depth v <= m) d);
        [cbn; lia | assumption |].
      apply Forall_and. split;
        apply (max_list_le_Forall (fun kv : string * json => json_depth kv.2)); lia. }
    rewrite (mapM_ext _ (fun kv => v' ← process_data_at m kv.2; mret (kv.1, v')) d2);
      [reflexivity|].
    eapply Forall_impl; [exact Hd|]. intros [k v] [? ?]. cbn [fst snd]. now rewrite (IH m v).
Qed.

(** [_process_data] on a list: [[_process_data(d) for d in data]]. *)
Lemma _process_data_list (l : list json) :
  _process_data (JList l) = (l' ← mapM _process_data l; mret (JList l')).
Proof.
  unfold _process_data at 1. rewrite json_depth_list, process_data_at_list.
  rewrite (mapM_ext _ _process_data l); [reflexivity|].
  rewrite Forall_forall. intros x Hx. apply process_data_at_bound; [|lia].
  assert (H : Forall (fun x => json_depth x <= max_list (map json_depth l)) l)
    by (apply max_list_le_Forall; lia).
  rewrite Forall_forall in H. auto.
Qed.

(** [_process_data] on a dictionary: the two updates in place, then the
    comprehension [{k: _process_data(v) for k, v in data.items()}]. *)
Lemma _process_data_dict (d : list (string * json)) :
  _process_data (JDict d) =
  (d1 ← rewrite_key d;
   d2 ← rewrite_datetime d1;
   d' ← mapM (fun kv => v' ← _process_data kv.2; mret (kv.1, v')) d2;
   mret (JDict d')).
Proof.
  unfold _process_data at 1. rewrite json_depth_dict, process_data_at_dict.
  destruct (rewrite_key d) as [d1|e] eqn:E1; [|reflexivity]. cbn [mbind result_bind].
  destruct (rewrite_datetime d1) as [d2|e] eqn:E2; [|reflexivity]. cbn [mbind result_bind].
  set (n := max_list (map (fun kv => json_depth kv.2) d)).
  assert (Hd : Forall (fun kv => json_depth kv.2 <= n) d2).
  { apply (rewrite_datetime_Forall (fun v => json_depth v <= n) d1); [cbn; lia | assumption |].
    apply (rewrite_key_Forall (fun v => json_depth v <= n) d); [cbn; lia | assumption |].
    apply (max_list_le_Forall (fun kv : string * json => json_depth kv.2)). lia. }
  rewrite (mapM_ext _ (fun kv => v' ← _process_data kv.2; mret (kv.1, v')) d2);
    [reflexivity|].
  eapply Forall_impl; [exact Hd|]. intros [k v] Hv. cbn [fst snd] in *.
  unfold _process_data. rewrite (process_data_at_bound n (json_depth v) v); [reflexivity|lia|lia].
Qed.

(** Other values are returned as they are. *)
Lemma _process_data_atom (data : json) :
  match data with JList _ | JDict _ => True | _ => _process_data data = OK data end.
Proof. destruct data; reflexivity || exact I. Qed.

Lemma _process_data_text (s : string) : _process_data (JStr s) = OK (JStr s).
Proof. reflexivity. Qed.

Lemma _process_data_text_inv (x : json) (t : string) :
  _process_data x = OK (JStr t) -> x = JStr t.
Proof.
  destruct x as [| | | | |l|d]; try (now intros [= <-]); try discriminate.
  - rewrite _process_data_list. intros H. inv_bind H. discriminate.
  - rewrite _process_data_dict. intros H. do 3 inv_bind H. discriminate.
Qed.

(** The comprehension leaves the type tag of a dictionary as it is. *)
Lemma is_datetime_mapM (d d' : list (string * json)) :
  mapM (fun kv => v' ← _process_data kv.2; mret (kv.1, v')) d = OK d' ->
  is_datetime d' = is_datetime d.
Proof.
  intros H. apply (dict_get_mapM _ "type") in H. unfold is_datetime.
  destruct (dict_get "type" d) as [x|].
  - destruct H as (y & Hxy & ->).
    destruct x as [| | | |t|l|m]; try (now injection Hxy as <-).
    + rewrite _process_data_list in Hxy. inv_bind Hxy. now injection Hxy as <-.
    + rewrite _process_data_dict in Hxy. do 3 inv_bind Hxy. now injection Hxy as <-.
  - now rewrite H.
Qed.

Lemma Forall2_OK_diag {A} (f : A -> result A) (l l' : list A) :
  Forall (fun x => forall y, f x = OK y -> f y = OK y) l ->
  Forall2 (fun x y => f x = OK y) l l' ->
  Forall2 (fun x y => f x = OK y) l' l'.
Proof.
  intros Hl H. induction H as [|x y l l' Hxy _ IH]; constructor.
  - inversion Hl; subst. auto.
  - inversion Hl; subst. auto.
Qed.

(** Normalising a normalised value changes nothing. *)
Lemma _process_data_idem_depth (n : nat) :
  forall d r, json_depth d <= n -> _process_data d = OK r -> _process_data r = OK r.
Proof.
  induction n as [|n IH]; intros d r Hd H.
  { destruct d; cbn in Hd; lia. }
  destruct d as [| | | | |l|d]; try (now injection H as <-).
  - rewrite json_depth_list in Hd. rewrite _process_data_list in H. inv_bind H.
    injection H as <-. rewrite _process_data_list.
    apply mapM_OK_Forall2 in Ha.
    assert (Ha' : mapM _process_data a = OK a).
    { apply mapM_OK_Forall2. apply (Forall2_OK_diag _ l); [|assumption].
      assert (Hl : Forall (fun x => json_depth x <= n) l) by (apply max_list_le_Forall; lia).
      eapply Forall_impl; [exact Hl|]. intros x Hx y. now apply IH. }
    now rewrite Ha'.
  - rewrite json_depth_dict in Hd. rewrite _process_data_dict in H.
    inv_bind H. rename a into d1. inv_bind H. rename a into d2. inv_bind H.
    rename a into d'. injection H as <-.
    assert (Hd2 : Forall (fun kv => json_depth kv.2 <= n) d2).
    { apply (rewrite_datetime_Forall (fun v => json_depth v <= n) d1); [cbn; lia | assumption |].
      apply (rewrite_key_Forall (fun v => json_depth v <= n) d); [cbn; lia | assumption |].
      apply (max_list_le_Forall (fun kv : string * json => json_depth kv.2)). lia. }
    rewrite _process_data_dict.
    (* the key is already rewritten *)
    assert (Hk : rewrite_key d' = OK d').
    { pose proof (dict_get_mapM _ "key" _ _ Ha1) as Hg.
      assert (Hk2 : dict_get "key" d2 = dict_get "key" d1).
      { apply rewrite_datetime_inv in Ha0 as [[_ ->]|(_ & s & _ & ->)]; [reflexivity|].
        now rewrite dict_get_set. }
      rewrite Hk2 in Hg. unfold rewrite_key.
      apply rewrite_key_inv in Ha as [[Hnone ->]|(s & Hs & ->)].
      - rewrite Hnone in Hg. now rewrite Hg.
      - assert (Hidem : _process_key (JStr (rewrite_prefix (group2 mapping) s)) =
                        OK (JStr (rewrite_prefix (group2 mapping) s)))
          by apply (_process_key_idem (JStr s)), eq_refl.
        revert Hg Hidem. generalize (rewrite_prefix (group2 mapping) s). intros k' Hg Hidem.
        rewrite dict_get_set, String.eqb_refl in Hg.
        destruct Hg as (y & Hy & Hgy). rewrite _process_data_text in Hy.
        injection Hy as <-. rewrite Hgy, Hidem.
        cbn [mbind result_bind mret result_ret]. now rewrite dict_set_same. }
    (* and so is the timestamp *)
    assert (Hv : rewrite_datetime d' = OK d').
    { unfold rewrite_datetime. rewrite (is_datetime_mapM _ _ Ha1).
      pose proof (dict_get_mapM _ "value" _ _ Ha1) as Hg.
      apply rewrite_datetime_inv in Ha0 as [[Hf ->]|(Ht & s & Hs & ->)].
      - now rewrite Hf.
      - assert (Ht2 : is_datetime (dict_set "value" (JStr (replace_char " " "T" s)) d1) = true).
        { unfold is_datetime in *. now rewrite dict_get_set. }
        rewrite Ht2. rewrite dict_get_set, String.eqb_refl in Hg.
        destruct Hg as (y & Hy & Hgy). rewrite _process_data_text in Hy.
        injection Hy as <-. rewrite Hgy.
        rewrite replace_char_idem. cbn [mret result_ret]. now rewrite dict_set_same. }
    rewrite Hk. cbn [mbind result_bind]. rewrite Hv. cbn [mbind result_bind].
    assert (Hm : mapM (fun kv => v' ← _process_data kv.2; mret (kv.1, v')) d' = OK d').
    { apply mapM_OK_Forall2. apply mapM_OK_Forall2 in Ha1.
      apply (Forall2_OK_diag _ d2); [|assumption].
      eapply Forall_impl; [exact Hd2|]. intros [k v] Hkv [k' v'] Hy. cbn [fst snd] in *.
      inv_bind Hy. injection Hy as <- <-. cbn [fst snd].
      now rewrite (IH v a). }
    now rewrite Hm.
Qed.

(** C8: normalising twice gives what normalising once gives, also when the
    record is one that cannot be normalised (the same exception is raised);
    and a key that already starts with one of the four long prefixes is left
    as it is. *)
Theorem process_data_idempotent (d : json) :
  (r ← _process_data d; _process_data r) = _process_data d /\
  forall rest : string,
    Forall (fun prefix =>
              _process_key (JStr (String.append prefix rest)) =
              OK (JStr (String.append prefix rest)))
           ["/authors/"; "/books/"; "/languages/"; "/people/"].
Proof.
  split.
  - destruct (_process_data d) as [r|e] eqn:E; [|reflexivity].
    cbn [mbind result_bind]. exact (_process_data_idem_depth _ d r (le_n _) E).
  - intros rest. repeat constructor.
Qed.

(** *** Timestamps *)

Lemma rewrite_key_get (k : string) (x : json) (d d1 : list (string * json)) :
  rewrite_key d = OK d1 -> dict_get k d = Some x ->
  dict_get k d1 = Some x \/ exists s, x = JStr s.
Proof.
  intros H Hx. apply rewrite_key_inv in H as [[_ ->]|(s & Hs & ->)]; [now left|].
  rewrite dict_get_set. destruct (String.eqb_spec "key" k) as [<-|]; [|now left].
  right. exists s. congruence.
Qed.

Lemma rewrite_datetime_get (k : string) (x : json) (d d2 : list (string * json)) :
  rewrite_datetime d = OK d2 -> dict_get k d = Some x ->
  dict_get k d2 = Some x \/ exists s, x = JStr s.
Proof.
  intros H Hx. apply rewrite_datetime_inv in H as [[_ ->]|(_ & s & Hs & ->)]; [now left|].
  rewrite dict_get_set. destruct (String.eqb_spec "value" k) as [<-|]; [|now left].
  right. exists s. congruence.
Qed.

Lemma lookup_path_text (p : list step) (s : string) (m : list (string * json)) :
  lookup_path p (JStr s) <> Some (JDict m).
Proof. destruct p as [|[k|i] p]; discriminate. Qed.

Lemma mapM_lookup {A B} (f : A -> result B) (l : list A) (l' : list B) (i : nat) (x : A) :
  mapM f l = OK l' -> l !! i = Some x -> exists y, l' !! i = Some y /\ f x = OK y.
Proof.
  intros H Hx. apply mapM_OK_Forall2 in H.
  destruct (Forall2_lookup_l _ _ _ _ _ H Hx) as (y & Hy & Hxy). eauto.
Qed.

(** Wherever a dictionary tagged as a datetime sits in a record, its text
    value comes out with every space turned into [T]. *)
Lemma _process_data_datetime_at (p : list step) :
  forall (d r : json) (m : list (string * json)) (v : string),
    _process_data d = OK r ->
    lookup_path p d = Some (JDict m) ->
    is_datetime m = true ->
    dict_get "value" m = Some (JStr v) ->
    exists m', lookup_path p r = Some (JDict m') /\
               dict_get "value" m' = Some (JStr (replace_char " " "T" v)).
Proof.
  induction p as [|[k|i] p IH]; intros d r m v H Hp Ht Hv.
  - injection Hp as ->. rewrite _process_data_dict in H.
    inv_bind H. rename a into d1. inv_bind H. rename a into d2. inv_bind H.
    rename a into d'. injection H as <-. exists d'. split; [reflexivity|].
    assert (Ht1 : is_datetime d1 = true).
    { apply rewrite_key_inv in Ha as [[_ ->]|(s & _ & ->)]; [assumption|].
      unfold is_datetime in *. now rewrite dict_get_set. }
    assert (Hv1 : dict_get "value" d1 = Some (JStr v)).
    { apply rewrite_key_inv in Ha as [[_ ->]|(s & _ & ->)]; [assumption|].
      now rewrite dict_get_set. }
    apply rewrite_datetime_inv in Ha0 as [[Hf _]|(_ & s & Hs & ->)]; [congruence|].
    assert (s = v) as -> by congruence.
    pose proof (dict_get_mapM _ "value" _ _ Ha1) as Hg.
    rewrite dict_get_set, String.eqb_refl in Hg.
    destruct Hg as (y & Hy & Hgy). rewrite _process_data_text in Hy. congruence.
  - destruct d as [| | | | | |m0]; try discriminate.
    cbn [lookup_path] in Hp. destruct (dict_get k m0) as [x|] eqn:Hx; [|discriminate].
    cbn in Hp. rewrite _process_data_dict in H.
    inv_bind H. rename a into d1. inv_bind H. rename a into d2. inv_bind H.
    rename a into d'. injection H as <-.
    assert (Hx2 : dict_get k d2 = Some x).
    { destruct (rewrite_key_get k x _ _ Ha Hx) as [Hx1|[s ->]];
        [|now apply lookup_path_text in Hp].
      destruct (rewrite_datetime_get k x _ _ Ha0 Hx1) as [?|[s ->]];
        [assumption | now apply lookup_path_text in Hp]. }
    pose proof (dict_get_mapM _ k _ _ Ha1) as Hg. rewrite Hx2 in Hg.
    destruct Hg as (y & Hy & Hgy).
    destruct (IH x y m v Hy Hp Ht Hv) as (m' & Hm' & Hv').
    exists m'. split; [|assumption]. cbn [lookup_path]. rewrite Hgy. exact Hm'.
  - destruct d as [| | | | |l|]; try discriminate.
    cbn [lookup_path] in Hp. destruct (l !! i) as [x|] eqn:Hx; [|discriminate].
    cbn in Hp. rewrite _process_data_list in H. inv_bind H. injection H as <-.
    destruct (mapM_lookup _ _ _ _ _ Ha Hx) as (y & Hy & Hxy).
    destruct (IH x y m v Hxy Hp Ht Hv) as (m' & Hm' & Hv').
    exists m'. split; [|assumption]. cbn [lookup_path]. rewrite Hy. exact Hm'.
Qed.

Lemma append_String (c : ascii) (s t : string) :
  String.append (String c s) t = String c (String.append s t).
Proof. reflexivity. Qed.

Lemma replace_char_app (a b : ascii) (s t : string) :
  replace_char a b (String.append s t) =
  String.append (replace_char a b s) (replace_char a b t).
Proof.
  induction s as [|c s IH]; [reflexivity|].
  cbn [replace_char]. rewrite !append_String. cbn [replace_char]. now rewrite IH.
Qed.

Lemma replace_char_absent (a b : ascii) (s : string) :
  contains_char a s = false -> replace_char a b s = s.
Proof.
  induction s as [|c s IH]; [reflexivity|]. cbn [contains_char replace_char].
  destruct (Ascii.eqb c a); [discriminate|]. cbn [orb]. intros H. now rewrite IH.
Qed.

Lemma count_char_app (a : ascii) (s t : string) :
  count_char a (String.append s t) = count_char a s + count_char a t.
Proof.
  induction s as [|c s IH]; [reflexivity|].
  rewrite append_String. cbn [count_char]. rewrite IH.
  destruct (Ascii.eqb c a); lia.
Qed.

(** One substitution takes one space away. *)
Lemma one_substitution_count (v r : string) :
  one_substitution v r -> count_char " " v = S (count_char " " r).
Proof.
  intros (date & time & -> & ->). rewrite !count_char_app. cbn. lia.
Qed.

(** C7 (as the code behaves): for every dictionary tagged as a datetime,
    anywhere in a record that normalises, the text value comes out with every
    space turned into [T]; for a value made of a date, one space and a time
    that is the one substitution of the separating space. *)
Theorem process_data_datetime (d r : json) (p : list step)
    (m : list (string * json)) (v : string) :
  _process_data d = OK r ->
  lookup_path p d = Some (JDict m) ->
  is_datetime m = true ->
  dict_get "value" m = Some (JStr v) ->
  exists m',
    lookup_path p r = Some (JDict m') /\
    dict_get "value" m' = Some (JStr (replace_char " " "T" v)) /\
    forall date time,
      v = String.append date (String " " time) ->
      contains_char " " date = false -> contains_char " " time = false ->
      dict_get "value" m' = Some (JStr (String.append date (String "T" time))) /\
      one_substitution v (replace_char " " "T" v).
Proof.
  intros H Hp Ht Hv.
  destruct (_process_data_datetime_at p d r m v H Hp Ht Hv) as (m' & Hm' & Hv').
  exists m'. split; [assumption|]. split; [assumption|].
  intros date time -> Hd Htm. rewrite Hv'.
  assert (E : replace_char " " "T" (String.append date (String " " time)) =
              String.append date (String "T" time)).
  { rewrite replace_char_app. cbn [replace_char].
    change (Ascii.eqb " " " ") with true. cbn iota.
    now rewrite !replace_char_absent. }
  rewrite E. split; [reflexivity|]. exists date, time. split; reflexivity.
Qed.

Lemma process_data_datetime_witness :
  exists m',
    lookup_path [Key "notes"; Index 0] (JDict
      [ ("created", JDict [("type", JStr "/type/datetime");
                           ("value", JStr "2020-01-01T00:00:00")]);
        ("notes", JList [JDict [("type", JStr "/type/datetime");
                                ("value", JStr "2020-01-02T10:30:00")]]) ])
      = Some (JDict m') /\
    dict_get "value" m' = Some (JStr "2020-01-02T10:30:00").
Proof.
  destruct (process_data_datetime two_datetimes _ [Key "notes"; Index 0] _
              "2020-01-02 10:30:00" eq_refl eq_refl eq_refl eq_refl)
    as (m' & Hp & Hv & _).
  exists m'. split; assumption.
Defined.

(** C7 (as stated) fails where the value does not hold exactly one space:
    two spaces are both turned into [T], and a value without a space, such
    as one that is already normalised, is left as it is. *)
Lemma process_data_datetime_every_space :
  (_process_data (JDict [("type", JStr "/type/datetime");
                         ("value", JStr "2020-01-01 00:00:00 UTC")]) =
     OK (JDict [("type", JStr "/type/datetime");
                ("value", JStr "2020-01-01T00:00:00TUTC")]) /\
   ~ one_substitution "2020-01-01 00:00:00 UTC" "2020-01-01T00:00:00TUTC") /\
  (_process_data (JDict [("type", JStr "/type/datetime");
                         ("value", JStr "2020-01-01T00:00:00")]) =
     OK (JDict [("type", JStr "/type/datetime");
                ("value", JStr "2020-01-01T00:00:00")]) /\
   ~ one_substitution "2020-01-01T00:00:00" "2020-01-01T00:00:00").
Proof.
  repeat split; intros H; apply one_substitution_count in H; discriminate H.
Qed.

(** ** Snapshot generator *)

Section SnapshotProperties.

Context `{RT : Runtime}.

(** What a printed record went through. *)
Lemma dump_record_printed (filter : predicate) (json_data : string) (fields : list string) :
  dump_record filter json_data = OK (Some fields) ->
  exists d0 d1 d k t type_ lm timestamp rev,
    json_loads json_data = OK d0 /\ pop_id d0 = OK d1 /\ _process_data d1 = OK d /\
    subscript d "key" = OK k /\
    subscript d "type" = OK t /\ subscript t "key" = OK (JStr type_) /\
    subscript d "last_modified" = OK lm /\ subscript lm "value" = OK (JStr timestamp) /\
    hidden_key (safestr k) = false /\
    vetoed filter d = OK false /\
    subscript d "revision" = OK rev /\
    fields = [type_; safestr k; py_str rev; timestamp; json_dumps d].
Proof.
  unfold dump_record. intros H.
  inv_bind_as H d0 Hd0. inv_bind_as H d1 Hd1. inv_bind_as H d Hd.
  inv_bind_as H k Hk. inv_bind_as H t Ht. inv_bind_as H ty Hty.
  inv_bind_as H lm Hlm. inv_bind_as H ts Hts.
  destruct (startswith_any (safestr k) ["/people/"; "/admin/"]) eqn:E1;
    [discriminate|].
  destruct (startswith_any (safestr k) ["/b/"; "/scan"; "/old/"]
            || negb (startswith (safestr k) "/")) eqn:E2; [discriminate|].
  inv_bind_as H veto Hveto. destruct veto; [discriminate|].
  inv_bind_as H rev Hrev. inv_bind_as H type_ Htype. inv_bind_as H timestamp Hstamp.
  injection H as <-.
  destruct ty; try discriminate. injection Htype as ->.
  destruct ts; try discriminate. injection Hstamp as ->.
  exists d0, d1, d, k, t, type_, lm, timestamp, rev. repeat (split; [assumption|]).
  split; [|repeat (split; try assumption; try reflexivity)].
  unfold hidden_key. unfold startswith_any in *. cbn [existsb] in *.
  repeat match goal with
         | H : _ || _ = false |- _ => apply orb_false_elim in H as [? ?]
         end.
  repeat match goal with H : _ = false |- _ => rewrite H; clear H end.
  reflexivity.
Qed.

Lemma dict_get_pop {A} (k k' : string) (d : list (string * A)) :
  k <> k' -> dict_get k (dict_pop k' d) = dict_get k d.
Proof.
  intros Hne. induction d as [|[k0 v0] d IH]; [reflexivity|]. cbn.
  destruct (String.eqb_spec k0 k') as [->|].
  - destruct (String.eqb_spec k' k) as [->|]; [contradiction|reflexivity].
  - cbn. now rewrite IH.
Qed.

(** The key of a normalised record is the rewritten key of the raw one. *)
Lemma _process_data_key (m : list (string * json)) (d k : json) :
  _process_data (JDict m) = OK d -> subscript d "key" = OK k ->
  exists raw, dict_get "key" m = Some (JStr raw) /\
              k = JStr (rewrite_prefix (group2 mapping) raw).
Proof.
  rewrite _process_data_dict. intros H Hk.
  inv_bind_as H d1 Hd1. inv_bind_as H d2 Hd2. inv_bind_as H d' Hd'. injection H as <-.
  pose proof (dict_get_mapM _ "key" _ _ Hd') as Hg.
  assert (Hk2 : dict_get "key" d2 = dict_get "key" d1).
  { apply rewrite_datetime_inv in Hd2 as [[_ ->]|(_ & s & _ & ->)]; [reflexivity|].
    now rewrite dict_get_set. }
  rewrite Hk2 in Hg. cbn [subscript] in Hk.
  apply rewrite_key_inv in Hd1 as [[Hnone ->]|(raw & Hraw & ->)].
  - rewrite Hnone in Hg. now rewrite Hg in Hk.
  - exists raw. split; [assumption|].
    rewrite dict_get_set, String.eqb_refl in Hg. destruct Hg as (y & Hy & Hgy).
    rewrite _process_data_text in Hy. rewrite Hgy in Hk. congruence.
Qed.

(** A record whose rewritten key is hidden is not printed. *)
Lemma dump_record_hidden (filter : predicate) (json_data raw : string)
    (m : list (string * json)) :
  json_loads json_data = OK (JDict m) ->
  dict_get "key" m = Some (JStr raw) ->
  hidden_key (rewrite_prefix (group2 mapping) raw) = true ->
  dump_record filter json_data = OK None \/
  exists e, dump_record filter json_data = Raise e.
Proof.
  intros Hl Hraw Hh.
  destruct (dump_record filter json_data) as [[fields|]|e] eqn:E; [|now left|eauto].
  apply dump_record_printed in E
    as (d0 & d1 & d & k & t & ty & lm & ts & rev &
        Hd0 & Hd1 & Hd & Hk & _ & _ & _ & _ & Hhid & _).
  rewrite Hl in Hd0. injection Hd0 as <-. injection Hd1 as <-.
  destruct (_process_data_key _ _ _ Hd Hk) as (raw' & Hraw' & ->).
  rewrite dict_get_pop in Hraw' by discriminate.
  assert (raw' = raw) as -> by congruence.
  cbn [safestr] in Hhid. congruence.
Qed.

Lemma print_dump_rows_one (filter : predicate) (json_data : string) :
  print_dump_rows (Stream [json_data] None) filter =
  match dump_record filter json_data with
  | OK (Some fields) => Stream [fields] None
  | OK None => Stream [] None
  | Raise e => Stream [] (Some e)
  end.
Proof.
  unfold print_dump_rows, items, failure. cbn [print_dump_loop].
  destruct (dump_record filter json_data) as [[fields|]|e]; reflexivity.
Qed.

(** C6: after normalisation, no printed row has a key that starts with
    [/people/], [/admin/], [/b/], [/scan] or [/old/], or that does not start
    with [/]: a record whose rewritten key is one of these is not printed.
    In particular a record with key [/people/foo] is not printed, whatever
    else it holds. *)
Theorem print_dump_hides_keys (json_records : stream string) (filter : predicate) :
  Forall (fun fields => exists key, fields !! 1 = Some key /\ hidden_key key = false)
         (items (print_dump_rows json_records filter)) /\
  (forall rest : string,
      Forall (fun prefix => hidden_key (String.append prefix rest) = true)
             ["/people/"; "/admin/"; "/b/"; "/scan"; "/old/"]) /\
  (forall key, startswith key "/" = false -> hidden_key key = true) /\
  (forall json_data m raw,
      json_loads json_data = OK (JDict m) ->
      dict_get "key" m = Some (JStr raw) ->
      hidden_key (rewrite_prefix (group2 mapping) raw) = true ->
      (dump_record filter json_data = OK None \/
       exists e, dump_record filter json_data = Raise e) /\
      items (print_dump_rows (Stream [json_data] None) filter) = []) /\
  (forall json_data m,
      json_loads json_data = OK (JDict m) ->
      dict_get "key" m = Some (JStr "/people/foo") ->
      items (print_dump_rows (Stream [json_data] None) filter) = []).
Proof.
  assert (Hone : forall json_data m raw,
             json_loads json_data = OK (JDict m) ->
             dict_get "key" m = Some (JStr raw) ->
             hidden_key (rewrite_prefix (group2 mapping) raw) = true ->
             (dump_record filter json_data = OK None \/
              exists e, dump_record filter json_data = Raise e) /\
             items (print_dump_rows (Stream [json_data] None) filter) = []).
  { intros json_data m raw Hl Hk Hh.
    pose proof (dump_record_hidden filter json_data _ m Hl Hk Hh) as H.
    split; [assumption|]. rewrite print_dump_rows_one.
    destruct H as [->|[e ->]]; reflexivity. }
  split; [|split; [|split; [|split]]].
  - unfold print_dump_rows.
    destruct (print_dump_loop filter (items json_records)) as [out e] eqn:E.
    cbn [items]. revert out e E.
    induction (items json_records) as [|json_data rest IH]; intros out e E;
      cbn [print_dump_loop] in E.
    + injection E as <- <-. constructor.
    + destruct (dump_record filter json_data) as [[fields|]|e'] eqn:Er.
      * destruct (print_dump_loop filter rest) as [out' e''] eqn:E'.
        injection E as <- <-. constructor; [|eapply IH; reflexivity].
        apply dump_record_printed in Er
          as (d0 & d1 & d & k & t & ty & lm & ts & rev & _ & _ & _ & _ & _ & _ & _ & _ & Hh & _ & _ & ->).
        eauto.
      * eapply IH; eassumption.
      * injection E as <- <-. constructor.
  - intros rest. repeat constructor.
  - intros key Hk. unfold hidden_key. rewrite Hk. apply orb_true_r.
  - exact Hone.
  - intros json_data m Hl Hk. exact (proj2 (Hone json_data m _ Hl Hk eq_refl)).
Qed.

(** C10: a raw record whose key starts with [/user/] is not printed: the key
    is rewritten to [/people/...], which is hidden, although [/user/...]
    itself is not.  In a stream the record is passed over, or the run ends
    on it with an exception. *)
Theorem user_records_not_printed (filter : predicate) (json_data rest : string)
    (m : list (string * json)) :
  json_loads json_data = OK (JDict m) ->
  dict_get "key" m = Some (JStr (String.append "/user/" rest)) ->
  (dump_record filter json_data = OK None \/
   exists e, dump_record filter json_data = Raise e) /\
  items (print_dump (Stream [json_data] None) filter) = [] /\
  (forall json_records,
      print_dump_loop filter (json_data :: json_records) =
        print_dump_loop filter json_records \/
      exists e, print_dump_loop filter (json_data :: json_records) = ([], Some e)) /\
  _process_key (JStr (String.append "/user/" rest)) =
    OK (JStr (String.append "/people/" rest)) /\
  hidden_key (String.append "/people/" rest) = true /\
  hidden_key (String.append "/user/" rest) = false.
Proof.
  intros Hl Hk.
  pose proof (dump_record_hidden filter json_data _ m Hl Hk eq_refl) as H.
  split; [assumption|]. split; [|split; [|repeat split]].
  - unfold print_dump. rewrite print_dump_rows_one.
    destruct H as [->|[e ->]]; reflexivity.
  - intros json_records. cbn [print_dump_loop].
    destruct H as [->|[e ->]]; [now left | right; eauto].
Qed.

(** *** The cutoff date of [generate_cdump] *)

(** A caller's predicate only decides between printing and skipping a
    record that would be printed without it. *)
Lemma dump_record_filtered (json_data : string) (fields : list string) :
  dump_record None json_data = OK (Some fields) ->
  exists d lm timestamp,
    subscript d "last_modified" = OK lm /\
    subscript lm "value" = OK (JStr timestamp) /\
    fields !! 3 = Some timestamp /\
    forall filter,
      dump_record filter json_data =
      (veto ← vetoed filter d; mret (if (veto : bool) then None else Some fields)).
Proof.
  intros E.
  apply dump_record_printed in E
    as (d0 & d1 & d & k & t & ty & lm & ts & rev &
        Hd0 & Hd1 & Hd & Hk & Ht & Hty & Hlm & Hts & Hhid & _ & Hrev & ->).
  exists d, lm, ts. repeat (split; [assumption || reflexivity|]).
  intros filter. unfold dump_record.
  rewrite Hd0. cbn [mbind result_bind]. rewrite Hd1. cbn [mbind result_bind].
  rewrite Hd. cbn [mbind result_bind]. rewrite Hk. cbn [mbind result_bind].
  rewrite Ht. cbn [mbind result_bind]. rewrite Hty. cbn [mbind result_bind].
  rewrite Hlm. cbn [mbind result_bind]. rewrite Hts. cbn [mbind result_bind].
  unfold hidden_key, startswith_any in Hhid. cbn [existsb] in Hhid.
  unfold startswith_any. cbn [existsb].
  repeat match goal with
         | H : _ || _ = false |- _ => apply orb_false_elim in H as [? ?]
         end.
  repeat match goal with H : _ = false |- _ => rewrite H; clear H end.
  cbn [orb]. destruct (vetoed filter d) as [[|]|e]; [reflexivity| |reflexivity].
  cbn [mbind result_bind]. rewrite Hrev. reflexivity.
Qed.

Lemma compare_append_same (p s t : string) :
  String.compare (String.append p s) (String.append p t) = String.compare s t.
Proof.
  induction p as [|c p IH]; [reflexivity|].
  rewrite !append_String. cbn [String.compare].
  unfold Ascii.compare. now rewrite N.compare_refl.
Qed.

Lemma compare_append_Lt (s d x : string) :
  String.compare s d = Lt -> String.compare s (String.append d x) = Lt.
Proof.
  revert d. induction s as [|c s IH]; intros [|c' d]; try discriminate.
  - reflexivity.
  - rewrite append_String. cbn [String.compare].
    destruct (Ascii.compare c c'); auto.
Qed.

(** A record that is skipped without a predicate is skipped with any. *)
Lemma dump_record_skipped (json_data : string) :
  dump_record None json_data = OK None ->
  forall filter, dump_record filter json_data = OK None.
Proof.
  unfold dump_record. intros E filter.
  repeat match type of E with
         | mbind _ ?m = _ =>
             destruct m eqn:?; cbn [mbind result_bind] in E |- *; [|discriminate]
         end.
  destruct (startswith_any _ ["/people/"; "/admin/"]); [reflexivity|].
  destruct (startswith_any _ ["/b/"; "/scan"; "/old/"] || _); [reflexivity|].
  exfalso. cbn [vetoed mbind result_bind] in E.
  repeat match type of E with
         | mbind _ ?m = _ =>
             destruct m eqn:?; cbn [mbind result_bind] in E; [|discriminate]
         end.
  discriminate.
Qed.

Lemma vetoed_cdump_filter (D timestamp : string) (d lm : json) :
  D <> EmptyString ->
  subscript d "last_modified" = OK lm ->
  subscript lm "value" = OK (JStr timestamp) ->
  vetoed (cdump_filter (Some D)) d =
  OK (negb (String.ltb timestamp (String.append D "Z"))).
Proof.
  intros HD Hlm Hts.
  assert (Hc : cdump_filter (Some D) = Some (cdump_before D))
    by (destruct D; [contradiction | reflexivity]).
  rewrite Hc. cbn [vetoed]. unfold cdump_before.
  rewrite Hlm. cbn [mbind result_bind]. rewrite Hts. cbn [mbind result_bind mret result_ret].
  destruct (String.ltb timestamp (String.append D "Z")); reflexivity.
Qed.

Lemma print_dump_loop_cutoff (D : string) (json_records : list string) :
  D <> EmptyString ->
  forall rows,
    print_dump_loop None json_records = (rows, None) ->
    print_dump_loop (cdump_filter (Some D)) json_records =
    (filter (fun fields => before_cutoff D fields = true) rows, None).
Proof.
  intros HD. induction json_records as [|json_data rest IH]; intros rows E.
  - injection E as <-. reflexivity.
  - cbn [print_dump_loop] in *.
    destruct (dump_record None json_data) as [[fields|]|e] eqn:E0.
    + destruct (print_dump_loop None rest) as [out e'] eqn:E1.
      injection E as <- ->. specialize (IH out eq_refl).
      destruct (dump_record_filtered _ _ E0) as (d & lm & ts & Hlm & Hts & Hf & Hveto).
      rewrite Hveto, (vetoed_cdump_filter D ts d lm HD Hlm Hts). cbn [mbind result_bind].
      assert (Hb : before_cutoff D fields = String.ltb ts (String.append D "Z"))
        by (unfold before_cutoff; now rewrite Hf).
      rewrite filter_cons.
      destruct (String.ltb ts (String.append D "Z")); cbn [negb mret result_ret].
      * rewrite decide_True by assumption. now rewrite IH.
      * rewrite decide_False by congruence. exact IH.
    + rewrite (dump_record_skipped _ E0). now apply IH.
    + discriminate.
Qed.

(** A row printed under a cutoff passed the test of the cutoff. *)
Lemma dump_record_cutoff_before (D json_data : string) (fields : list string) :
  D <> EmptyString ->
  dump_record (cdump_filter (Some D)) json_data = OK (Some fields) ->
  before_cutoff D fields = true.
Proof.
  intros HD E.
  apply dump_record_printed in E
    as (d0 & d1 & d & k & t & ty & lm & ts & rev &
        _ & _ & _ & _ & _ & _ & Hlm & Hts & _ & Hveto & _ & ->).
  rewrite (vetoed_cdump_filter D ts d lm HD Hlm Hts) in Hveto.
  unfold before_cutoff. cbn.
  destruct (String.ltb ts (String.append D "Z")); [reflexivity | discriminate].
Qed.

Lemma print_dump_loop_cutoff_before (D : string) (json_records : list string) :
  D <> EmptyString ->
  Forall (fun fields => before_cutoff D fields = true)
         (print_dump_loop (cdump_filter (Some D)) json_records).1.
Proof.
  intros HD. induction json_records as [|json_data rest IH]; [constructor|].
  cbn [print_dump_loop].
  destruct (dump_record (cdump_filter (Some D)) json_data) as [[fields|]|e] eqn:E0.
  - destruct (print_dump_loop (cdump_filter (Some D)) rest) as [out e']. cbn [fst] in *.
    constructor; [|assumption]. now apply (dump_record_cutoff_before D json_data).
  - assumption.
  - constructor.
Qed.

(** The run with a cutoff gets at least as far as the run without: it
    begins with the rows of that run that pass the test. *)
Lemma print_dump_loop_cutoff_prefix (D : string) (json_records : list string) :
  D <> EmptyString ->
  filter (fun fields => before_cutoff D fields = true) (print_dump_loop None json_records).1
    `prefix_of` (print_dump_loop (cdump_filter (Some D)) json_records).1.
Proof.
  intros HD. induction json_records as [|json_data rest IH]; [reflexivity|].
  cbn [print_dump_loop].
  destruct (dump_record None json_data) as [[fields|]|e] eqn:E0.
  - destruct (dump_record_filtered _ _ E0) as (d & lm & ts & Hlm & Hts & Hf & Hveto).
    rewrite Hveto, (vetoed_cdump_filter D ts d lm HD Hlm Hts). cbn [mbind result_bind].
    assert (Hb : before_cutoff D fields = String.ltb ts (String.append D "Z"))
      by (unfold before_cutoff; now rewrite Hf).
    destruct (print_dump_loop None rest) as [out e'].
    cbn [fst] in *. rewrite filter_cons.
    destruct (String.ltb ts (String.append D "Z")); cbn [negb mret result_ret].
    + rewrite decide_True by assumption.
      destruct (print_dump_loop (cdump_filter (Some D)) rest) as [outD eD].
      cbn [fst] in *. now apply prefix_cons.
    + rewrite decide_False by congruence. exact IH.
  - rewrite (dump_record_skipped _ E0). exact IH.
  - cbn [fst]. apply prefix_nil.
Qed.

(** C2 (as the code behaves): with a cutoff date [D], every row the
    generator prints has a timestamp below [D] followed by [Z] in code point
    order.  The rows begin with the rows printed without a cutoff that are
    below that bound, and when the run without a cutoff ends without an
    exception they are exactly those, the run ending without an exception
    too.  Every timestamp of day [D] itself ([D], then [T], then a time) is
    below the bound, and so is every timestamp below [D]. *)
Theorem generate_cdump_cutoff (data_file : list string) (D : string)
    (rows : list (list string)) (e : option exn) :
  D <> EmptyString ->
  generate_cdump_rows data_file None = Stream rows e ->
  Forall (fun fields => before_cutoff D fields = true)
         (items (generate_cdump_rows data_file (Some D))) /\
  filter (fun fields => before_cutoff D fields = true) rows
    `prefix_of` items (generate_cdump_rows data_file (Some D)) /\
  (e = None ->
   generate_cdump_rows data_file (Some D) =
     Stream (filter (fun fields => before_cutoff D fields = true) rows) None) /\
  (forall time,
      String.ltb (String.append D (String "T" time)) (String.append D "Z") = true) /\
  (forall t, String.ltb t D = true -> String.ltb t (String.append D "Z") = true).
Proof.
  intros HD E. split; [|split; [|split; [|split]]].
  - unfold generate_cdump_rows, print_dump_rows.
    pose proof (print_dump_loop_cutoff_before D (items (read_data_file data_file)) HD) as H.
    destruct (print_dump_loop (cdump_filter (Some D)) (items (read_data_file data_file))).
    exact H.
  - unfold generate_cdump_rows, print_dump_rows in *. cbn [cdump_filter] in E.
    pose proof (print_dump_loop_cutoff_prefix D (items (read_data_file data_file)) HD) as H.
    destruct (print_dump_loop None (items (read_data_file data_file))) as [out e0].
    injection E as -> _.
    destruct (print_dump_loop (cdump_filter (Some D)) (items (read_data_file data_file))).
    exact H.
  - intros ->. unfold generate_cdump_rows, print_dump_rows in *. cbn [cdump_filter] in E.
    destruct (print_dump_loop None (items (read_data_file data_file))) as [out e] eqn:E0.
    injection E as -> Hfail.
    assert (e = None) as -> by (destruct e; [discriminate | reflexivity]).
    cbn iota in Hfail.
    rewrite (print_dump_loop_cutoff D _ HD _ E0), Hfail. reflexivity.
  - intros time. unfold String.ltb. now rewrite compare_append_same.
  - intros t. unfold String.ltb. destruct (String.compare t D) eqn:Ec; try discriminate.
    intros _. now rewrite compare_append_Lt.
Qed.

End SnapshotProperties.

(** *** The cutoff on sample records *)

(** C2 (as stated) fails on the boundary day: with the cutoff [2020-05-17],
    the record stamped [2020-05-17T10:00:00] is not vetoed and is printed. *)
Lemma generate_cdump_boundary_day_printed :
  vetoed (cdump_filter (Some "2020-05-17")) boundary_record = OK false /\
  generate_cdump_rows (RT := sample_runtime [boundary_record] [])
    [sample_line boundary_record] (Some "2020-05-17") =
  Stream [sample_fields "/books/OL1M" "2020-05-17T10:00:00"] None /\
  items (generate_cdump (RT := sample_runtime [boundary_record] [])
           [sample_line boundary_record] (Some "2020-05-17")) <> [].
Proof. repeat split; vm_compute; reflexivity || discriminate. Qed.

Lemma generate_cdump_cutoff_witness :
  generate_cdump_rows
    (RT := sample_runtime [earlier_record; boundary_record; later_record] [])
    [sample_line earlier_record; sample_line boundary_record; sample_line later_record]
    (Some "2020-05-17") =
  Stream (filter (fun fields => before_cutoff "2020-05-17" fields = true)
            [ sample_fields "/books/OL2M" "2020-05-16T23:59:59";
              sample_fields "/books/OL1M" "2020-05-17T10:00:00";
              sample_fields "/books/OL3M" "2020-05-18T00:00:00" ]) None.
Proof.
  refine (proj1 (proj2 (proj2 (generate_cdump_cutoff
    (RT := sample_runtime [earlier_record; boundary_record; later_record] [])
    [sample_line earlier_record; sample_line boundary_record; sample_line later_record]
    "2020-05-17" _ None _ _))) eq_refl); [discriminate | vm_compute; reflexivity].
Defined.

(** Why the rows of the run without a cutoff only begin the others: a
    record of a later day without [revision] ends the run without a cutoff,
    and is dropped by the cutoff before its revision is read. *)
Example generate_cdump_goes_further :
  generate_cdump_rows (RT := sample_runtime [unrevised_record; earlier_record] [])
    [sample_line unrevised_record; sample_line earlier_record] None =
  Stream [] (Some KeyError) /\
  generate_cdump_rows (RT := sample_runtime [unrevised_record; earlier_record] [])
    [sample_line unrevised_record; sample_line earlier_record] (Some "2020-05-17") =
  Stream [sample_fields "/books/OL2M" "2020-05-16T23:59:59"] None.
Proof. split; vm_compute; reflexivity. Qed.

(** The day before the cutoff is printed, the day after is not. *)
Example generate_cdump_three_days :
  generate_cdump_rows
    (RT := sample_runtime [earlier_record; boundary_record; later_record] [])
    [sample_line earlier_record; sample_line boundary_record; sample_line later_record]
    (Some "2020-05-17") =
  Stream [ sample_fields "/books/OL2M" "2020-05-16T23:59:59";
           sample_fields "/books/OL1M" "2020-05-17T10:00:00" ] None.
Proof. vm_compute. reflexivity. Qed.

(** The comparison of the comment in [generate_cdump]. *)
Example cdump_comment_example :
  String.ltb "2010-05-17T10:20:30" "2010-05-17" = false /\
  String.ltb "2010-05-17T10:20:30" "2010-05-17Z" = true.
Proof. split; reflexivity. Qed.

(** The test on [/b/] sees the rewritten key: a raw record under [/b/] is
    printed, under [/books/]. *)
Example print_dump_legacy_book_key :
  print_dump_rows (RT := sample_runtime [sample_record "/b/OL1M" "2020-01-01 00:00:00"] [])
    (Stream [sample_dumps (sample_record "/b/OL1M" "2020-01-01 00:00:00")] None) None =
  Stream [sample_fields "/books/OL1M" "2020-01-01T00:00:00"] None.
Proof. vm_compute. reflexivity. Qed.

Lemma print_dump_hides_keys_witness :
  items (print_dump_rows (RT := sample_runtime [sample_record "/people/foo" "2020-01-01T00:00:00"] [])
           (Stream [sample_dumps (sample_record "/people/foo" "2020-01-01T00:00:00")] None)
           None) = [] /\
  items (print_dump_rows (RT := sample_runtime [sample_record "/admin/x" "2020-01-01T00:00:00"] [])
           (Stream [sample_dumps (sample_record "/admin/x" "2020-01-01T00:00:00")] None)
           None) = [].
Proof.
  split.
  - refine (proj2 (proj2 (proj2 (proj2
      (print_dump_hides_keys
         (RT := sample_runtime [sample_record "/people/foo" "2020-01-01T00:00:00"] [])
         (Stream [] None) None)))) _ _ _ _); vm_compute; reflexivity.
  - refine (proj2 (proj1 (proj2 (proj2 (proj2
      (print_dump_hides_keys
         (RT := sample_runtime [sample_record "/admin/x" "2020-01-01T00:00:00"] [])
         (Stream [] None) None)))) _ _ "/admin/x" _ _ _)); vm_compute; reflexivity.
Defined.

Lemma user_records_not_printed_witness :
  items (print_dump (RT := sample_runtime [sample_record "/user/alice" "2020-01-01T00:00:00"] [])
           (Stream [sample_dumps (sample_record "/user/alice" "2020-01-01T00:00:00")] None)
           None) = [].
Proof.
  refine (proj1 (proj2
    (user_records_not_printed
       (RT := sample_runtime [sample_record "/user/alice" "2020-01-01T00:00:00"] [])
       None _ "alice" _ _ _)));
    vm_compute; reflexivity.
Defined.

(** ** Bucket sort *)

Section SortProperties.

Context `{RT : Runtime}.

Lemma findex_of_lt (key : string) : findex_of key < bucket_count.
Proof.
  unfold findex_of, bucket_count.
  pose proof (Z.mod_pos_bound (py_hash key) 256 eq_refl). lia.
Qed.

Lemma split_input_step (files : list (list string)) (line : string) (rest : list string)
    (key revision : string) :
  line_key_revision line = Some (key, revision) ->
  split_input files (line :: rest) =
  split_input (alter (fun f => f ++ [line]) (findex_of key) files) rest.
Proof.
  unfold line_key_revision. cbn [split_input].
  destruct (split_on TAB (strip bytes_isspace line)) as [|? [|? [|? [|? [|? [|? ?]]]]]];
    try discriminate.
  now intros [= -> ->].
Qed.

Lemma bucket_of_key (line key revision : string) :
  line_key_revision line = Some (key, revision) -> bucket_of line = Some (findex_of key).
Proof. unfold bucket_of, line_key. now intros ->. Qed.

(** Each bucket receives, in input order, the lines that hash to it. *)
Lemma split_input_buckets (stdin : list string) :
  forall files : list (list string),
    Forall (fun line => is_Some (line_key_revision line)) stdin ->
    exists files',
      split_input files stdin = (files', None) /\
      length files' = length files /\
      forall i, files' !! i =
                (fun f => f ++ filter (fun line => bucket_of line = Some i) stdin) <$> files !! i.
Proof.
  induction stdin as [|line rest IH]; intros files Hall.
  - exists files. repeat split. intros i. cbn.
    destruct (files !! i); cbn; [now rewrite app_nil_r | reflexivity].
  - apply Forall_cons_1 in Hall as [[[key revision] Hline] Hrest].
    rewrite (split_input_step _ _ _ _ _ Hline).
    destruct (IH (alter (fun f => f ++ [line]) (findex_of key) files) Hrest)
      as (files' & Hrun & Hlen & Hbuckets).
    exists files'. split; [assumption|]. split; [now rewrite Hlen, length_alter|].
    intros i. rewrite Hbuckets, filter_cons, (bucket_of_key _ _ _ Hline).
    destruct (decide (findex_of key = i)) as [<-|Hne].
    + rewrite list_lookup_alter. rewrite !decide_True by reflexivity.
      destruct (files !! findex_of key); cbn; [|reflexivity].
      now rewrite <- app_assoc.
    + rewrite list_lookup_alter_ne by assumption.
      rewrite decide_False by congruence. reflexivity.
Qed.

Lemma concat_alter_snoc {A} (x : A) (i : nat) (files : list (list A)) :
  i < length files ->
  concat (alter (fun f => f ++ [x]) i files) ≡ₚ x :: concat files.
Proof.
  revert i. induction files as [|f files IH]; intros i Hi; cbn in Hi; [lia|].
  destruct i as [|i]; cbn.
  - rewrite <- app_assoc. cbn. now rewrite <- Permutation_middle.
  - rewrite IH by lia. now rewrite Permutation_middle.
Qed.

(** Nothing is lost and nothing is written twice. *)
Lemma split_input_permutation (stdin : list string) :
  forall files files' : list (list string),
    length files = bucket_count ->
    split_input files stdin = (files', None) ->
    concat files' ≡ₚ concat files ++ stdin.
Proof.
  induction stdin as [|line rest IH]; intros files files' Hlen Hrun.
  - injection Hrun as <-. now rewrite app_nil_r.
  - destruct (line_key_revision line) as [[key revision]|] eqn:Hline.
    + rewrite (split_input_step _ _ _ _ _ Hline) in Hrun.
      apply IH in Hrun; [|now rewrite length_alter].
      rewrite Hrun, concat_alter_snoc by (rewrite Hlen; apply findex_of_lt).
      cbn. apply Permutation_middle.
    + unfold line_key_revision in Hline. cbn [split_input] in Hrun.
      destruct (split_on TAB (strip bytes_isspace line)) as [|? [|? [|? [|? [|? [|? ?]]]]]];
        discriminate.
Qed.

Lemma bucket_of_hash_bucket (line : string) (i : nat) :
  bucket_of line = Some i <-> hash_bucket line = Some (Z.of_nat i).
Proof.
  unfold bucket_of, hash_bucket, findex_of.
  destruct (line_key line) as [key|]; cbn; [|split; discriminate].
  pose proof (Z.mod_pos_bound (py_hash key) 256 ltac:(lia)).
  split; intros [= H0]; f_equal; lia.
Qed.

(** C5: when every input line has five fields, the split completes; bucket
    [i] of the 256 then holds exactly the input lines with
    [hash(key) mod 256 = i], in input order, so the bucket files together
    are a rearrangement of the input (lines, hence key and revision pairs),
    and two lines with one key are never in different buckets. *)
Theorem split_input_partition (stdin : list string) :
  Forall (fun line => is_Some (line_key_revision line)) stdin ->
  exists files,
    split_input (replicate bucket_count []) stdin = (files, None) /\
    length files = 256 /\
    (forall i, i < 256 ->
       files !! i = Some (filter (fun line => hash_bucket line = Some (Z.of_nat i)) stdin)) /\
    concat files ≡ₚ stdin /\
    line_key_revision <$> concat files ≡ₚ line_key_revision <$> stdin /\
    (forall i j f g line line',
       files !! i = Some f -> files !! j = Some g ->
       line ∈ f -> line' ∈ g -> line_key line = line_key line' -> i = j).
Proof.
  intros Hall.
  destruct (split_input_buckets stdin (replicate bucket_count []) Hall)
    as (files & Hrun & Hlen & Hbuckets).
  rewrite length_replicate in Hlen.
  assert (Hi : forall i, i < bucket_count ->
             files !! i = Some (filter (fun line => bucket_of line = Some i) stdin)).
  { intros i Hlt. rewrite Hbuckets, lookup_replicate_2 by assumption. reflexivity. }
  assert (Hperm : concat files ≡ₚ stdin).
  { rewrite (split_input_permutation stdin _ files (length_replicate _ _) Hrun).
    clear. induction bucket_count as [|n IHn]; [reflexivity|]. exact IHn. }
  exists files. split; [assumption|]. split; [assumption|]. split.
  { intros i Hlt. rewrite Hi by assumption. f_equal.
    apply list_filter_iff. intros line. apply bucket_of_hash_bucket. }
  repeat split; try assumption.
  - now rewrite Hperm.
  - intros i j f g line line' Hf Hg Hin Hin' Hkey.
    rewrite Hi in Hf by (apply lookup_lt_Some in Hf; lia).
    rewrite Hi in Hg by (apply lookup_lt_Some in Hg; lia).
    injection Hf as <-. injection Hg as <-.
    apply list_elem_of_filter in Hin as [Hb _].
    apply list_elem_of_filter in Hin' as [Hb' _].
    unfold bucket_of in *. rewrite Hkey in Hb. congruence.
Qed.


Lemma sort_buckets_cons (buffer_size fname : string) (rest : list string) :
  sort_buckets buffer_size (fname :: rest) =
  let cmd := sort_command buffer_size fname in
  if negb (os_system cmd =? 0)%Z then ([cmd], Some (sort_failure (os_system cmd)))
  else (cmd :: (sort_buckets buffer_size rest).1, (sort_buckets buffer_size rest).2).
Proof.
  cbn [sort_buckets]. cbv zeta.
  destruct (negb (os_system (sort_command buffer_size fname) =? 0)%Z); [reflexivity|].
  now destruct (sort_buckets buffer_size rest).
Qed.


Lemma sort_buckets_success (buffer_size : string) (fnames : list string) :
  Forall (fun fname => os_system (sort_command buffer_size fname) = 0%Z) fnames ->
  sort_buckets buffer_size fnames = (sort_command buffer_size <$> fnames, None).
Proof.
  induction 1 as [|f0 rest H0 _ IH]; [reflexivity|].
  rewrite sort_buckets_cons, IH. cbv zeta. now rewrite H0.
Qed.


End SortProperties.

(** The bucket files are named [00.txt.gz] to [ff.txt.gz]. *)
Example filenames_example :
  filenames "/tmp/oldumpsort" !! 0 = Some "/tmp/oldumpsort/00.txt.gz" /\
  filenames "/tmp/oldumpsort" !! 171 = Some "/tmp/oldumpsort/ab.txt.gz" /\
  filenames "/tmp/oldumpsort" !! 255 = Some "/tmp/oldumpsort/ff.txt.gz" /\
  length (filenames "/tmp/oldumpsort") = 256.
Proof. repeat split. Qed.

Lemma split_input_partition_witness :
  exists files,
    split_input (RT := sample_runtime [] [])
      (replicate bucket_count [])
      [ sample_dump_line "/books/OL1M" "1" "2020-05-17T10:00:00";
        sample_dump_line "/books/OL22M" "1" "2020-05-16T23:59:59";
        sample_dump_line "/books/OL1M" "2" "2020-05-18T00:00:00" ] = (files, None) /\
    files !! 11 = Some [ sample_dump_line "/books/OL1M" "1" "2020-05-17T10:00:00";
                         sample_dump_line "/books/OL1M" "2" "2020-05-18T00:00:00" ] /\
    files !! 12 = Some [ sample_dump_line "/books/OL22M" "1" "2020-05-16T23:59:59" ] /\
    files !! 0 = Some [].
Proof.
  destruct (split_input_partition (RT := sample_runtime [] [])
              [ sample_dump_line "/books/OL1M" "1" "2020-05-17T10:00:00";
                sample_dump_line "/books/OL22M" "1" "2020-05-16T23:59:59";
                sample_dump_line "/books/OL1M" "2" "2020-05-18T00:00:00" ])
    as (files & Hrun & _ & Hbucket & _).
  - repeat (apply Forall_cons_2; [vm_compute; eexists; reflexivity|]). apply Forall_nil_2.
  - exists files. split; [assumption|].
    rewrite (Hbucket 11), (Hbucket 12), (Hbucket 0) by lia.
    repeat split; vm_compute; reflexivity.
Defined.


(** A run evaluated: the third bucket fails with status
    256, three commands were run. *)
Example sort_dump_example :
  let run := sort_dump (RT := sample_runtime [] ["gzip -cd /tmp/oldumpsort/02.txt.gz | sort -S1G -k2,3"])
               [sample_dump_line "/books/OL1M" "1" "2020-05-17T10:00:00"] "/tmp/" "1G" in
  raised run = Some (Exception "sort failed with status 256") /\
  commands run = [ "gzip -cd /tmp/oldumpsort/00.txt.gz | sort -S1G -k2,3";
                   "gzip -cd /tmp/oldumpsort/01.txt.gz | sort -S1G -k2,3";
                   "gzip -cd /tmp/oldumpsort/02.txt.gz | sort -S1G -k2,3" ].
Proof. vm_compute. split; reflexivity. Qed.

(** ** Revision collapse *)

Lemma key_grouped_tail (k : string) (keys : list string) :
  key_grouped (k :: keys) -> key_grouped keys.
Proof.
  intros H i j l a b Hlt Hi Hl Hj.
  apply (H (S i) (S j) (S l) a b); [lia | assumption..].
Qed.

Lemma key_grouped_next (k k' : string) (keys : list string) :
  key_grouped (k :: k' :: keys) -> k' <> k -> k ∉ k' :: keys.
Proof.
  intros H Hne Hin. apply list_elem_of_lookup in Hin as [l Hl].
  destruct l as [|l]; [cbn in Hl; congruence|].
  apply Hne, (H 0 1 (S (S l)) k k'); [lia | reflexivity | exact Hl | reflexivity].
Qed.

Lemma filter_all {A} (P : A -> Prop) `{forall x, Decision (P x)} (l : list A) :
  Forall P l -> filter P l = l.
Proof.
  induction 1 as [|x l Hx _ IH]; [reflexivity|].
  rewrite filter_cons, decide_True by assumption. now rewrite IH.
Qed.

Lemma filter_twice {A} (P : A -> Prop) `{forall x, Decision (P x)} (l : list A) :
  filter P (filter P l) = filter P l.
Proof.
  apply filter_all, Forall_forall. intros x Hx. now apply list_elem_of_filter in Hx.
Qed.

Lemma elem_of_distinct (k : string) (keys : list string) : k ∈ distinct keys <-> k ∈ keys.
Proof.
  induction keys as [|k0 keys IH]; [reflexivity|]. cbn [distinct].
  rewrite !elem_of_cons, list_elem_of_filter, IH.
  destruct (decide (k = k0)); tauto.
Qed.

Lemma NoDup_distinct (keys : list string) : NoDup (distinct keys).
Proof.
  induction keys as [|k keys IH]; cbn [distinct]; constructor.
  - rewrite list_elem_of_filter. tauto.
  - now apply NoDup_filter.
Qed.

Lemma distinct_repeat (k : string) (keys : list string) :
  distinct (k :: k :: keys) = distinct (k :: keys).
Proof.
  cbn [distinct]. rewrite filter_cons, decide_False by tauto. now rewrite filter_twice.
Qed.

Lemma distinct_fresh (k : string) (keys : list string) :
  k ∉ keys -> distinct (k :: keys) = k :: distinct keys.
Proof.
  intros Hk. cbn [distinct]. f_equal. apply filter_all, Forall_forall.
  intros x Hx Heq. subst x. apply Hk, elem_of_distinct, Hx.
Qed.

Lemma mapM_cons_inv {A B} (f : A -> result B) (x : A) (l : list A) (ys : list B) :
  mapM f (x :: l) = OK ys ->
  exists y ys', f x = OK y /\ mapM f l = OK ys' /\ ys = y :: ys'.
Proof.
  cbn [mapM]. intros H. inv_bind_as H y Hy. inv_bind_as H ys' Hys. injection H as <-. eauto.
Qed.

Lemma mapM_elem_of {A B} (f : A -> result B) (l : list A) (ys : list B) (x : A) :
  mapM f l = OK ys -> x ∈ l -> exists y, f x = OK y /\ y ∈ ys.
Proof.
  intros H Hx. apply list_elem_of_lookup in Hx as [i Hi].
  destruct (mapM_lookup _ _ _ _ _ H Hi) as (y & Hy & Hxy).
  exists y. split; [assumption|]. apply list_elem_of_lookup. eauto.
Qed.

Section CollapseProperties.

Context `{RT : Runtime}.

Lemma key_of_elem_of (data : list (list string)) (keys : list string)
    (r : list string) (k : string) :
  mapM key_of data = OK keys -> r ∈ data -> key_of r = OK k -> k ∈ keys.
Proof.
  intros Hkeys Hr Hk. destruct (mapM_elem_of _ _ _ _ Hkeys Hr) as (k' & Hk' & Hin).
  congruence.
Qed.

Lemma process_group_spec (data : list (list string)) :
  forall (keys : list string) (revs : list Z) (k : string) (best : list string) (top : Z),
    mapM key_of data = OK keys ->
    mapM revision data = OK revs ->
    key_grouped (k :: keys) ->
    key_of best = OK k ->
    revision best = OK top ->
    exists out,
      process_group k best top data = (out, None) /\
      mapM key_of out = OK (distinct (k :: keys)) /\
      Forall (fun o => o ∈ best :: data /\ newest_in (best :: data) o) out.
Proof.
  induction data as [|cols rest IH]; intros keys revs k best top Hkeys Hrevs Hg Hk Htop.
  - injection Hkeys as <-. exists [best]. cbn [process_group mapM].
    rewrite Hk. repeat split. constructor; [|constructor].
    split; [constructor|]. exists k, top. repeat split; try assumption.
    intros r vr Hr _ Hvr. apply list_elem_of_singleton in Hr as ->.
    assert (vr = top) as -> by congruence. lia.
  - apply mapM_cons_inv in Hkeys as (k' & keys' & Hk' & Hkeys' & ->).
    apply mapM_cons_inv in Hrevs as (v & revs' & Hv & Hrevs' & ->).
    cbn [process_group]. rewrite Hk', Hv.
    destruct (String.eqb_spec k' k) as [->|Hne].
    + (* the group goes on *)
      pose proof (key_grouped_tail _ _ Hg) as Hg'.
      rewrite distinct_repeat.
      destruct (Z.ltb_spec top v) as [Hlt|Hge].
      * destruct (IH keys' revs' k cols v Hkeys' Hrevs' Hg' Hk' Hv)
          as (out & Hrun & Hout & Hall).
        exists out. repeat split; try assumption.
        eapply Forall_impl; [exact Hall|]. intros o [Ho (ko & vo & Hko & Hvo & Hmax)].
        split; [now constructor|]. exists ko, vo. repeat split; try assumption.
        intros r vr Hr Hrk Hrv. apply elem_of_cons in Hr as [->|Hr]; [|now eauto].
        assert (vr = top) as -> by congruence.
        assert (v <= vo)%Z by (apply (Hmax cols); [constructor | congruence | assumption]).
        lia.
      * destruct (IH keys' revs' k best top Hkeys' Hrevs' Hg' Hk Htop)
          as (out & Hrun & Hout & Hall).
        exists out. repeat split; try assumption.
        eapply Forall_impl; [exact Hall|]. intros o [Ho (ko & vo & Hko & Hvo & Hmax)].
        split.
        { apply elem_of_cons in Ho as [->|Ho]; [constructor | now do 2 constructor]. }
        exists ko, vo. repeat split; try assumption.
        intros r vr Hr Hrk Hrv.
        apply elem_of_cons in Hr as [->|Hr]; [apply (Hmax best); now try constructor|].
        apply elem_of_cons in Hr as [->|Hr]; [|apply (Hmax r); now try constructor].
        assert (vr = v) as -> by congruence.
        assert (top <= vo)%Z by (apply (Hmax best); [constructor | congruence | assumption]).
        lia.
    + (* a new group starts: the best row of the old one is yielded *)
      pose proof (key_grouped_tail _ _ Hg) as Hg'.
      assert (Hfresh : k ∉ k' :: keys') by (apply key_grouped_next; auto).
      destruct (IH keys' revs' k' cols v Hkeys' Hrevs' Hg' Hk' Hv)
        as (out & Hrun & Hout & Hall).
      rewrite Hrun. exists (best :: out). split; [reflexivity|].
      assert (Hdata : forall r kr, r ∈ cols :: rest -> key_of r = OK kr -> kr ∈ k' :: keys').
      { intros r kr Hr Hkr. apply elem_of_cons in Hr as [->|Hr].
        - assert (kr = k') as -> by congruence. constructor.
        - constructor. eapply key_of_elem_of; eassumption. }
      split; [|constructor].
      * cbn [mapM]. rewrite Hk. cbn [mbind result_bind]. rewrite Hout.
        cbn [mbind result_bind mret result_ret].
        rewrite (distinct_fresh k) by assumption. reflexivity.
      * split; [constructor|]. exists k, top. repeat split; try assumption.
        intros r vr Hr Hrk Hrv. apply elem_of_cons in Hr as [->|Hr].
        -- assert (vr = top) as -> by congruence. lia.
        -- exfalso. apply Hfresh. eauto.
      * eapply Forall_impl; [exact Hall|]. intros o [Ho (ko & vo & Hko & Hvo & Hmax)].
        split; [now constructor|]. exists ko, vo. repeat split; try assumption.
        intros r vr Hr Hrk Hrv. apply elem_of_cons in Hr as [->|Hr]; [|now eauto].
        exfalso. apply Hfresh. assert (ko = k) as <- by congruence. eauto.
Qed.

(** The second column and the integer in the third, as the two functions of
    [process] take them. *)
Lemma key_of_row_key (cols : list string) (k : string) :
  key_of cols = OK k <-> row_key cols = Some k.
Proof.
  unfold key_of, row_key. destruct (cols !! 1); split; intros [=]; congruence.
Qed.

Lemma revision_row_revision (cols : list string) (v : Z) :
  revision cols = OK v <-> row_revision cols = Some v.
Proof.
  unfold revision, row_revision. destruct (cols !! 2) as [r|]; [|split; discriminate].
  destruct (py_int r); split; intros [=]; congruence.
Qed.

Lemma mapM_key_of (data : list (list string)) :
  forall keys, mapM key_of data = OK keys <-> row_key <$> data = Some <$> keys.
Proof.
  induction data as [|cols data IH]; intros keys.
  - cbn. split; [intros [= <-]; reflexivity|]. destruct keys; [reflexivity | discriminate].
  - split.
    + intros H. apply mapM_cons_inv in H as (k & ks & Hk & Hks & ->).
      cbn. f_equal; [now apply key_of_row_key | now apply IH].
    + destruct keys as [|k ks]; [discriminate|]. cbn. intros [= Hk Hks].
      apply key_of_row_key in Hk. apply IH in Hks. cbn [mapM]. now rewrite Hk, Hks.
Qed.

Lemma mapM_revision (data : list (list string)) :
  forall revs, mapM revision data = OK revs <-> row_revision <$> data = Some <$> revs.
Proof.
  induction data as [|cols data IH]; intros revs.
  - cbn. split; [intros [= <-]; reflexivity|]. destruct revs; [reflexivity | discriminate].
  - split.
    + intros H. apply mapM_cons_inv in H as (v & vs & Hv & Hvs & ->).
      cbn. f_equal; [now apply revision_row_revision | now apply IH].
    + destruct revs as [|v vs]; [discriminate|]. cbn. intros [= Hv Hvs].
      apply revision_row_revision in Hv. apply IH in Hvs. cbn [mapM]. now rewrite Hv, Hvs.
Qed.

Lemma newest_in_greatest_in (data : list (list string)) (o : list string) :
  o ∈ data -> newest_in data o -> greatest_in data o.
Proof.
  intros Ho (k & v & Hk & Hv & Hmax). split; [assumption|]. exists k, v.
  split; [now apply key_of_row_key|]. split; [now apply revision_row_revision|].
  intros r vr Hr Hrk Hrv. apply (Hmax r); [assumption | |].
  - now apply key_of_row_key.
  - now apply revision_row_revision.
Qed.

(** C4: on rows that all have a key in the second column and an integer
    revision in the third, and that are grouped by key, [generate_dump]
    writes one row of the input per distinct key, in the order the keys are
    first met, and the row written for a key is a row of that key whose
    revision no row of the key exceeds. *)
Theorem generate_dump_collapses (cdump_file : list string) (keys : list string)
    (revs : list Z) :
  row_key <$> read_tsv cdump_file false = Some <$> keys ->
  row_revision <$> read_tsv cdump_file false = Some <$> revs ->
  key_grouped keys ->
  exists out,
    generate_dump cdump_file = Stream (tjoin <$> out) None /\
    row_key <$> out = Some <$> distinct keys /\
    NoDup (distinct keys) /\
    (forall k, k ∈ distinct keys <-> k ∈ keys) /\
    Forall (greatest_in (read_tsv cdump_file false)) out.
Proof.
  unfold generate_dump. generalize (read_tsv cdump_file false). clear cdump_file.
  intros data Hkeys Hrevs Hg.
  apply mapM_key_of in Hkeys. apply mapM_revision in Hrevs.
  destruct data as [|cols rest].
  - injection Hkeys as <-. exists []. repeat split; try constructor.
    + intros Hk. exact Hk.
    + intros Hk. exact Hk.
  - apply mapM_cons_inv in Hkeys as (k & keys' & Hk & Hkeys' & ->).
    apply mapM_cons_inv in Hrevs as (v & revs' & Hv & Hrevs' & ->).
    destruct (process_group_spec rest keys' revs' k cols v Hkeys' Hrevs' Hg Hk Hv)
      as (out & Hrun & Hout & Hall).
    exists out. cbn [process]. rewrite Hk, Hv, Hrun.
    split; [reflexivity|]. split; [now apply mapM_key_of|].
    split; [apply NoDup_distinct|]. split; [intros k0; apply elem_of_distinct|].
    eapply Forall_impl; [exact Hall|]. intros o [Ho Hnew].
    now apply newest_in_greatest_in.
Qed.

End CollapseProperties.

Example generate_dump_example :
  generate_dump (RT := sample_runtime [] []) small_cdump =
  Stream [ sample_dump_line "/books/OL1M" "2" "2020-05-17T10:00:00";
           sample_dump_line "/books/OL2M" "3" "2020-05-18T00:00:00" ] None.
Proof. vm_compute. reflexivity. Qed.

Lemma key_grouped_small :
  key_grouped ["/books/OL1M"; "/books/OL1M"; "/books/OL2M"; "/books/OL2M"].
Proof.
  intros i j l k k' Hlt Hi Hl Hj.
  destruct i as [|[|[|[|i]]]]; try discriminate;
    destruct l as [|[|[|[|l]]]]; try discriminate; try lia;
    destruct j as [|[|[|[|j]]]]; try discriminate; try lia;
    cbn in Hi, Hl, Hj; congruence.
Qed.

(** The rows of the small dump. *)
Lemma read_tsv_small_cdump :
  read_tsv small_cdump false =
  [ split_on TAB (sample_dump_line "/books/OL1M" "1" "2020-05-16T23:59:59");
    split_on TAB (sample_dump_line "/books/OL1M" "2" "2020-05-17T10:00:00");
    split_on TAB (sample_dump_line "/books/OL2M" "3" "2020-05-18T00:00:00");
    split_on TAB (sample_dump_line "/books/OL2M" "3" "2020-05-19T00:00:00") ].
Proof. reflexivity. Qed.

Lemma generate_dump_collapses_witness :
  exists out,
    generate_dump (RT := sample_runtime [] []) small_cdump = Stream (tjoin <$> out) None /\
    row_key <$> out = [Some "/books/OL1M"; Some "/books/OL2M"] /\
    row_revision (RT := sample_runtime [] []) <$> out = [Some 2%Z; Some 3%Z].
Proof.
  destruct (generate_dump_collapses (RT := sample_runtime [] []) small_cdump
              ["/books/OL1M"; "/books/OL1M"; "/books/OL2M"; "/books/OL2M"]
              [1; 2; 3; 3]%Z)
    as (out & Hrun & Hkeys & _ & _ & Hall).
  - vm_compute. reflexivity.
  - vm_compute. reflexivity.
  - exact key_grouped_small.
  - exists out. split; [assumption|]. split; [exact Hkeys|].
    rewrite read_tsv_small_cdump in Hall.
    destruct out as [|o1 [|o2 [|o3 out]]]; try discriminate Hkeys.
    injection Hkeys as Hk1 Hk2.
    apply Forall_cons_1 in Hall as [[Hin1 (k1 & v1 & Hk1' & Hv1 & Hmax1)] Hall].
    apply Forall_cons_1 in Hall as [[Hin2 (k2 & v2 & Hk2' & Hv2 & Hmax2)] _].
    assert (k1 = "/books/OL1M") as -> by congruence.
    assert (k2 = "/books/OL2M") as -> by congruence.
    assert (Hle1 : (2 <= v1)%Z).
    { apply (Hmax1 (split_on TAB (sample_dump_line "/books/OL1M" "2" "2020-05-17T10:00:00")));
        [apply list_elem_of_further, list_elem_of_here
        | vm_compute; reflexivity | vm_compute; reflexivity]. }
    assert (Hle2 : (3 <= v2)%Z).
    { apply (Hmax2 (split_on TAB (sample_dump_line "/books/OL2M" "3" "2020-05-18T00:00:00")));
        [do 2 apply list_elem_of_further; apply list_elem_of_here
        | vm_compute; reflexivity | vm_compute; reflexivity]. }
    cbn [fmap list_fmap]. rewrite Hv1, Hv2.
    rewrite !elem_of_cons, elem_of_nil in Hin1, Hin2.
    destruct Hin1 as [->|[->|[->|[->|[]]]]];
      vm_compute in Hk1; try discriminate Hk1;
      vm_compute in Hv1; injection Hv1 as <-; try lia.
    destruct Hin2 as [->|[->|[->|[->|[]]]]];
      vm_compute in Hk2; try discriminate Hk2;
      vm_compute in Hv2; injection Hv2 as <-; reflexivity.
Defined.

(** Without the grouping the collapse writes a key once per run of it. *)
Example generate_dump_ungrouped :
  generate_dump (RT := sample_runtime [] [])
    [ sample_dump_line "/books/OL1M" "2" "2020-05-17T10:00:00";
      sample_dump_line "/books/OL2M" "3" "2020-05-18T00:00:00";
      sample_dump_line "/books/OL1M" "1" "2020-05-16T23:59:59" ] =
  Stream [ sample_dump_line "/books/OL1M" "2" "2020-05-17T10:00:00";
           sample_dump_line "/books/OL2M" "3" "2020-05-18T00:00:00";
           sample_dump_line "/books/OL1M" "1" "2020-05-16T23:59:59" ] None.
Proof. vm_compute. reflexivity. Qed.

(** * Further properties *)

(** ** Text codec *)

Lemma contains_char_app (a : ascii) (s t : string) :
  contains_char a (String.append s t) = contains_char a s || contains_char a t.
Proof.
  induction s as [|c s IH]; [reflexivity|].
  rewrite append_String. cbn [contains_char]. rewrite IH. now rewrite orb_assoc.
Qed.

Lemma escaped_plain (c : ascii) :
  contains_char LF (escaped c) = false /\
  contains_char CR (escaped c) = false /\
  contains_char TAB (escaped c) = false.
Proof.
  unfold escaped.
  destruct (Ascii.eqb_spec c LF) as [->|HLF]; [repeat split|].
  destruct (Ascii.eqb_spec c CR) as [->|HCR]; [repeat split|].
  destruct (Ascii.eqb_spec c TAB) as [->|HTAB]; [repeat split|].
  destruct (Ascii.eqb c BSLASH); [repeat split|].
  unfold chr. cbn [contains_char]. rewrite !orb_false_r.
  repeat split; apply Ascii.eqb_neq; assumption.
Qed.

(** X1: text encoded by [_pgencode] holds no newline, carriage return or tab,
    so an encoded record stays on one line and in one column. *)
Theorem pgencode_single_line (s : string) :
  exists t,
    _pgencode (Some s) = Some t /\
    contains_char LF t = false /\ contains_char CR t = false /\
    contains_char TAB t = false.
Proof.
  exists (escape s). split.
  - destruct s as [|c s]; [reflexivity|]. unfold _pgencode.
    change (_make_sub ?d (Some (String c s))) with (Some (rx_sub d 0 (String c s))).
    now rewrite rx_sub_encode.
  - induction s as [|c s (IH1 & IH2 & IH3)]; [repeat split|].
    cbn [escape]. rewrite !contains_char_app, IH1, IH2, IH3.
    destruct (escaped_plain c) as (-> & -> & ->). repeat split.
Qed.

Lemma unescape_cons (a c : ascii) (s : string) :
  unescape (String a (String c s)) =
  match (if Ascii.eqb a BSLASH then unescaped c else None) with
  | Some x => String x (unescape s)
  | None => String a (unescape (String c s))
  end.
Proof. reflexivity. Qed.

Lemma unescape_plain (s : string) :
  contains_char BSLASH s = false -> unescape s = s.
Proof.
  induction s as [|a|a c s IHs IHc] using string_ind2; try reflexivity.
  cbn [contains_char]. intros H. apply orb_false_elim in H as [Ha Hc].
  rewrite unescape_cons, Ha. f_equal. apply IHc. exact Hc.
Qed.

Lemma unescape_length (s : string) : String.length (unescape s) <= String.length s.
Proof.
  induction s as [|a|a c s IHs IHc] using string_ind2.
  - reflexivity.
  - reflexivity.
  - rewrite unescape_cons.
    destruct (if Ascii.eqb a BSLASH then unescaped c else None).
    + change (S (String.length (unescape s)) <= S (S (String.length s))). lia.
    + change (S (String.length (unescape (String c s))) <= S (String.length (String c s))).
      lia.
Qed.

(** X2: [pgdecode] returns text without a backslash as it is, and never
    returns a text longer than the one it was given. *)
Theorem pgdecode_plain (s : string) :
  (contains_char BSLASH s = false -> pgdecode (Some s) = Some s) /\
  exists t, pgdecode (Some s) = Some t /\ String.length t <= String.length s.
Proof.
  assert (E : pgdecode (Some s) = Some (unescape s)).
  { destruct s as [|c t]; [reflexivity|]. unfold pgdecode, _pgdecode.
    change (_make_sub ?d (Some (String c t))) with (Some (rx_sub d 0 (String c t))).
    now rewrite rx_sub_decode. }
  split.
  - intros H. now rewrite E, unescape_plain.
  - exists (unescape s). split; [assumption | apply unescape_length].
Qed.

Lemma pgdecode_plain_witness : pgdecode (Some "{}") = Some "{}".
Proof.
  apply (proj1 (pgdecode_plain "{}")). reflexivity.
Defined.

(** ** Key normalisation *)

(** X3: [_process_key] turns each legacy prefix into its long form and keeps
    what follows it, leaves a key without a legacy prefix as it is, and never
    returns a key that starts with a legacy prefix. *)
Theorem process_key_no_legacy (s : string) :
  (exists t, _process_key (JStr s) = OK (JStr t) /\
             startswith_any t legacy_prefixes = false /\
             (startswith_any s legacy_prefixes = false -> t = s)) /\
  _process_key (JStr (String.append "/l/" s)) = OK (JStr (String.append "/languages/" s)) /\
  _process_key (JStr (String.append "/a/" s)) = OK (JStr (String.append "/authors/" s)) /\
  _process_key (JStr (String.append "/b/" s)) = OK (JStr (String.append "/books/" s)) /\
  _process_key (JStr (String.append "/user/" s)) = OK (JStr (String.append "/people/" s)).
Proof.
  split; [|repeat split].
  exists (rewrite_prefix (group2 mapping) s). split; [reflexivity|].
  unfold startswith_any, legacy_prefixes. cbn -[startswith].
  destruct (startswith s "/l/") eqn:E1; [split; [reflexivity | discriminate]|].
  destruct (startswith s "/a/") eqn:E2; [split; [reflexivity | discriminate]|].
  destruct (startswith s "/b/") eqn:E3; [split; [reflexivity | discriminate]|].
  destruct (startswith s "/user/") eqn:E4; [split; [reflexivity | discriminate]|].
  rewrite E1, E2, E3, E4. split; reflexivity.
Qed.

Lemma process_key_no_legacy_witness :
  _process_key (JStr "/works/OL1W") = OK (JStr "/works/OL1W").
Proof.
  destruct (proj1 (process_key_no_legacy "/works/OL1W")) as (t & Ht & _ & Hsame).
  rewrite Ht, Hsame; reflexivity.
Defined.

(** ** Record normalisation *)

(** A dictionary inside a record is normalised like a record of its own. *)
Lemma _process_data_at_path (p : list step) :
  forall (d r : json) (m : list (string * json)),
    _process_data d = OK r ->
    lookup_path p d = Some (JDict m) ->
    exists y, lookup_path p r = Some y /\ _process_data (JDict m) = OK y.
Proof.
  induction p as [|[k|i] p IH]; intros d r m H Hp.
  - injection Hp as ->. exists r. split; [reflexivity | assumption].
  - destruct d as [| | | | | |m0]; try discriminate.
    cbn [lookup_path] in Hp. destruct (dict_get k m0) as [x|] eqn:Hx; [|discriminate].
    cbn in Hp. rewrite _process_data_dict in H.
    inv_bind_as H d1 Hd1. inv_bind_as H d2 Hd2. inv_bind_as H d' Hd'. injection H as <-.
    assert (Hx2 : dict_get k d2 = Some x).
    { destruct (rewrite_key_get k x _ _ Hd1 Hx) as [Hx1|[s ->]];
        [|now apply lookup_path_text in Hp].
      destruct (rewrite_datetime_get k x _ _ Hd2 Hx1) as [?|[s ->]];
        [assumption | now apply lookup_path_text in Hp]. }
    pose proof (dict_get_mapM _ k _ _ Hd') as Hg. rewrite Hx2 in Hg.
    destruct Hg as (y & Hy & Hgy).
    destruct (IH x y m Hy Hp) as (z & Hz & Hm).
    exists z. split; [|assumption]. cbn [lookup_path]. rewrite Hgy. exact Hz.
  - destruct d as [| | | | |l|]; try discriminate.
    cbn [lookup_path] in Hp. destruct (l !! i) as [x|] eqn:Hx; [|discriminate].
    cbn in Hp. rewrite _process_data_list in H. inv_bind_as H l' Hl'. injection H as <-.
    destruct (mapM_lookup _ _ _ _ _ Hl' Hx) as (y & Hy & Hxy).
    destruct (IH x y m Hxy Hp) as (z & Hz & Hm).
    exists z. split; [|assumption]. cbn [lookup_path]. rewrite Hy. exact Hz.
Qed.

Lemma rewrite_datetime_key (d d2 : list (string * json)) :
  rewrite_datetime d = OK d2 -> dict_get "key" d2 = dict_get "key" d.
Proof.
  intros H. apply rewrite_datetime_inv in H as [[_ ->]|(_ & s & _ & ->)]; [reflexivity|].
  now rewrite dict_get_set.
Qed.

(** X4: wherever a dictionary with a text [key] sits in a record, however
    deep, the normalised record holds at the same place a dictionary whose
    [key] is the rewritten key. *)
Theorem process_data_rewrites_nested_keys (d r : json) (p : list step)
    (m : list (string * json)) (k : string) :
  _process_data d = OK r ->
  lookup_path p d = Some (JDict m) ->
  dict_get "key" m = Some (JStr k) ->
  exists m',
    lookup_path p r = Some (JDict m') /\
    dict_get "key" m' = Some (JStr (rewrite_prefix (group2 mapping) k)).
Proof.
  intros H Hp Hk.
  destruct (_process_data_at_path p d r m H Hp) as (y & Hy & Hm).
  rewrite _process_data_dict in Hm.
  inv_bind_as Hm d1 Hd1. inv_bind_as Hm d2 Hd2. inv_bind_as Hm d' Hd'. injection Hm as <-.
  exists d'. split; [assumption|].
  pose proof (dict_get_mapM _ "key" _ _ Hd') as Hg.
  rewrite (rewrite_datetime_key _ _ Hd2) in Hg.
  apply rewrite_key_inv in Hd1 as [[Hnone _]|(s & Hs & ->)]; [congruence|].
  assert (s = k) as -> by congruence.
  rewrite dict_get_set, String.eqb_refl in Hg. destruct Hg as (y & Hy' & Hgy).
  rewrite _process_data_text in Hy'. congruence.
Qed.

Lemma process_data_rewrites_nested_keys_witness :
  exists m',
    lookup_path [Key "authors"; Index 0]
      (JDict [("key", JStr "/books/OL1M");
              ("authors", JList [JDict [("key", JStr "/authors/OL2A")]])]) = Some (JDict m') /\
    dict_get "key" m' = Some (JStr "/authors/OL2A").
Proof.
  exact (process_data_rewrites_nested_keys
           (JDict [("key", JStr "/b/OL1M"); ("authors", JList [JDict [("key", JStr "/a/OL2A")]])])
           _ [Key "authors"; Index 0] _ "/a/OL2A" eq_refl eq_refl eq_refl).
Defined.

(** X6: a record normalises only if every dictionary in it, however deep,
    has a text [key] when it has one, and a text [value] when it is tagged
    as a datetime; otherwise [_process_data] raises. *)
Theorem process_data_requires_text (d r : json) (p : list step)
    (m : list (string * json)) :
  _process_data d = OK r ->
  lookup_path p d = Some (JDict m) ->
  (forall x, dict_get "key" m = Some x -> exists s, x = JStr s) /\
  (is_datetime m = true -> exists s, dict_get "value" m = Some (JStr s)).
Proof.
  intros H Hp.
  destruct (_process_data_at_path p d r m H Hp) as (y & _ & Hm).
  rewrite _process_data_dict in Hm.
  inv_bind_as Hm d1 Hd1. inv_bind_as Hm d2 Hd2. clear Hm.
  split.
  - intros x Hx. apply rewrite_key_inv in Hd1 as [[Hnone _]|(s & Hs & _)]; [congruence|].
    exists s. congruence.
  - intros Ht.
    assert (Ht1 : is_datetime d1 = true).
    { apply rewrite_key_inv in Hd1 as [[_ ->]|(s & _ & ->)]; [assumption|].
      unfold is_datetime in *. now rewrite dict_get_set. }
    assert (Hv1 : dict_get "value" d1 = dict_get "value" m).
    { apply rewrite_key_inv in Hd1 as [[_ ->]|(s & _ & ->)]; [reflexivity|].
      now rewrite dict_get_set. }
    apply rewrite_datetime_inv in Hd2 as [[Hf _]|(_ & s & Hs & _)]; [congruence|].
    exists s. congruence.
Qed.

Lemma process_data_requires_text_witness :
  exists s, dict_get "value" [("type", JStr "/type/datetime");
                              ("value", JStr "2020-01-01 00:00:00")] = Some (JStr s).
Proof.
  exact (proj2 (process_data_requires_text two_datetimes _ [Key "created"] _ eq_refl eq_refl)
           eq_refl).
Defined.

(** What goes wrong otherwise. *)
Example process_data_errors :
  _process_data (JList [JDict [("key", JInt 1)]]) = Raise AttributeError /\
  _process_data (JDict [("x", JDict [("type", JStr "/type/datetime")])]) = Raise KeyError /\
  _process_data (JDict [("type", JStr "/type/datetime"); ("value", JNull)]) =
    Raise AttributeError.
Proof. repeat split. Qed.

Lemma skeleton_dict_set (k : string) (s s' : string) (d : list (string * json)) :
  dict_get k d = Some (JStr s) ->
  skeleton (JDict (dict_set k (JStr s') d)) = skeleton (JDict d).
Proof.
  intros H. cbn [skeleton]. f_equal.
  induction d as [|[k0 v0] d IH]; [discriminate|]. cbn in H |- *.
  destruct (String.eqb_spec k0 k) as [->|].
  - injection H as ->. reflexivity.
  - cbn. now rewrite IH.
Qed.

Lemma skeleton_dict_values (d d' : list (string * json)) :
  Forall2 (fun kv kv' => kv'.1 = kv.1 /\ skeleton kv'.2 = skeleton kv.2) d d' ->
  skeleton (JDict d') = skeleton (JDict d).
Proof.
  intros H. cbn [skeleton]. f_equal.
  induction H as [|[k v] [k' v'] d d' [Hk Hv] _ IH]; [reflexivity|].
  cbn in *. subst. now rewrite Hv, IH.
Qed.

Lemma skeleton_list_values (l l' : list json) :
  Forall2 (fun x y => skeleton y = skeleton x) l l' ->
  skeleton (JList l') = skeleton (JList l).
Proof.
  intros H. cbn [skeleton]. f_equal.
  induction H as [|x y l l' Hxy _ IH]; [reflexivity|]. cbn. now rewrite Hxy, IH.
Qed.

Lemma process_data_skeleton_depth (n : nat) :
  forall d r, json_depth d <= n -> _process_data d = OK r -> skeleton r = skeleton d.
Proof.
  induction n as [|n IH]; intros d r Hd H.
  { destruct d; cbn in Hd; lia. }
  destruct d as [| | | | |l|d]; try (now injection H as <-).
  - rewrite json_depth_list in Hd. rewrite _process_data_list in H.
    inv_bind_as H l' Hl'. injection H as <-.
    apply skeleton_list_values. apply mapM_OK_Forall2 in Hl'.
    assert (Hl : Forall (fun x => json_depth x <= n) l) by (apply max_list_le_Forall; lia).
    clear Hd. induction Hl' as [|x y l l' Hxy _ IH']; constructor.
    + apply IH; [|assumption]. now inversion Hl.
    + apply IH'. now inversion Hl.
  - rewrite json_depth_dict in Hd. rewrite _process_data_dict in H.
    inv_bind_as H d1 Hd1. inv_bind_as H d2 Hd2. inv_bind_as H d' Hd'. injection H as <-.
    assert (Hdepth : Forall (fun kv => json_depth kv.2 <= n) d2).
    { apply (rewrite_datetime_Forall (fun v => json_depth v <= n) d1); [cbn; lia | assumption |].
      apply (rewrite_key_Forall (fun v => json_depth v <= n) d); [cbn; lia | assumption |].
      apply (max_list_le_Forall (fun kv : string * json => json_depth kv.2)). lia. }
    transitivity (skeleton (JDict d2)).
    + apply skeleton_dict_values. apply mapM_OK_Forall2 in Hd'.
      clear Hd Hd1 Hd2. induction Hd' as [|[k v] [k' v'] l l' Hxy _ IH']; constructor.
      * cbn [fst snd] in *. inv_bind_as Hxy y Hy. injection Hxy as <- <-.
        split; [reflexivity|]. apply IH; [|assumption]. now inversion Hdepth.
      * apply IH'. now inversion Hdepth.
    + transitivity (skeleton (JDict d1)).
      * apply rewrite_datetime_inv in Hd2 as [[_ ->]|(_ & s & Hs & ->)]; [reflexivity|].
        now apply (skeleton_dict_set _ s).
      * apply rewrite_key_inv in Hd1 as [[_ ->]|(s & Hs & ->)]; [reflexivity|].
        now apply (skeleton_dict_set _ s).
Qed.

(** A normalised dictionary has the keys of the raw one, in their order. *)
Lemma process_data_dict_keys (m : list (string * json)) (r : json) :
  _process_data (JDict m) = OK r -> exists m', r = JDict m' /\ m'.*1 = m.*1.
Proof.
  intros H. pose proof (process_data_skeleton_depth _ _ r (le_n _) H) as Hs.
  destruct r as [| | | | | |m']; try discriminate. exists m'.
  split; [reflexivity|]. cbn [skeleton] in Hs. injection Hs as Hs.
  apply (f_equal (fmap fst)) in Hs. rewrite <- !list_fmap_compose in Hs.
  erewrite (list_fmap_ext _ fst m'), (list_fmap_ext _ fst m) in Hs; [exact Hs|..];
    now intros ? [? ?].
Qed.

(** X5: normalisation changes text only: the normalised record has the
    nesting of the raw one, the same dictionary keys in the same order, the
    same list lengths and the same numbers, booleans and nulls. *)
Theorem process_data_keeps_structure (d r : json) :
  _process_data d = OK r ->
  skeleton r = skeleton d /\
  (forall m, d = JDict m -> exists m', r = JDict m' /\ m'.*1 = m.*1) /\
  (forall l, d = JList l -> exists l', r = JList l' /\ length l' = length l).
Proof.
  intros H. pose proof (process_data_skeleton_depth _ d r (le_n _) H) as Hs.
  split; [assumption|]. split.
  - intros m ->. now apply process_data_dict_keys.
  - intros l ->. destruct r as [| | | | |l'|]; try discriminate. exists l'.
    split; [reflexivity|]. cbn [skeleton] in Hs. injection Hs as Hs.
    apply (f_equal length) in Hs. now rewrite !length_map in Hs.
Qed.

Lemma process_data_keeps_structure_witness :
  skeleton (JDict [("key", JStr "/books/OL1M");
                   ("authors", JList [JDict [("key", JStr "/authors/OL2A")]])]) =
  skeleton (JDict [("key", JStr "/b/OL1M"); ("authors", JList [JDict [("key", JStr "/a/OL2A")]])]).
Proof.
  exact (proj1 (process_data_keeps_structure
    (JDict [("key", JStr "/b/OL1M"); ("authors", JList [JDict [("key", JStr "/a/OL2A")]])])
    _ eq_refl)).
Defined.

(** ** Snapshot generator *)

Lemma dict_get_None_keys {A} (k : string) (d : list (string * A)) :
  dict_get k d = None <-> k ∉ d.*1.
Proof.
  induction d as [|[k0 v0] d IH]; cbn.
  - split; [intros _; apply not_elem_of_nil | reflexivity].
  - rewrite not_elem_of_cons. destruct (String.eqb_spec k0 k) as [->|Hne].
    + split; [discriminate | intros [[] _]; reflexivity].
    + rewrite IH. split; [intros ?; split; [congruence | assumption] | now intros [_ ?]].
Qed.

Lemma dict_pop_keys {A} (k : string) (d : list (string * A)) :
  NoDup d.*1 -> k ∉ (dict_pop k d).*1.
Proof.
  induction d as [|[k0 v0] d IH]; cbn; [intros _; apply not_elem_of_nil|].
  intros Hnd. apply NoDup_cons in Hnd as [Hk0 Hnd].
  destruct (String.eqb_spec k0 k) as [->|Hne]; [assumption|].
  cbn. rewrite not_elem_of_cons. split; [congruence | now apply IH].
Qed.

Section SnapshotFurther.

Context `{RT : Runtime}.

(** What a record that is printed or skipped went through. *)
Lemma dump_record_OK (filter : predicate) (json_data : string)
    (o : option (list string)) :
  dump_record filter json_data = OK o ->
  exists m d k t type_ lm timestamp,
    json_loads json_data = OK (JDict m) /\
    _process_data (JDict (dict_pop "id" m)) = OK d /\
    subscript d "key" = OK k /\
    subscript d "type" = OK t /\ subscript t "key" = OK type_ /\
    subscript d "last_modified" = OK lm /\ subscript lm "value" = OK timestamp.
Proof.
  unfold dump_record. intros H.
  inv_bind_as H d0 Hd0. inv_bind_as H d1 Hd1. inv_bind_as H d Hd.
  inv_bind_as H k Hk. inv_bind_as H t Ht. inv_bind_as H ty Hty.
  inv_bind_as H lm Hlm. inv_bind_as H ts Hts. clear H.
  destruct d0 as [| | | | | |m]; try discriminate. injection Hd1 as <-.
  exists m, d, k, t, ty, lm, ts. repeat split; assumption.
Qed.

Lemma print_dump_loop_app (filter : predicate) (a b : list string) :
  print_dump_loop filter (a ++ b) =
  match print_dump_loop filter a with
  | (out, Some e) => (out, Some e)
  | (out, None) =>
      (out ++ (print_dump_loop filter b).1, (print_dump_loop filter b).2)
  end.
Proof.
  induction a as [|json_data a IH]; cbn [app print_dump_loop].
  - now destruct (print_dump_loop filter b).
  - destruct (dump_record filter json_data) as [[fields|]|e]; [|assumption|reflexivity].
    rewrite IH. destruct (print_dump_loop filter a) as [out [e|]]; reflexivity.
Qed.

(** X7: [print_dump] takes the records one after the other: the rows of a
    stream are the rows of its first part followed by the rows of the rest,
    unless the first part raises, which ends the run; a record on which the
    loop raises ends the run with that exception, after the rows of the
    records before it. *)
Theorem print_dump_in_order (filter : predicate) (a b : list string) :
  print_dump_loop filter (a ++ b) =
    match print_dump_loop filter a with
    | (out, Some e) => (out, Some e)
    | (out, None) =>
        (out ++ (print_dump_loop filter b).1, (print_dump_loop filter b).2)
    end /\
  (forall json_data e out,
      print_dump_loop filter a = (out, None) ->
      dump_record filter json_data = Raise e ->
      print_dump_loop filter (a ++ json_data :: b) = (out, Some e)) /\
  (forall json_data e,
      json_loads json_data = Raise e -> dump_record filter json_data = Raise e).
Proof.
  split; [apply print_dump_loop_app|]. split.
  - intros json_data e out Ha He. rewrite print_dump_loop_app, Ha.
    cbn [print_dump_loop]. rewrite He. cbn. now rewrite app_nil_r.
  - intros json_data e He. unfold dump_record. now rewrite He.
Qed.

(** X8: a record that is not a JSON object, or that has no [key], no [type]
    or no [last_modified], is neither printed nor skipped: the run ends on it
    with an exception. *)
Theorem print_dump_requires_fields (filter : predicate) (json_data : string) (d0 : json) :
  json_loads json_data = OK d0 ->
  (forall m, d0 = JDict m ->
     dict_get "key" m = None \/ dict_get "type" m = None \/
     dict_get "last_modified" m = None) ->
  exists e, dump_record filter json_data = Raise e.
Proof.
  intros Hl Hmiss.
  destruct (dump_record filter json_data) as [o|e] eqn:E; [exfalso|eauto].
  apply dump_record_OK in E
    as (m & d & k & t & ty & lm & ts & Hm & Hd & Hk & Ht & _ & Hlm & _).
  assert (d0 = JDict m) as -> by congruence.
  destruct (process_data_dict_keys _ _ Hd) as (m' & -> & Hfst).
  assert (Hin : forall k', k' <> "id" -> dict_get k' m = None -> dict_get k' m' = None).
  { intros k' Hne Hnone. apply dict_get_None_keys. rewrite Hfst.
    apply dict_get_None_keys. now rewrite dict_get_pop. }
  cbn [subscript] in Hk, Ht, Hlm.
  destruct (Hmiss m eq_refl) as [H|[H|H]]; apply Hin in H; try discriminate.
  - now rewrite H in Hk.
  - now rewrite H in Ht.
  - now rewrite H in Hlm.
Qed.

End SnapshotFurther.

Lemma print_dump_requires_fields_witness :
  exists e,
    dump_record (RT := sample_runtime [JDict [("key", JStr "/books/OL1M")]] []) None
      (sample_dumps (JDict [("key", JStr "/books/OL1M")])) = Raise e.
Proof.
  apply (print_dump_requires_fields (RT := sample_runtime [JDict [("key", JStr "/books/OL1M")]] [])
           None _ (JDict [("key", JStr "/books/OL1M")])).
  - vm_compute. reflexivity.
  - intros m [= <-]. right. left. reflexivity.
Defined.

Section SnapshotRows.

Context `{RT : Runtime}.

(** X10: the [id] of a raw record is not printed: the JSON text of a printed
    row is that of a dictionary with the keys of the raw record but [id]. *)
Theorem print_dump_strips_id (filter : predicate) (json_data : string)
    (fields : list string) (m : list (string * json)) :
  dump_record filter json_data = OK (Some fields) ->
  json_loads json_data = OK (JDict m) ->
  NoDup m.*1 ->
  exists d,
    fields !! 4 = Some (json_dumps (JDict d)) /\
    dict_get "id" d = None /\
    d.*1 = (dict_pop "id" m).*1 /\
    forall k, k <> "id" -> k ∈ m.*1 -> k ∈ d.*1.
Proof.
  intros E Hl Hnd.
  apply dump_record_printed in E
    as (d0 & d1 & d & k & t & ty & lm' & ts & rev &
        Hd0 & Hd1 & Hd & _ & _ & _ & _ & _ & _ & _ & _ & ->).
  assert (d0 = JDict m) as -> by congruence. injection Hd1 as <-.
  destruct (process_data_dict_keys _ _ Hd) as (m' & -> & Hfst).
  exists m'. repeat split; try assumption.
  - apply dict_get_None_keys. rewrite Hfst. now apply dict_pop_keys.
  - intros k' Hne Hin. rewrite Hfst.
    destruct (dict_get k' (dict_pop "id" m)) eqn:Hg.
    + destruct (decide (k' ∈ (dict_pop "id" m).*1)) as [?|Hn]; [assumption|].
      apply dict_get_None_keys in Hn. congruence.
    + rewrite dict_get_pop in Hg by congruence.
      apply dict_get_None_keys in Hg. contradiction.
Qed.

Lemma read_data_file_app (a b : list string) :
  read_data_file (a ++ b) =
  match failure (read_data_file a) with
  | Some e => read_data_file a
  | None => Stream (items (read_data_file a) ++ items (read_data_file b))
                   (failure (read_data_file b))
  end.
Proof.
  induction a as [|line a IH]; cbn [app read_data_file].
  - now destruct (read_data_file b).
  - destruct (split_on TAB (strip str_isspace line)) as [|? [|? [|? [|? ?]]]];
      try reflexivity.
    cbn [items failure]. rewrite IH.
    destruct (read_data_file a) as [it [e|]]; reflexivity.
Qed.

(** X11: [read_data_file] yields, line by line, the decoded third column of
    a file whose lines have three columns; a line that has not ends the
    stream with [ValueError], after the records of the lines before it. *)
Theorem read_data_file_columns (a : list string) :
  Forall (fun line => is_Some (data_line_json line)) a ->
  exists recs,
    read_data_file a = Stream recs None /\
    Forall2 (fun line rec =>
               exists json_data,
                 data_line_json line = Some json_data /\
                 pgdecode (Some json_data) = Some rec) a recs /\
    forall bad b,
      data_line_json bad = None ->
      read_data_file (a ++ bad :: b) = Stream recs (Some ValueError).
Proof.
  intros Hall.
  assert (Hrun : exists recs,
             read_data_file a = Stream recs None /\
             Forall2 (fun line rec =>
                        exists json_data,
                          data_line_json line = Some json_data /\
                          pgdecode (Some json_data) = Some rec) a recs).
  { induction Hall as [|line a [jd Hjd] _ (recs & Hrun & Hrecs)].
    - exists []. split; [reflexivity | constructor].
    - unfold data_line_json in Hjd. cbn [read_data_file].
      destruct (split_on TAB (strip str_isspace line)) as [|? [|? [|jd' [|? ?]]]] eqn:Hs;
        try discriminate.
      injection Hjd as ->. rewrite Hrun. cbn [items failure].
      destruct (pgdecode (Some jd)) as [rec|] eqn:Hdec.
      + exists (rec :: recs). split; [reflexivity|]. constructor; [|assumption].
        exists jd. split; [|assumption]. unfold data_line_json. now rewrite Hs.
      + exfalso. destruct jd; discriminate. }
  destruct Hrun as (recs & Hrun & Hrecs). exists recs. repeat split; try assumption.
  intros bad b Hbad. rewrite read_data_file_app, Hrun. cbn [items failure read_data_file].
  unfold data_line_json in Hbad.
  destruct (split_on TAB (strip str_isspace bad)) as [|? [|? [|? [|? ?]]]];
    try discriminate; cbn [items failure]; now rewrite app_nil_r.
Qed.

End SnapshotRows.

(** ** Bucket sort *)

Lemma append_inj_l (p s t : string) : String.append p s = String.append p t -> s = t.
Proof.
  induction p as [|c p IH]; [trivial|]. rewrite !append_String. intros [= H]. auto.
Qed.

Lemma append_assoc (s t u : string) :
  String.append s (String.append t u) = String.append (String.append s t) u.
Proof.
  induction s as [|c s IH]; [reflexivity|]. rewrite !append_String. now rewrite IH.
Qed.

(** What [os.path.join] puts before a relative name. *)
Lemma path_join_relative (a b : string) :
  startswith b "/" = false ->
  path_join a b =
  String.append (if String.eqb a EmptyString || endswith_char "/" a then a
                 else String.append a "/") b.
Proof.
  intros Hb. unfold path_join. rewrite Hb.
  destruct (String.eqb a EmptyString || endswith_char "/" a); [reflexivity|].
  apply append_assoc.
Qed.

(** X14: the 256 bucket files have 256 different names, whatever the
    temporary directory. *)
Theorem filenames_distinct (tmpdir : string) :
  length (filenames tmpdir) = 256 /\ NoDup (filenames tmpdir).
Proof.
  split; [reflexivity|].
  unfold filenames. apply NoDup_fmap_2_strong; [|apply NoDup_seq].
  intros i j Hi Hj. apply elem_of_seq in Hi, Hj. unfold bucket_count in *.
  assert (Hrel : forall n, n < 256 ->
            startswith (String.append (fmt_02x n) ".txt.gz") "/" = false).
  { intros n Hn. do 256 (destruct n as [|n]; [reflexivity|]). lia. }
  rewrite !path_join_relative by (apply Hrel; lia).
  intros H. apply append_inj_l in H.
  assert (Hinj : forall n, n < 256 -> forall k, k < 256 ->
            String.append (fmt_02x n) ".txt.gz" = String.append (fmt_02x k) ".txt.gz" ->
            n = k).
  { clear. intros n Hn k Hk. unfold fmt_02x.
    assert (Hd : forall a b, a < 16 -> b < 16 -> hex_digit a = hex_digit b -> a = b).
    { intros a b Ha Hb.
      do 16 (destruct a as [|a];
             [do 16 (destruct b as [|b]; [reflexivity || discriminate|]); lia|]).
      lia. }
    pose proof (Nat.div_mod_eq n 16) as En. pose proof (Nat.div_mod_eq k 16) as Ek.
    assert (Hqn : n / 16 < 16) by (apply Nat.Div0.div_lt_upper_bound; lia).
    assert (Hqk : k / 16 < 16) by (apply Nat.Div0.div_lt_upper_bound; lia).
    assert (Hrn : n mod 16 < 16) by (apply Nat.mod_upper_bound; lia).
    assert (Hrk : k mod 16 < 16) by (apply Nat.mod_upper_bound; lia).
    revert En Ek Hqn Hqk Hrn Hrk.
    generalize (n / 16) (n mod 16) (k / 16) (k mod 16). intros qn rn qk rk.
    intros En Ek Hqn Hqk Hrn Hrk. rewrite !append_String. intros H.
    injection H as H1 H2. apply Hd in H1; [|assumption..]. apply Hd in H2; [|assumption..].
    lia. }
  apply Hinj; [lia | lia | assumption].
Qed.

Section SortFurther.

Context `{RT : Runtime}.

Lemma split_input_bad (files : list (list string)) (line : string) (rest : list string) :
  line_key_revision line = None ->
  split_input files (line :: rest) = (files, Some ValueError).
Proof.
  unfold line_key_revision. cbn [split_input].
  destruct (split_on TAB (strip bytes_isspace line)) as [|? [|? [|? [|? [|? [|? ?]]]]]];
    try reflexivity.
  discriminate.
Qed.

Lemma split_input_app (a rest : list string) :
  forall files files_a : list (list string),
    split_input files a = (files_a, None) ->
    split_input files (a ++ rest) = split_input files_a rest.
Proof.
  induction a as [|line a IH]; intros files files_a Ha.
  - now injection Ha as <-.
  - destruct (line_key_revision line) as [[key revision]|] eqn:Hline.
    + rewrite (split_input_step _ _ _ _ _ Hline) in Ha.
      cbn [app]. rewrite (split_input_step _ _ _ _ _ Hline). now apply IH.
    + rewrite split_input_bad in Ha by assumption. discriminate.
Qed.

Lemma split_input_None (stdin : list string) :
  forall files files' : list (list string),
    split_input files stdin = (files', None) ->
    Forall (fun line => is_Some (line_key_revision line)) stdin.
Proof.
  induction stdin as [|line rest IH]; intros files files' H; [constructor|].
  destruct (line_key_revision line) as [[key revision]|] eqn:Hline.
  - rewrite (split_input_step _ _ _ _ _ Hline) in H. constructor; eauto.
  - rewrite split_input_bad in H by assumption. discriminate.
Qed.

Lemma sort_buckets_None (buffer_size : string) (fnames cmds : list string) :
  sort_buckets buffer_size fnames = (cmds, None) ->
  Forall (fun fname => os_system (sort_command buffer_size fname) = 0%Z) fnames.
Proof.
  revert cmds. induction fnames as [|f0 rest IH]; intros cmds H; [constructor|].
  rewrite sort_buckets_cons in H. cbv zeta in H.
  destruct (Z.eqb_spec (os_system (sort_command buffer_size f0)) 0) as [Hz|Hnz];
    cbn [negb] in H; [|discriminate].
  destruct (sort_buckets buffer_size rest) as [cmds' e'] eqn:Hrest.
  cbn [fst snd] in H. injection H as _ ->. constructor; [assumption|].
  now apply (IH cmds').
Qed.

(** X12: [sort_dump] ends without an exception exactly when every input
    line has five fields and the sort of every bucket returns status zero;
    it has then run one sort per bucket file, in the order of the files. *)
Theorem sort_dump_completes (stdin : list string) (tmpdir buffer_size : string) :
  (raised (sort_dump stdin tmpdir buffer_size) = None <->
   Forall (fun line => is_Some (line_key_revision line)) stdin /\
   Forall (fun fname => os_system (sort_command buffer_size fname) = 0%Z)
          (filenames (path_join tmpdir "oldumpsort"))) /\
  (raised (sort_dump stdin tmpdir buffer_size) = None ->
   commands (sort_dump stdin tmpdir buffer_size) =
     sort_command buffer_size <$> filenames (path_join tmpdir "oldumpsort") /\
   length (commands (sort_dump stdin tmpdir buffer_size)) = 256).
Proof.
  unfold sort_dump.
  destruct (split_input (replicate bucket_count []) stdin) as [files [e|]] eqn:Hsplit.
  - cbn [raised commands]. split; [|discriminate].
    split; [discriminate|]. intros [Hall _].
    destruct (split_input_buckets stdin (replicate bucket_count []) Hall) as (? & Hrun & _).
    congruence.
  - destruct (sort_buckets buffer_size (filenames (path_join tmpdir "oldumpsort")))
      as [cmds e] eqn:Hsort.
    cbn [raised commands]. split.
    + split.
      * intros ->. split; [eapply split_input_None | eapply sort_buckets_None]; eassumption.
      * intros [_ Hzero]. rewrite (sort_buckets_success _ _ Hzero) in Hsort. congruence.
    + intros ->. pose proof (sort_buckets_None _ _ _ Hsort) as Hzero.
      rewrite (sort_buckets_success _ _ Hzero) in Hsort. injection Hsort as <-.
      split; reflexivity.
Qed.

(** X13: an input line without five fields makes [sort_dump] raise
    [ValueError] before any bucket is sorted; the lines before it are
    already written to their buckets, the lines after it to none. *)
Theorem sort_dump_bad_line (a b : list string) (bad tmpdir buffer_size : string) :
  Forall (fun line => is_Some (line_key_revision line)) a ->
  line_key_revision bad = None ->
  raised (sort_dump (a ++ bad :: b) tmpdir buffer_size) = Some ValueError /\
  commands (sort_dump (a ++ bad :: b) tmpdir buffer_size) = [] /\
  forall i, i < bucket_count ->
    buckets (sort_dump (a ++ bad :: b) tmpdir buffer_size) !! i =
    Some (filter (fun line => bucket_of line = Some i) a).
Proof.
  intros Hall Hbad.
  destruct (split_input_buckets a (replicate bucket_count []) Hall)
    as (files & Hrun & _ & Hbuckets).
  unfold sort_dump.
  rewrite (split_input_app _ _ _ _ Hrun), (split_input_bad _ _ _ Hbad).
  cbn [raised commands buckets]. repeat split.
  intros i Hi. rewrite Hbuckets, lookup_replicate_2 by assumption. reflexivity.
Qed.

End SortFurther.

Lemma sort_dump_completes_witness :
  commands (sort_dump (RT := sample_runtime [] [])
              [sample_dump_line "/books/OL1M" "1" "2020-05-17T10:00:00"] "/tmp/" "1G") =
  sort_command "1G" <$> filenames "/tmp/oldumpsort".
Proof.
  refine (proj1 (proj2 (sort_dump_completes (RT := sample_runtime [] [])
    [sample_dump_line "/books/OL1M" "1" "2020-05-17T10:00:00"] "/tmp/" "1G") _)).
  vm_compute. reflexivity.
Defined.

Lemma sort_dump_bad_line_witness :
  raised (sort_dump (RT := sample_runtime [] [])
            ([sample_dump_line "/books/OL1M" "1" "2020-05-17T10:00:00"]
               ++ "no tab in this line" :: []) "/tmp/" "1G") = Some ValueError.
Proof.
  refine (proj1 (sort_dump_bad_line (RT := sample_runtime [] [])
    [sample_dump_line "/books/OL1M" "1" "2020-05-17T10:00:00"] []
    "no tab in this line" "/tmp/" "1G" _ _)).
  - apply Forall_cons_2; [vm_compute; eexists; reflexivity | apply Forall_nil_2].
  - vm_compute. reflexivity.
Defined.

(** ** Revision collapse *)

Lemma split_on_cons (sep c : ascii) (s : string) :
  split_on sep (String c s) =
  if Ascii.eqb c sep then EmptyString :: split_on sep s
  else match split_on sep s with
       | f :: fs => String c f :: fs
       | [] => [chr c]
       end.
Proof. reflexivity. Qed.

Lemma split_on_nonempty (sep : ascii) (s : string) : split_on sep s <> [].
Proof.
  destruct s as [|c s]; [discriminate|]. rewrite split_on_cons.
  destruct (Ascii.eqb c sep); [discriminate|]. now destruct (split_on sep s).
Qed.

Lemma concat_cons2 (sep x y : string) (l : list string) :
  String.concat sep (x :: y :: l) =
  String.append x (String.append sep (String.concat sep (y :: l))).
Proof. reflexivity. Qed.

(** Joining the fields of a line gives the line back. *)
Lemma tjoin_split (s : string) : tjoin (split_on TAB s) = s.
Proof.
  unfold tjoin. induction s as [|c s IH]; [reflexivity|].
  rewrite split_on_cons. pose proof (split_on_nonempty TAB s) as Hne.
  destruct (split_on TAB s) as [|f fs]; [contradiction|].
  destruct (Ascii.eqb_spec c TAB) as [->|Hc].
  - rewrite concat_cons2, IH. reflexivity.
  - destruct fs as [|g fs].
    + cbn in IH |- *. now rewrite IH.
    + rewrite concat_cons2 in IH |- *. rewrite append_String. now rewrite IH.
Qed.

Lemma read_tsv_tjoin (file : list string) :
  tjoin <$> read_tsv file false = file.
Proof.
  unfold read_tsv. induction file as [|line file IH]; [reflexivity|].
  cbn. rewrite tjoin_split. f_equal. exact IH.
Qed.

Lemma split_on_fields (sep : ascii) (s : string) :
  Forall (fun f => contains_char sep f = false) (split_on sep s).
Proof.
  induction s as [|c s IH]; [repeat constructor|].
  rewrite split_on_cons. destruct (Ascii.eqb c sep) eqn:Hc; [now constructor|].
  destruct (split_on sep s) as [|f fs]; [repeat constructor; cbn; now rewrite Hc|].
  apply Forall_cons_1 in IH as [Hf Hfs]. constructor; [|assumption].
  cbn [contains_char]. now rewrite Hc, Hf.
Qed.

(** X29: [read_tsv] yields one row for each line, a row has at least one
    field and no field holds a tab; joining the fields of a row with tabs
    gives the line back, stripped when [strip] is set. *)
Theorem read_tsv_rows (file : list string) (do_strip : bool) :
  length (read_tsv file do_strip) = length file /\
  Forall (fun row => row <> [] /\ Forall (fun f => contains_char TAB f = false) row)
         (read_tsv file do_strip) /\
  tjoin <$> read_tsv file do_strip =
    (fun line => if do_strip then strip str_isspace line else line) <$> file.
Proof.
  unfold read_tsv. split; [apply length_map|]. split.
  - apply Forall_forall. intros row Hrow. apply list_elem_of_fmap in Hrow as (line & -> & _).
    split; [apply split_on_nonempty | apply split_on_fields].
  - induction file as [|line file IH]; [reflexivity|].
    cbn [map fmap list_fmap] in *. rewrite tjoin_split. f_equal. exact IH.
Qed.

Section CollapseFurther.

Context `{RT : Runtime}.

Lemma process_group_sublist (data : list (list string)) :
  forall (k : string) (best : list string) (top : Z),
    (process_group k best top data).1 `sublist_of` best :: data.
Proof.
  induction data as [|cols rest IH]; intros k best top; cbn [process_group].
  - reflexivity.
  - destruct (key_of cols) as [k'|e]; [|apply sublist_nil_l].
    destruct (String.eqb k' k).
    + destruct (revision cols) as [v|e]; [|apply sublist_nil_l].
      destruct (top <? v)%Z.
      * apply sublist_cons, IH.
      * etransitivity; [apply IH|]. apply sublist_skip, sublist_cons. reflexivity.
    + destruct (revision cols) as [v|e].
      * specialize (IH k' cols v). destruct (process_group k' cols v rest) as [out e].
        cbn [fst] in *. now apply sublist_skip.
      * apply sublist_skip, sublist_nil_l.
Qed.

(** X15: [generate_dump] writes lines of its input, unchanged and in the
    order of the input, whether or not the run ends with an exception. *)
Theorem generate_dump_verbatim (cdump_file : list string) :
  items (generate_dump cdump_file) `sublist_of` cdump_file.
Proof.
  unfold generate_dump.
  destruct (process (read_tsv cdump_file false)) as [rows e] eqn:E. cbn [items].
  rewrite <- (read_tsv_tjoin cdump_file) at 1. apply fmap_sublist.
  unfold process in E. destruct (read_tsv cdump_file false) as [|cols rest].
  - injection E as <- _. reflexivity.
  - destruct (key_of cols) as [k|]; [|injection E as <- _; apply sublist_nil_l].
    destruct (revision cols) as [v|]; [|injection E as <- _; apply sublist_nil_l].
    pose proof (process_group_sublist rest k cols v) as H. now rewrite E in H.
Qed.

Lemma process_group_total (data : list (list string)) :
  forall (keys : list string) (revs : list Z) (k : string) (best : list string) (top : Z),
    mapM key_of data = OK keys ->
    mapM revision data = OK revs ->
    exists out, process_group k best top data = (out, None).
Proof.
  induction data as [|cols rest IH]; intros keys revs k best top Hkeys Hrevs.
  - eexists. reflexivity.
  - apply mapM_cons_inv in Hkeys as (k' & keys' & Hk' & Hkeys' & ->).
    apply mapM_cons_inv in Hrevs as (v & revs' & Hv & Hrevs' & ->).
    cbn [process_group]. rewrite Hk', Hv.
    destruct (String.eqb k' k).
    + destruct (top <? v)%Z; eapply IH; eassumption.
    + destruct (IH keys' revs' k' cols v Hkeys' Hrevs') as (out & ->). eexists. reflexivity.
Qed.

Lemma process_group_None (data : list (list string)) :
  forall (k : string) (best : list string) (top : Z) out,
    process_group k best top data = (out, None) ->
    (exists keys, mapM key_of data = OK keys) /\
    (exists revs, mapM revision data = OK revs).
Proof.
  induction data as [|cols rest IH]; intros k best top out H.
  - split; eexists; reflexivity.
  - cbn [process_group] in H.
    destruct (key_of cols) as [k'|e] eqn:Hk'; [|discriminate].
    destruct (revision cols) as [v|e] eqn:Hv;
      [|destruct (String.eqb k' k); discriminate].
    assert (Hrest : exists k0 b0 t0 out0, process_group k0 b0 t0 rest = (out0, None)).
    { destruct (String.eqb k' k).
      - destruct (top <? v)%Z; eauto.
      - destruct (process_group k' cols v rest) as [out' e'] eqn:E.
        injection H as _ ->. eauto. }
    destruct Hrest as (k0 & b0 & t0 & out0 & Hrest).
    destruct (IH _ _ _ _ Hrest) as [[keys Hkeys] [revs Hrevs]].
    split; eexists; cbn [mapM]; rewrite ?Hk', ?Hv, ?Hkeys, ?Hrevs; reflexivity.
Qed.

(** X18: [generate_dump] ends without an exception exactly when every row
    of the input has a key column and a revision column that [int] accepts,
    grouped or not. *)
Theorem generate_dump_completes (cdump_file : list string) :
  failure (generate_dump cdump_file) = None <->
  (exists keys, mapM key_of (read_tsv cdump_file false) = OK keys) /\
  (exists revs, mapM revision (read_tsv cdump_file false) = OK revs).
Proof.
  unfold generate_dump, process.
  destruct (read_tsv cdump_file false) as [|cols rest].
  - cbn. split; [intros _; split; eexists; reflexivity | reflexivity].
  - split.
    + intros H. destruct (key_of cols) as [k|e] eqn:Hk; [|discriminate].
      destruct (revision cols) as [v|e] eqn:Hv; [|discriminate].
      destruct (process_group k cols v rest) as [out [e|]] eqn:E; [discriminate|].
      destruct (process_group_None _ _ _ _ _ E) as [[keys Hkeys] [revs Hrevs]].
      split; eexists; cbn [mapM]; rewrite ?Hk, ?Hv, ?Hkeys, ?Hrevs; reflexivity.
    + intros [[keys Hkeys] [revs Hrevs]].
      apply mapM_cons_inv in Hkeys as (k & keys' & Hk & Hkeys' & ->).
      apply mapM_cons_inv in Hrevs as (v & revs' & Hv & Hrevs' & ->).
      rewrite Hk, Hv.
      destruct (process_group_total rest keys' revs' k cols v Hkeys' Hrevs') as (out & ->).
      reflexivity.
Qed.

End CollapseFurther.

Section CollapseTies.

Context `{RT : Runtime}.

Lemma process_group_first (data : list (list string)) :
  forall (keys : list string) (revs : list Z) (k : string) (best : list string) (top : Z),
    mapM key_of data = OK keys ->
    mapM revision data = OK revs ->
    key_grouped (k :: keys) ->
    key_of best = OK k ->
    revision best = OK top ->
    exists out,
      process_group k best top data = (out, None) /\
      Forall (first_newest_in (best :: data)) out.
Proof.
  induction data as [|cols rest IH]; intros keys revs k best top Hkeys Hrevs Hg Hk Htop.
  - exists [best]. split; [reflexivity|]. constructor; [|constructor].
    exists [], [], k, top. repeat split; try assumption.
    intros r vr Hr. now apply elem_of_nil in Hr.
  - apply mapM_cons_inv in Hkeys as (k' & keys' & Hk' & Hkeys' & ->).
    apply mapM_cons_inv in Hrevs as (v & revs' & Hv & Hrevs' & ->).
    cbn [process_group]. rewrite Hk', Hv.
    pose proof (key_grouped_tail _ _ Hg) as Hg'.
    destruct (String.eqb_spec k' k) as [->|Hne].
    + destruct (Z.ltb_spec top v) as [Hlt|Hge].
      * (* the new row takes over *)
        destruct (IH keys' revs' k cols v Hkeys' Hrevs' Hg' Hk' Hv) as (out & Hrun & Hall).
        exists out. split; [assumption|].
        eapply Forall_impl; [exact Hall|].
        intros o (l1 & l2 & ko & vo & Hsplit & Hko & Hvo & Hless).
        exists (best :: l1), l2, ko, vo. repeat split; try assumption.
        { cbn. now rewrite Hsplit. }
        intros r vr Hr Hrk Hrv. apply elem_of_cons in Hr as [->|Hr]; [|now eauto].
        assert (vr = top) as -> by congruence.
        destruct l1 as [|c l1].
        -- injection Hsplit as <- _. assert (vo = v) by congruence. lia.
        -- injection Hsplit as <- _.
           assert (v < vo)%Z by (apply (Hless cols); [constructor | congruence | assumption]).
           lia.
      * (* the best row stays *)
        destruct (IH keys' revs' k best top Hkeys' Hrevs' Hg' Hk Htop) as (out & Hrun & Hall).
        exists out. split; [assumption|].
        eapply Forall_impl; [exact Hall|].
        intros o (l1 & l2 & ko & vo & Hsplit & Hko & Hvo & Hless).
        destruct l1 as [|b l1].
        -- injection Hsplit as <- <-. exists [], (cols :: rest), ko, vo.
           repeat split; assumption.
        -- injection Hsplit as <- ->. exists (best :: cols :: l1), l2, ko, vo.
           repeat split; try assumption.
           intros r vr Hr Hrk Hrv. apply elem_of_cons in Hr as [->|Hr].
           { apply (Hless best); [constructor | assumption..]. }
           apply elem_of_cons in Hr as [->|Hr].
           { assert (vr = v) as -> by congruence.
             assert (top < vo)%Z by (apply (Hless best); [constructor | congruence | assumption]).
             lia. }
           apply (Hless r); [now constructor | assumption..].
    + (* a new group starts *)
      assert (Hfresh : k ∉ k' :: keys') by (apply key_grouped_next; auto).
      destruct (IH keys' revs' k' cols v Hkeys' Hrevs' Hg' Hk' Hv) as (out & Hrun & Hall).
      rewrite Hrun. exists (best :: out). split; [reflexivity|]. constructor.
      * exists [], (cols :: rest), k, top. repeat split; try assumption.
        intros r vr Hr. now apply elem_of_nil in Hr.
      * eapply Forall_impl; [exact Hall|].
        intros o (l1 & l2 & ko & vo & Hsplit & Hko & Hvo & Hless).
        exists (best :: l1), l2, ko, vo. repeat split; try assumption.
        { cbn. now rewrite Hsplit. }
        intros r vr Hr Hrk Hrv. apply elem_of_cons in Hr as [->|Hr]; [|now eauto].
        exfalso. apply Hfresh. assert (ko = k) as <- by congruence.
        assert (Ho : o ∈ cols :: rest) by (rewrite Hsplit; apply elem_of_app; right; constructor).
        apply elem_of_cons in Ho as [->|Ho].
        -- assert (ko = k') as -> by congruence. constructor.
        -- constructor. eapply key_of_elem_of; eassumption.
Qed.

(** X16: on rows grouped by key, the row written for a key is the first of
    the rows of that key that have its greatest revision: no row of the key
    has a greater revision, and every row of the key before the written one
    has a smaller one.  So when rows tie on the greatest revision, the first
    of them is written. *)
Theorem generate_dump_first_on_tie (cdump_file : list string) (keys : list string)
    (revs : list Z) :
  row_key <$> read_tsv cdump_file false = Some <$> keys ->
  row_revision <$> read_tsv cdump_file false = Some <$> revs ->
  key_grouped keys ->
  exists out,
    generate_dump cdump_file = Stream (tjoin <$> out) None /\
    row_key <$> out = Some <$> distinct keys /\
    Forall (first_greatest_in (read_tsv cdump_file false)) out.
Proof.
  unfold generate_dump. generalize (read_tsv cdump_file false). clear cdump_file.
  intros data Hkeys Hrevs Hg.
  apply mapM_key_of in Hkeys. apply mapM_revision in Hrevs.
  destruct data as [|cols rest].
  - injection Hkeys as <-. exists []. repeat split. constructor.
  - apply mapM_cons_inv in Hkeys as (k & keys' & Hk & Hkeys' & ->).
    apply mapM_cons_inv in Hrevs as (v & revs' & Hv & Hrevs' & ->).
    destruct (process_group_first rest keys' revs' k cols v Hkeys' Hrevs' Hg Hk Hv)
      as (out & Hrun & Hfirst).
    destruct (process_group_spec rest keys' revs' k cols v Hkeys' Hrevs' Hg Hk Hv)
      as (out' & Hrun' & Hout & Hnewest).
    assert (out' = out) as -> by congruence.
    exists out. cbn [process]. rewrite Hk, Hv, Hrun.
    split; [reflexivity|]. split; [now apply mapM_key_of|].
    apply Forall_forall. intros o Ho.
    rewrite Forall_forall in Hfirst, Hnewest.
    destruct (Hfirst o Ho) as (l1 & l2 & ko & vo & Hsplit & Hko & Hvo & Hless).
    destruct (Hnewest o Ho) as [_ (ko' & vo' & Hko' & Hvo' & Hmax)].
    assert (ko' = ko) as -> by congruence. assert (vo' = vo) as -> by congruence.
    exists l1, l2, ko, vo. split; [assumption|].
    split; [now apply key_of_row_key|]. split; [now apply revision_row_revision|]. split.
    + intros r vr Hr Hrk Hrv. apply (Hless r); [assumption | |].
      * now apply key_of_row_key.
      * now apply revision_row_revision.
    + intros r vr Hr Hrk Hrv. apply (Hmax r).
      * rewrite Hsplit. apply elem_of_app. right. now apply list_elem_of_further.
      * now apply key_of_row_key.
      * now apply revision_row_revision.
Qed.

Lemma process_group_distinct (rest : list (list string)) :
  forall (keys : list string) (k : string) (best : list string) (top : Z),
    mapM key_of rest = OK keys ->
    Forall (fun o => exists v, revision o = OK v) rest ->
    NoDup (k :: keys) ->
    process_group k best top rest = (best :: rest, None).
Proof.
  induction rest as [|cols rest IH]; intros keys k best top Hkeys Hrevs Hnd; [reflexivity|].
  apply mapM_cons_inv in Hkeys as (k' & keys' & Hk' & Hkeys' & ->).
  apply Forall_cons_1 in Hrevs as [[v Hv] Hrevs].
  apply NoDup_cons in Hnd as [Hk Hnd].
  cbn [process_group]. rewrite Hk', Hv.
  destruct (String.eqb_spec k' k) as [->|Hne]; [exfalso; apply Hk; constructor|].
  now rewrite (IH keys' k' cols v Hkeys' Hrevs Hnd).
Qed.

(** X17: collapsing a collapsed dump changes nothing: on rows grouped by
    key, [generate_dump] applied to its own output writes that output. *)
Theorem generate_dump_idempotent (cdump_file : list string) (keys : list string)
    (revs : list Z) :
  mapM key_of (read_tsv cdump_file false) = OK keys ->
  mapM revision (read_tsv cdump_file false) = OK revs ->
  key_grouped keys ->
  generate_dump (items (generate_dump cdump_file)) = generate_dump cdump_file.
Proof.
  intros Hkeys Hrevs Hg.
  assert (Hout : exists out,
             process (read_tsv cdump_file false) = (out, None) /\
             mapM key_of out = OK (distinct keys) /\
             Forall (fun o => o ∈ read_tsv cdump_file false /\
                              exists v, revision o = OK v) out).
  { destruct (read_tsv cdump_file false) as [|cols rest].
    - injection Hkeys as <-. exists []. repeat split. constructor.
    - apply mapM_cons_inv in Hkeys as (k & keys' & Hk & Hkeys' & ->).
      apply mapM_cons_inv in Hrevs as (v & revs' & Hv & Hrevs' & ->).
      destruct (process_group_spec rest keys' revs' k cols v Hkeys' Hrevs' Hg Hk Hv)
        as (out & Hrun & Hok & Hall).
      exists out. cbn [process]. rewrite Hk, Hv. repeat split; try assumption.
      eapply Forall_impl; [exact Hall|].
      intros o [Ho (ko & vo & _ & Hvo & _)]. eauto. }
  destruct Hout as (out & Hrun & Hok & Hall).
  unfold generate_dump. rewrite Hrun. cbn [items].
  assert (Hread : read_tsv (map tjoin out) false = out).
  { clear -Hall. induction Hall as [|o out [Ho _] _ IH]; [reflexivity|].
    cbn. f_equal; [|exact IH].
    unfold read_tsv in Ho. apply list_elem_of_fmap in Ho as (line & -> & _).
    now rewrite tjoin_split. }
  rewrite Hread.
  assert (Hsame : process out = (out, None)).
  { destruct out as [|o out]; [reflexivity|].
    apply mapM_cons_inv in Hok as (k & ks & Hk & Hks & Hd).
    apply Forall_cons_1 in Hall as [[_ [v Hv]] Hall].
    cbn [process]. rewrite Hk, Hv.
    apply (process_group_distinct out ks); [assumption| |].
    - eapply Forall_impl; [exact Hall|]. now intros ? [_ ?].
    - rewrite <- Hd. apply NoDup_distinct. }
  rewrite Hsame. reflexivity.
Qed.

End CollapseTies.

Lemma generate_dump_first_on_tie_witness :
  exists out,
    generate_dump (RT := sample_runtime [] []) small_cdump = Stream (tjoin <$> out) None /\
    out !! 1 = Some (split_on TAB (sample_dump_line "/books/OL2M" "3" "2020-05-18T00:00:00")).
Proof.
  destruct (generate_dump_first_on_tie (RT := sample_runtime [] []) small_cdump
              ["/books/OL1M"; "/books/OL1M"; "/books/OL2M"; "/books/OL2M"] [1; 2; 3; 3]%Z)
    as (out & Hrun & Hkeys & Hall).
  - vm_compute. reflexivity.
  - vm_compute. reflexivity.
  - exact key_grouped_small.
  - exists out. split; [assumption|].
    destruct out as [|o1 [|o2 [|o3 out]]]; try discriminate Hkeys.
    injection Hkeys as _ Hk2.
    apply Forall_cons_1 in Hall as [_ Hall].
    apply Forall_cons_1 in Hall as [(l1 & l2 & k & v & Hsplit & Hk & Hv & Hless & _) _].
    assert (k = "/books/OL2M") as -> by congruence.
    rewrite read_tsv_small_cdump in Hsplit. cbn [lookup list_lookup]. f_equal.
    destruct l1 as [|r1 [|r2 [|r3 [|r4 l1]]]]; cbn [app] in Hsplit.
    + injection Hsplit as <- _. vm_compute in Hk. discriminate Hk.
    + injection Hsplit as _ <- _. vm_compute in Hk. discriminate Hk.
    + now injection Hsplit as _ _ <- _.
    + injection Hsplit as _ _ <- <- _. exfalso.
      vm_compute in Hv. injection Hv as <-.
      assert (3 < 3)%Z; [|lia].
      apply (Hless (split_on TAB (sample_dump_line "/books/OL2M" "3" "2020-05-18T00:00:00")));
        [do 2 apply list_elem_of_further; apply list_elem_of_here
        | vm_compute; reflexivity | vm_compute; reflexivity].
    + injection Hsplit as _ _ _ _ Hnil. destruct l1; discriminate Hnil.
Defined.

Lemma generate_dump_idempotent_witness :
  generate_dump (RT := sample_runtime [] [])
    (items (generate_dump (RT := sample_runtime [] []) small_cdump)) =
  generate_dump (RT := sample_runtime [] []) small_cdump.
Proof.
  apply (generate_dump_idempotent (RT := sample_runtime [] []) small_cdump
           ["/books/OL1M"; "/books/OL1M"; "/books/OL2M"; "/books/OL2M"] [1; 2; 3; 3]%Z).
  - vm_compute. reflexivity.
  - vm_compute. reflexivity.
  - exact key_grouped_small.
Defined.

(** ** Splitting a dump by type *)







(** The names of the four files. *)
Example tname_example :
  tname <$> split_types = ["editions"; "authors"; "works"; "redirects"].
Proof. reflexivity. Qed.


(** ** The command line *)

Lemma replace_char_gone (a b : ascii) (s : string) :
  a <> b -> contains_char a (replace_char a b s) = false.
Proof.
  intros Hab. induction s as [|c s IH]; [reflexivity|].
  cbn [replace_char contains_char]. rewrite IH.
  destruct (Ascii.eqb_spec c a) as [->|Hc].
  - apply not_eq_sym in Hab. now apply Ascii.eqb_neq in Hab as ->.
  - now apply Ascii.eqb_neq in Hc as ->.
Qed.

Lemma parse_args_spec (n : nat) :
  forall (iargs args : list string) (kwargs : list (string * string)) args' kwargs',
    length iargs <= n ->
    parse_args iargs args kwargs = Parsed args' kwargs' ->
    (exists more, args' = args ++ more /\ more `sublist_of` iargs) /\
    (forall P : string * string -> Prop,
        Forall P kwargs ->
        (forall a value, a ∈ iargs -> value ∈ iargs ->
                         P (replace_char "-" "_" (drop_str 2 a), value)) ->
        Forall P kwargs').
Proof.
  induction n as [|n IH]; intros iargs args kwargs args' kwargs' Hlen H.
  - destruct iargs; [|cbn in Hlen; lia]. injection H as <- <-.
    split; [exists []; split; [now rewrite app_nil_r | constructor]|]. auto.
  - destruct iargs as [|a rest].
    { injection H as <- <-.
      split; [exists []; split; [now rewrite app_nil_r | constructor]|]. auto. }
    cbn [parse_args] in H. destruct (startswith a "--").
    + destruct rest as [|value rest']; [discriminate|].
      apply IH in H; [|cbn in Hlen |- *; lia].
      destruct H as [(more & -> & Hsub) HP]. split.
      * exists more. split; [reflexivity|]. now do 2 apply sublist_cons.
      * intros P HPk Hnew. apply HP.
        -- assert (Hv : P (replace_char "-" "_" (drop_str 2 a), value))
             by (apply Hnew; [constructor | do 2 constructor]).
           revert Hv. generalize (replace_char "-" "_" (drop_str 2 a)). intros name Hv.
           clear -HPk Hv. induction HPk as [|[k0 v0] d Hkv Hd IHd]; cbn [dict_set].
           ++ repeat constructor. exact Hv.
           ++ destruct (String.eqb k0 name); constructor; assumption.
        -- intros a0 v0 Ha0 Hv0. apply Hnew; now do 2 constructor.
    + apply IH in H; [|cbn in Hlen; lia].
      destruct H as [(more & -> & Hsub) HP]. split.
      * exists (a :: more). split; [now rewrite <- app_assoc|]. now apply sublist_skip.
      * intros P HPk Hnew. apply HP; [assumption|].
        intros a0 v0 Ha0 Hv0. apply Hnew; now constructor.
Qed.

Lemma parse_args_app (n : nat) :
  forall (pre rest args : list string) (kwargs : list (string * string)) args' kwargs',
    length pre <= n ->
    parse_args pre args kwargs = Parsed args' kwargs' ->
    parse_args (pre ++ rest) args kwargs = parse_args rest args' kwargs'.
Proof.
  induction n as [|n IH]; intros pre rest args kwargs args' kwargs' Hlen H.
  - destruct pre; [|cbn in Hlen; lia]. now injection H as <- <-.
  - destruct pre as [|a pre]; [now injection H as <- <-|].
    cbn [parse_args app] in H |- *. destruct (startswith a "--").
    + destruct pre as [|value pre]; [discriminate|]. cbn [app].
      apply IH; [cbn in Hlen |- *; lia | assumption].
    + apply IH; [cbn in Hlen; lia | assumption].
Qed.

(** X20: the loop over the arguments of [main] keeps the arguments that are
    neither options nor values of options, in their order; a keyword it
    collects is the name of an option without its two dashes and with [_]
    for each further dash, and its value is an argument; without options all
    arguments are positional. *)
Theorem main_parses_arguments (argv : list string) :
  (Forall (fun a => startswith a "--" = false) argv ->
   parse_args argv [] [] = Parsed argv []) /\
  (forall args kwargs,
      parse_args argv [] [] = Parsed args kwargs ->
      args `sublist_of` argv /\
      Forall (fun kv => contains_char "-" kv.1 = false /\ kv.2 ∈ argv) kwargs).
Proof.
  split.
  - assert (Hgen : forall args,
               Forall (fun a => startswith a "--" = false) argv ->
               parse_args argv args [] = Parsed (args ++ argv) []).
    { induction argv as [|a rest IH]; intros args Hall.
      - now rewrite app_nil_r.
      - apply Forall_cons_1 in Hall as [Ha Hrest]. cbn [parse_args]. rewrite Ha.
        rewrite IH by assumption. now rewrite <- app_assoc. }
    apply (Hgen []).
  - intros args kwargs H.
    destruct (parse_args_spec _ argv [] [] args kwargs (le_n _) H) as [(more & -> & Hsub) HP].
    split; [assumption|]. apply HP; [constructor|].
    intros a value _ Hv. split; [|assumption]. cbn [fst].
    apply replace_char_gone. discriminate.
Qed.

(** X21: [main] reads its arguments before it looks at the command: an
    option that is the last argument makes it raise [StopIteration], for a
    known command and for an unknown one alike; else each of the ten
    commands calls its function with the parsed arguments, and any other
    command prints a message and calls nothing. *)
Theorem main_dispatches_after_parsing (pre : list string) (flag : string)
    (args : list string) (kwargs : list (string * string)) :
  parse_args pre [] [] = Parsed args kwargs ->
  startswith flag "--" = true ->
  (forall cmd, main cmd (pre ++ [flag]) = Raises_StopIteration) /\
  main "cdump" pre = Calls "generate_cdump" args kwargs /\
  main "dump" pre = Calls "generate_dump" args kwargs /\
  main "idump" pre = Calls "generate_idump" args kwargs /\
  main "sort" pre = Calls "sort_dump" args kwargs /\
  main "split" pre = Calls "split_dump" args kwargs /\
  main "index" pre = Calls "make_index" args kwargs /\
  main "bsddb" pre = Calls "make_bsddb" args kwargs /\
  main "solrdump" pre = Calls "solr.generate_dump" args kwargs /\
  main "sitemaps" pre = Calls "generate_sitemaps" args kwargs /\
  main "htmlindex" pre = Calls "generate_html_index" args kwargs /\
  (forall cmd,
      cmd ∉ ["cdump"; "dump"; "idump"; "sort"; "split"; "index"; "bsddb"; "solrdump";
             "sitemaps"; "htmlindex"] ->
      main cmd pre =
        Prints (String.append "Unknown command: " (String.append cmd (chr LF)))).
Proof.
  intros Hpre Hflag. split.
  - intros cmd. unfold main.
    rewrite (parse_args_app _ pre [flag] [] [] args kwargs (le_n _) Hpre).
    cbn [parse_args]. now rewrite Hflag.
  - unfold main. rewrite Hpre. repeat (split; [reflexivity|]).
    intros cmd Hcmd. now rewrite (proj2 (dict_get_None_keys cmd commands_table) Hcmd).
Qed.

Lemma main_parses_arguments_witness :
  parse_args ["dump.txt"; "out"] [] [] = Parsed ["dump.txt"; "out"] [].
Proof.
  apply (proj1 (main_parses_arguments ["dump.txt"; "out"])).
  repeat (apply Forall_cons_2; [reflexivity|]). apply Forall_nil_2.
Defined.

Lemma main_dispatches_after_parsing_witness :
  main "sort" (["dump.txt"; "--tmpdir"; "/var/tmp"] ++ ["--buffer-size"])
    = Raises_StopIteration /\
  main "sort" ["dump.txt"; "--tmpdir"; "/var/tmp"]
    = Calls "sort_dump" ["dump.txt"] [("tmpdir", "/var/tmp")] /\
  main "split" ["dump.txt"; "--tmpdir"; "/var/tmp"]
    = Calls "split_dump" ["dump.txt"] [("tmpdir", "/var/tmp")] /\
  main "frobnicate" ["dump.txt"; "--tmpdir"; "/var/tmp"]
    = Prints (String.append "Unknown command: frobnicate" (chr LF)).
Proof.
  destruct (main_dispatches_after_parsing ["dump.txt"; "--tmpdir"; "/var/tmp"]
              "--buffer-size" ["dump.txt"] [("tmpdir", "/var/tmp")] eq_refl eq_refl)
    as (Hstop & _ & _ & _ & Hsort & Hsplit & _ & _ & _ & _ & _ & Hother).
  split; [apply Hstop|]. split; [exact Hsort|]. split; [exact Hsplit|].
  apply (Hother "frobnicate"). apply (bool_decide_unpack _). vm_compute. exact I.
Defined.

(** Options on the command line of [sort]. *)
Example main_example :
  main "sort" ["dump.txt"; "--tmpdir"; "/var/tmp"; "--buffer-size"; "2G"] =
    Calls "sort_dump" ["dump.txt"] [("tmpdir", "/var/tmp"); ("buffer_size", "2G")] /\
  main "cdump" ["data.txt"; "--date"; "--x"] =
    Calls "generate_cdump" ["data.txt"] [("date", "--x")].
Proof. split; reflexivity. Qed.

(** ** Keys from titles *)

Lemma lower_char_idem (c : ascii) : lower_char (lower_char c) = lower_char c.
Proof. destruct c as [[] [] [] [] [] [] [] []]; reflexivity. Qed.

Lemma lower_char_kept (c : ascii) :
  existsb (Ascii.eqb c) to_drop = false -> existsb (Ascii.eqb (lower_char c)) to_drop = false.
Proof. destruct c as [[] [] [] [] [] [] [] []]; intros H; solve [reflexivity | discriminate H]. Qed.

Lemma join_kept_key_chars (t : string) :
  (forall c, contains_char c t = true -> lower_char c = c) ->
  forall c, contains_char c (join_kept t) = true -> key_char c.
Proof.
  induction t as [|c0 t IH]; intros Hlow c Hc; [discriminate|].
  assert (Hlow' : forall c, contains_char c t = true -> lower_char c = c).
  { intros c' Hc'. apply Hlow. cbn [contains_char]. rewrite Hc'. apply orb_true_r. }
  cbn [join_kept] in Hc. destruct (existsb (Ascii.eqb c0) to_drop) eqn:Hdrop; [now apply IH|].
  cbn [contains_char] in Hc. apply orb_true_iff in Hc as [Hc|Hc]; [|now apply IH].
  apply Ascii.eqb_eq in Hc. subst c.
  destruct (Ascii.eqb_spec c0 " ") as [->|Hsp].
  - repeat split. discriminate.
  - repeat split; [assumption.. |]. apply Hlow. cbn [contains_char].
    now rewrite Ascii.eqb_refl.
Qed.

Lemma lower_chars (s : string) :
  forall c, contains_char c (lower s) = true -> lower_char c = c.
Proof.
  induction s as [|c0 s IH]; intros c Hc; [discriminate|].
  cbn [lower contains_char] in Hc. apply orb_true_iff in Hc as [Hc|Hc]; [|now apply IH].
  apply Ascii.eqb_eq in Hc. subst c. apply lower_char_idem.
Qed.

Lemma key_chars_fixed (u : string) :
  (forall c, contains_char c u = true -> key_char c) ->
  lower u = u /\ join_kept u = u.
Proof.
  induction u as [|c0 u IH]; intros Hu; [now split|].
  destruct (Hu c0) as (Hdrop & Hsp & Hlow);
    [cbn [contains_char]; now rewrite Ascii.eqb_refl|].
  destruct IH as [IHl IHj].
  { intros c Hc. apply Hu. cbn [contains_char]. rewrite Hc. apply orb_true_r. }
  cbn [lower join_kept]. rewrite Hdrop, Hlow, IHl, IHj.
  apply Ascii.eqb_neq in Hsp. now rewrite Hsp.
Qed.

(** X22: a key made by [str_to_key] holds no space, no character of
    [to_drop] and no capital letter, and [str_to_key] gives it back
    unchanged. *)
Theorem str_to_key_canonical (s : string) :
  str_to_key (str_to_key s) = str_to_key s /\
  forall c, contains_char c (str_to_key s) = true ->
            (c ∉ to_drop) /\ c <> " "%char /\ lower_char c = c.
Proof.
  assert (Hkey : forall c, contains_char c (str_to_key s) = true -> key_char c).
  { apply join_kept_key_chars, lower_chars. }
  split.
  - destruct (key_chars_fixed _ Hkey) as [Hl Hj]. unfold str_to_key at 1. now rewrite Hl.
  - intros c Hc. destruct (Hkey c Hc) as (Hdrop & Hsp & Hlow).
    repeat split; try assumption.
    intros Hin. apply list_elem_of_In in Hin.
    assert (Hex : existsb (Ascii.eqb c) to_drop = true).
    { apply existsb_exists. exists c. split; [assumption | apply Ascii.eqb_refl]. }
    congruence.
Qed.

(** A title and its key. *)
Example str_to_key_example :
  str_to_key "Tom Sawyer: A [New] Story?" = "tom_sawyer_a_new_story".
Proof. reflexivity. Qed.

(** ** Unique entries *)

Lemma uniq_loop_spec {A K} `{Countable K} (key : A -> K) (values : list A) :
  forall (s : gset K) (result : list A),
    (forall k, k ∈ s <-> k ∈ key <$> result) ->
    NoDup (key <$> result) ->
    exists more,
      uniq_loop key values s result = result ++ more /\
      more `sublist_of` values /\
      NoDup (key <$> (result ++ more)) /\
      (forall v, v ∈ values -> key v ∈ key <$> (result ++ more)) /\
      (forall v, v ∈ more ->
         exists l1 l2, values = l1 ++ v :: l2 /\ (key v ∉ key <$> l1) /\ key v ∉ s).
Proof.
  induction values as [|v values IH]; intros s result Hs Hnd.
  - exists []. rewrite app_nil_r. repeat split; try assumption; try constructor.
    + intros v Hv. now apply elem_of_nil in Hv.
    + intros v Hv. now apply elem_of_nil in Hv.
  - cbn [uniq_loop]. destruct (decide (key v ∈ s)) as [Hin|Hnew].
    + destruct (IH s result Hs Hnd) as (more & Hrun & Hsub & Hnd' & Hcov & Hfirst).
      exists more. split; [assumption|]. split; [now apply sublist_cons|].
      split; [assumption|]. split.
      * intros v' Hv'. apply elem_of_cons in Hv' as [->|Hv']; [|now apply Hcov].
        rewrite fmap_app, elem_of_app. left. now apply Hs.
      * intros v' Hv'. destruct (Hfirst v' Hv') as (l1 & l2 & -> & Hl1 & Hns).
        exists (v :: l1), l2. split; [reflexivity|]. split; [|assumption].
        rewrite fmap_cons, not_elem_of_cons. split; [congruence | assumption].
    + destruct (IH ({[key v]} ∪ s) (result ++ [v])) as (more & Hrun & Hsub & Hnd' & Hcov & Hfirst).
      { intros k. rewrite elem_of_union, elem_of_singleton, fmap_app, elem_of_app, Hs.
        cbn. rewrite list_elem_of_singleton. tauto. }
      { rewrite fmap_app. apply NoDup_app. split; [assumption|]. split.
        - intros k Hk Hk'. cbn in Hk'. apply list_elem_of_singleton in Hk'. subst k.
          now apply Hs in Hk.
        - cbn. apply NoDup_singleton. }
      exists (v :: more). rewrite <- app_assoc in Hrun, Hnd', Hcov. cbn [app] in Hrun, Hnd', Hcov.
      split; [assumption|]. split; [now apply sublist_skip|].
      split; [assumption|]. split.
      * intros v' Hv'. apply elem_of_cons in Hv' as [->|Hv']; [|now apply Hcov].
        rewrite fmap_app, elem_of_app. right. cbn. apply list_elem_of_here.
      * intros v' Hv'. apply elem_of_cons in Hv' as [->|Hv'].
        -- exists [], values. split; [reflexivity|]. split; [|assumption].
           cbn. apply not_elem_of_nil.
        -- destruct (Hfirst v' Hv') as (l1 & l2 & -> & Hl1 & Hns).
           exists (v :: l1), l2. split; [reflexivity|].
           rewrite not_elem_of_union, elem_of_singleton in Hns. destruct Hns as [Hne Hns].
           split; [|assumption].
           rewrite fmap_cons, not_elem_of_cons. split; assumption.
Qed.

(** X23: [uniq] returns entries of its input in their order, with pairwise
    different keys; every key of the input is the key of a returned entry,
    and a returned entry is the first of the input with its key. *)
Theorem uniq_first_of_each_key {A K} `{Countable K} (values : list A) (key : A -> K) :
  uniq values key `sublist_of` values /\
  NoDup (key <$> uniq values key) /\
  (forall v, v ∈ values -> key v ∈ key <$> uniq values key) /\
  (forall v, v ∈ uniq values key ->
     exists l1 l2, values = l1 ++ v :: l2 /\ (key v ∉ key <$> l1)).
Proof.
  destruct (uniq_loop_spec key values ∅ []) as (more & Hrun & Hsub & Hnd & Hcov & Hfirst).
  { intros k. cbn. rewrite elem_of_nil. set_solver. }
  { constructor. }
  unfold uniq. rewrite Hrun. cbn [app] in *. repeat split; try assumption.
  intros v Hv. destruct (Hfirst v Hv) as (l1 & l2 & Heq & Hl1 & _). eauto.
Qed.

(** Entries made unique by their first letter. *)
Example uniq_example :
  uniq ["b1"; "a1"; "b2"; "a2"; "c1"] initial = ["b1"; "a1"; "c1"].
Proof. vm_compute. reflexivity. Qed.

(** ** Identifiers *)

Lemma digits_then_spec (suffix : ascii) (s : string) :
  is_digit suffix = false ->
  forall seen,
    digits_then suffix seen s = true <->
    exists ds nl,
      s = String.append ds (String suffix nl) /\ digits ds /\
      (seen = true \/ ds <> EmptyString) /\ (nl = EmptyString \/ nl = chr LF).
Proof.
  intros Hsuf. induction s as [|c s IH]; intros seen.
  - split; [discriminate|]. intros (ds & nl & Heq & _). now destruct ds.
  - cbn [digits_then]. destruct (is_digit c) eqn:Hc.
    + rewrite IH. split.
      * intros (ds & nl & -> & Hds & _ & Hnl). exists (String c ds), nl.
        split; [reflexivity|]. split; [unfold digits; cbn; now rewrite Hc|].
        split; [now right | assumption].
      * intros (ds & nl & Heq & Hds & _ & Hnl). destruct ds as [|d ds].
        { cbn in Heq. injection Heq as -> _. congruence. }
        rewrite append_String in Heq. injection Heq as -> ->.
        exists ds, nl. split; [reflexivity|].
        unfold digits in Hds |- *. cbn in Hds. apply andb_true_iff in Hds as [_ Hds].
        split; [assumption|]. split; [now left | assumption].
    + split.
      * intros H. apply andb_true_iff in H as [H Hnl]. apply andb_true_iff in H as [-> Heq].
        apply Ascii.eqb_eq in Heq. subst c. exists EmptyString, s.
        split; [reflexivity|]. split; [reflexivity|]. split; [now left|].
        apply orb_true_iff in Hnl as [Hnl|Hnl]; apply String.eqb_eq in Hnl; auto.
      * intros (ds & nl & Heq & Hds & Hseen & Hnl). destruct ds as [|d ds].
        -- cbn in Heq. injection Heq as -> ->. destruct Hseen as [->|]; [|congruence].
           rewrite Ascii.eqb_refl. cbn. destruct Hnl as [->| ->]; reflexivity.
        -- rewrite append_String in Heq. injection Heq as -> _.
           unfold digits in Hds. cbn in Hds. apply andb_true_iff in Hds as [Hd _]. congruence.
Qed.

Lemma digits_then_suffix (a b : ascii) (s : string) :
  a <> b -> forall seen seen',
    digits_then a seen s = true -> digits_then b seen' s = false.
Proof.
  intros Hab. induction s as [|c s IH]; intros seen seen' H; [reflexivity|].
  cbn [digits_then] in H |- *. destruct (is_digit c); [now apply (IH true)|].
  apply andb_true_iff in H as [H _]. apply andb_true_iff in H as [_ H].
  apply Ascii.eqb_eq in H. subst c. apply Ascii.eqb_neq in Hab. rewrite Hab.
  now rewrite andb_false_r.
Qed.

Lemma olid_match_inv (suffix : ascii) (s : string) :
  olid_match suffix s = true ->
  exists rest, s = String "O" (String "L" rest) /\ digits_then suffix false rest = true.
Proof.
  intros H. destruct s as [|c1 s]; [discriminate|].
  destruct c1 as [[] [] [] [] [] [] [] []]; try discriminate H.
  destruct s as [|c2 rest]; [discriminate|].
  destruct c2 as [[] [] [] [] [] [] [] []]; try discriminate H.
  eauto.
Qed.

(** X24: [is_author_olid] accepts the texts made of [OL], one or more
    characters of the class [\d] and [A], with or without one newline after
    them, and no other; [is_work_olid] does the same with [W]; no text is
    accepted by both.  (The texts are those of this development, of code
    points below 256, where the class [\d] is [0] to [9].) *)
Theorem olid_shapes (s : string) :
  (is_author_olid s = true <->
   exists ds nl, s = String.append "OL" (String.append ds (String "A" nl)) /\
                 digits ds /\ ds <> EmptyString /\ (nl = EmptyString \/ nl = chr LF)) /\
  (is_work_olid s = true <->
   exists ds nl, s = String.append "OL" (String.append ds (String "W" nl)) /\
                 digits ds /\ ds <> EmptyString /\ (nl = EmptyString \/ nl = chr LF)) /\
  is_author_olid s && is_work_olid s = false.
Proof.
  assert (Hshape : forall suffix, is_digit suffix = false ->
            olid_match suffix s = true <->
            exists ds nl, s = String.append "OL" (String.append ds (String suffix nl)) /\
                          digits ds /\ ds <> EmptyString /\
                          (nl = EmptyString \/ nl = chr LF)).
  { intros suffix Hsuf. split.
    - intros H. apply olid_match_inv in H as (rest & -> & H).
      apply (digits_then_spec _ _ Hsuf) in H as (ds & nl & -> & Hds & Hseen & Hnl).
      exists ds, nl. split; [reflexivity|]. split; [assumption|].
      split; [|assumption]. now destruct Hseen.
    - intros (ds & nl & -> & Hds & Hne & Hnl). cbn [olid_match].
      change (digits_then suffix false (String.append ds (String suffix nl)) = true).
      apply (digits_then_spec _ _ Hsuf). exists ds, nl. auto. }
  split; [now apply Hshape|]. split; [now apply Hshape|].
  destruct (is_author_olid s) eqn:Ha; [|reflexivity]. cbn.
  apply olid_match_inv in Ha as (rest & -> & Ha).
  apply (digits_then_suffix "A" "W" rest) with (seen := false); [discriminate | assumption].
Qed.

(** The newline that [$] lets through. *)
Example is_author_olid_examples :
  is_author_olid "OL123A" = true /\ is_author_olid (String.append "OL123A" (chr LF)) = true /\
  is_author_olid "OLA" = false /\ is_author_olid "ol123a" = false /\
  is_author_olid "/authors/OL123A" = false /\ is_work_olid "OL123A" = false.
Proof. repeat split. Qed.

Lemma last_char_app (s : string) (c : ascii) : last_char (String.append s (chr c)) = Some c.
Proof.
  induction s as [|c0 s IH]; [reflexivity|]. rewrite append_String.
  cbn [last_char]. rewrite IH. destruct s; reflexivity.
Qed.

Lemma drop_last_app (s : string) (c : ascii) : drop_last (String.append s (chr c)) = s.
Proof.
  induction s as [|c0 s IH]; [reflexivity|]. rewrite append_String.
  cbn [drop_last]. rewrite IH. destruct s; reflexivity.
Qed.

Lemma split_on_absent (sep : ascii) (s : string) :
  contains_char sep s = false -> split_on sep s = [s].
Proof.
  induction s as [|c s IH]; [reflexivity|]. cbn [contains_char]. intros H.
  apply orb_false_iff in H as [Hc Hs]. rewrite split_on_cons, Hc, IH by assumption.
  reflexivity.
Qed.

Lemma split_on_app_sep (sep : ascii) (p q : string) :
  split_on sep (String.append p (String sep q)) = split_on sep p ++ split_on sep q.
Proof.
  induction p as [|c p IH].
  - change (String.append EmptyString (String sep q)) with (String sep q).
    now rewrite split_on_cons, Ascii.eqb_refl.
  - rewrite append_String, !split_on_cons, IH. destruct (Ascii.eqb c sep); [reflexivity|].
    destruct (split_on sep p) as [|f fs] eqn:Hp; [|reflexivity].
    now apply split_on_nonempty in Hp.
Qed.

Lemma split_on_last (sep : ascii) (p q : string) :
  contains_char sep q = false ->
  last (split_on sep (String.append p (String sep q))) = Some q.
Proof.
  intros Hq. rewrite split_on_app_sep, (split_on_absent sep q) by assumption. apply last_snoc.
Qed.

Section OlidFurther.

Context `{RT : Runtime}.

(** The identifier between [OL] and the letter: [olid] is the text after the
    last slash. *)
Lemma extract_from_last_component (ident : string) (c : ascii) :
  py_int (chr (lower_char c)) = Raise ValueError ->
  (let olid := String.append "OL" (String.append ident (chr c)) in
   match last_char (if startswith (lower olid) "ol" then drop_str 2 olid else olid) with
   | None => Raise IndexError
   | Some c' =>
       number ← is_number (chr (lower_char c'));
       mret (if (number : bool)
             then (if startswith (lower olid) "ol" then drop_str 2 olid else olid)
             else drop_last (if startswith (lower olid) "ol" then drop_str 2 olid else olid))
   end) = OK ident.
Proof.
  intros Hint. cbn zeta.
  change (startswith (lower (String.append "OL" (String.append ident (chr c)))) "ol") with true.
  cbn match. change (drop_str 2 (String.append "OL" (String.append ident (chr c))))
    with (String.append ident (chr c)).
  rewrite last_char_app. unfold is_number. rewrite Hint. cbn. now rewrite drop_last_app.
Qed.

(** X25: for an identifier [OL], a text without slash, and a last character
    that [int] does not read and that is no slash, alone or after a path
    that ends with a slash, [extract_numeric_id_from_olid] returns the text
    between [OL] and the last character. *)
Theorem extract_numeric_id_between (path ident : string) (c : ascii) :
  contains_char "/" ident = false ->
  c <> "/"%char ->
  py_int (chr (lower_char c)) = Raise ValueError ->
  extract_numeric_id_from_olid (String.append "OL" (String.append ident (chr c))) = OK ident /\
  extract_numeric_id_from_olid
    (String.append path (String "/" (String.append "OL" (String.append ident (chr c)))))
    = OK ident.
Proof.
  intros Hident Hc Hint.
  assert (Hnoslash :
            contains_char "/" (String.append "OL" (String.append ident (chr c))) = false).
  { rewrite !contains_char_app, Hident. cbn. apply Ascii.eqb_neq in Hc. now rewrite Hc. }
  split.
  - unfold extract_numeric_id_from_olid. rewrite Hnoslash.
    now apply extract_from_last_component.
  - unfold extract_numeric_id_from_olid.
    rewrite contains_char_app. cbn [contains_char]. rewrite Ascii.eqb_refl.
    rewrite orb_true_r, orb_true_l || rewrite orb_true_r.
    rewrite split_on_last by assumption. cbn [default].
    now apply extract_from_last_component.
Qed.

(** X26: [extract_numeric_id_from_olid] raises [IndexError] on the empty
    text, on [OL] alone in either case of its letters, and on every text
    that ends with a slash. *)
Theorem extract_numeric_id_nothing_left (path : string) :
  extract_numeric_id_from_olid EmptyString = Raise IndexError /\
  extract_numeric_id_from_olid "OL" = Raise IndexError /\
  extract_numeric_id_from_olid "ol" = Raise IndexError /\
  extract_numeric_id_from_olid (String.append path "/") = Raise IndexError /\
  extract_numeric_id_from_olid (String.append path "/OL") = Raise IndexError.
Proof.
  repeat split; try reflexivity.
  - unfold extract_numeric_id_from_olid.
    rewrite contains_char_app. cbn [contains_char]. rewrite Ascii.eqb_refl.
    rewrite orb_true_r, orb_true_l || rewrite orb_true_r.
    rewrite (split_on_last "/" path EmptyString) by reflexivity. reflexivity.
  - unfold extract_numeric_id_from_olid.
    rewrite contains_char_app. cbn [contains_char]. rewrite Ascii.eqb_refl.
    rewrite orb_true_r, orb_true_l || rewrite orb_true_r.
    rewrite (split_on_last "/" path "OL") by reflexivity. reflexivity.
Qed.

End OlidFurther.

Lemma extract_numeric_id_between_witness :
  extract_numeric_id_from_olid (RT := sample_runtime [] []) "OL123W" = OK "123" /\
  extract_numeric_id_from_olid (RT := sample_runtime [] []) "/authors/OL123A" = OK "123".
Proof.
  split.
  - exact (proj1 (extract_numeric_id_between (RT := sample_runtime [] [])
                    EmptyString "123" "W" eq_refl ltac:(discriminate) eq_refl)).
  - exact (proj2 (extract_numeric_id_between (RT := sample_runtime [] [])
                    "/authors" "123" "A" eq_refl ltac:(discriminate) eq_refl)).
Defined.

(** ** Hashable forms *)

Lemma dicthash_list (l : list json) : dicthash (JList l) = HTuple (dicthash <$> l).
Proof.
  reflexivity.
Qed.

Lemma dict_get_fmap {A B} (f : A -> B) (k : string) (d : list (string * A)) :
  dict_get k (prod_map id f <$> d) = f <$> dict_get k d.
Proof.
  induction d as [|[k0 v0] d IH]; [reflexivity|]. cbn.
  destruct (String.eqb k0 k); [reflexivity | exact IH].
Qed.

(** [dicthash] on a [dict], as the source has it: the pairs of a key and the
    converted [d[k]], for the keys in order. *)
Lemma dicthash_dict (d : list (string * json)) :
  dicthash (JDict d) =
  HTuple ((fun k => HTuple [HStr k; default HNull (dicthash <$> dict_get k d)])
            <$> sorted_keys d).
Proof.
  cbn [dicthash]. f_equal. apply list_fmap_ext. intros _ k _. do 3 f_equal.
  rewrite <- dict_get_fmap. f_equal.
  induction d as [|[k0 v0] d IH]; [reflexivity|]. cbn. now rewrite IH.
Qed.

Lemma string_compare_trans (s1 : string) :
  forall s2 s3, (s1 ?= s2)%string <> Gt -> (s2 ?= s3)%string <> Gt -> (s1 ?= s3)%string <> Gt.
Proof.
  induction s1 as [|a s1 IH]; intros [|b s2] [|c s3]; cbn [String.compare]; try congruence.
  unfold Ascii.compare.
  destruct (N.compare_spec (N_of_ascii a) (N_of_ascii b)) as [Hab|Hab|Hab];
    destruct (N.compare_spec (N_of_ascii b) (N_of_ascii c)) as [Hbc|Hbc|Hbc];
    destruct (N.compare_spec (N_of_ascii a) (N_of_ascii c)) as [Hac|Hac|Hac];
    try congruence; try lia.
  apply IH.
Qed.

Lemma str_le_trans : Transitive str_le.
Proof.
  intros s1 s2 s3. unfold str_le, String.leb. intros H12 H23.
  pose proof (string_compare_trans s1 s2 s3) as H.
  destruct (s1 ?= s2)%string; try discriminate;
    destruct (s2 ?= s3)%string; try discriminate;
    destruct (s1 ?= s3)%string; try reflexivity; exfalso; apply H; congruence.
Qed.

Lemma str_le_antisym : AntiSymm (=) str_le.
Proof. intros s1 s2. apply String.leb_antisym. Qed.

Lemma str_le_total : Total str_le.
Proof. intros s1 s2. apply String.leb_total. Qed.

Lemma distinct_NoDup (keys : list string) : NoDup keys -> distinct keys = keys.
Proof.
  induction 1 as [|k keys Hk _ IH]; [reflexivity|].
  rewrite distinct_fresh by assumption. now rewrite IH.
Qed.

Lemma sorted_keys_perm {A} (d1 d2 : list (string * A)) :
  NoDup d1.*1 -> d1 ≡ₚ d2 -> sorted_keys d1 = sorted_keys d2.
Proof.
  intros Hnd Hperm. assert (Hkeys : d1.*1 ≡ₚ d2.*1) by now rewrite Hperm.
  pose proof str_le_trans. pose proof str_le_antisym. pose proof str_le_total.
  unfold sorted_keys. rewrite !distinct_NoDup by (try rewrite <- Hkeys; assumption).
  apply (Sorted_unique str_le); try apply Sorted_merge_sort; try apply _.
  now rewrite !merge_sort_Permutation.
Qed.

Lemma dict_get_elem_of {A} (k : string) (v : A) (d : list (string * A)) :
  NoDup d.*1 -> dict_get k d = Some v <-> (k, v) ∈ d.
Proof.
  induction d as [|[k0 v0] d IH]; intros Hnd.
  - cbn. rewrite elem_of_nil. split; [discriminate | tauto].
  - apply NoDup_cons in Hnd as [Hk0 Hnd]. cbn [dict_get]. rewrite elem_of_cons.
    destruct (String.eqb_spec k0 k) as [->|Hne].
    + split; [intros [= ->]; now left|]. intros [[= ->]|Hin]; [reflexivity|].
      exfalso. apply Hk0. apply list_elem_of_fmap. now exists (k, v).
    + rewrite IH by assumption. split; [now right|]. intros [[= -> ->]|Hin]; [congruence | assumption].
Qed.

Lemma dict_get_perm {A} (k : string) (d1 d2 : list (string * A)) :
  NoDup d1.*1 -> d1 ≡ₚ d2 -> dict_get k d1 = dict_get k d2.
Proof.
  intros Hnd Hperm. assert (Hnd2 : NoDup d2.*1) by now rewrite <- Hperm.
  destruct (dict_get k d1) as [v|] eqn:H1.
  - symmetry. apply dict_get_elem_of; [assumption|]. rewrite <- Hperm.
    now apply dict_get_elem_of.
  - destruct (dict_get k d2) as [v|] eqn:H2; [|reflexivity].
    apply dict_get_elem_of in H2; [|assumption]. rewrite <- Hperm in H2.
    apply dict_get_elem_of in H2; [|assumption]. congruence.
Qed.

(** X27: [dicthash] does not depend on the order of the entries of a
    [dict]: two dicts with the same entries, each key once, have the same
    hashable form, whose pairs come in the order of their keys. *)
Theorem dicthash_order_free (d1 d2 : list (string * json)) :
  NoDup d1.*1 ->
  d1 ≡ₚ d2 ->
  dicthash (JDict d1) = dicthash (JDict d2) /\
  exists pairs,
    dicthash (JDict d1) = HTuple ((fun kv => HTuple [HStr kv.1; kv.2]) <$> pairs) /\
    Sorted str_le pairs.*1 /\ pairs.*1 ≡ₚ d1.*1.
Proof.
  intros Hnd Hperm. split.
  - rewrite !dicthash_dict, (sorted_keys_perm d1 d2) by assumption.
    f_equal. apply list_fmap_ext. intros _ k _. now rewrite (dict_get_perm k d1 d2).
  - exists ((fun k => (k, default HNull (dicthash <$> dict_get k d1))) <$> sorted_keys d1).
    rewrite dicthash_dict, <- !list_fmap_compose.
    split; [reflexivity|].
    assert (Hid : (fst ∘ (fun k => (k, default HNull (dicthash <$> dict_get k d1))))
                    <$> sorted_keys d1 = sorted_keys d1).
    { rewrite <- (list_fmap_id (sorted_keys d1)) at 2. now apply list_fmap_ext. }
    rewrite Hid. unfold sorted_keys. split; [apply Sorted_merge_sort, str_le_total|].
    now rewrite merge_sort_Permutation, distinct_NoDup.
Qed.

(** X28: [dicthash] gives a [dict] the hashable form of the list of its
    [key, value] pairs in the order of the keys: it does not tell the one
    from the other. *)
Theorem dicthash_dict_as_list (d : list (string * json)) :
  dicthash (JDict d) =
  dicthash (JList ((fun k => JList [JStr k; default JNull (dict_get k d)])
                     <$> sorted_keys d)).
Proof.
  rewrite dicthash_dict, dicthash_list, <- list_fmap_compose. f_equal.
  apply list_fmap_ext. intros _ k _. cbn [compose]. rewrite dicthash_list. cbn.
  now destruct (dict_get k d).
Qed.

Lemma dicthash_order_free_witness :
  dicthash (JDict [("b", JInt 2); ("a", JList [JInt 1])]) =
  dicthash (JDict [("a", JList [JInt 1]); ("b", JInt 2)]).
Proof.
  apply (dicthash_order_free [("b", JInt 2); ("a", JList [JInt 1])]
                             [("a", JList [JInt 1]); ("b", JInt 2)]).
  - apply (bool_decide_unpack _). vm_compute. exact I.
  - apply Permutation_swap.
Defined.

(** A [dict] in key order. *)
Example dicthash_example :
  dicthash (JDict [("b", JInt 2); ("a", JList [JInt 1; JNull])]) =
  HTuple [HTuple [HStr "a"; HTuple [HInt 1; HNull]]; HTuple [HStr "b"; HInt 2]].
Proof. vm_compute. reflexivity. Qed.

(** ** Printed lines *)




Section PrintedLines.

Context `{RT : Runtime}.


End PrintedLines.

(** ** The properties above on sample inputs *)


Lemma print_dump_in_order_witness :
  print_dump_loop (RT := sample_runtime [earlier_record; later_record] []) None
    ([sample_dumps earlier_record; sample_dumps later_record]
       ++ "oops" :: [sample_dumps earlier_record]) =
    ([ sample_fields "/books/OL2M" "2020-05-16T23:59:59";
       sample_fields "/books/OL3M" "2020-05-18T00:00:00" ], Some ValueError) /\
  print_dump_loop (RT := sample_runtime [earlier_record; later_record] []) None
    ([sample_dumps earlier_record] ++ [sample_dumps later_record]) =
    ([ sample_fields "/books/OL2M" "2020-05-16T23:59:59";
       sample_fields "/books/OL3M" "2020-05-18T00:00:00" ], None).
Proof.
  split.
  - apply (proj1 (proj2 (print_dump_in_order
                           (RT := sample_runtime [earlier_record; later_record] []) None
                           [sample_dumps earlier_record; sample_dumps later_record]
                           [sample_dumps earlier_record]))).
    + vm_compute. reflexivity.
    + vm_compute. reflexivity.
  - rewrite (proj1 (print_dump_in_order
                      (RT := sample_runtime [earlier_record; later_record] []) None
                      [sample_dumps earlier_record] [sample_dumps later_record])).
    vm_compute. reflexivity.
Defined.

Lemma print_dump_strips_id_witness :
  exists d,
    sample_fields "/books/OL1M" "2020-01-01T00:00:00" !! 4 = Some (sample_dumps (JDict d)) /\
    dict_get "id" d = None.
Proof.
  destruct (print_dump_strips_id (RT := sample_runtime [raw_record] []) None
              (sample_dumps raw_record)
              (sample_fields "/books/OL1M" "2020-01-01T00:00:00")
              [ ("id", JInt 8);
                ("key", JStr "/b/OL1M");
                ("type", JDict [("key", JStr "/type/edition")]);
                ("revision", JInt 1);
                ("last_modified", JDict [("type", JStr "/type/datetime");
                                         ("value", JStr "2020-01-01 00:00:00")]) ])
    as (d & Hfield & Hid & _).
  - vm_compute. reflexivity.
  - vm_compute. reflexivity.
  - apply (bool_decide_unpack _). vm_compute. exact I.
  - exists d. auto.
Defined.

Lemma read_data_file_columns_witness :
  exists recs,
    read_data_file [sample_line boundary_record; sample_line later_record]
      = Stream recs None /\
    read_data_file ([sample_line boundary_record; sample_line later_record] ++ ["8"])
      = Stream recs (Some ValueError).
Proof.
  destruct (read_data_file_columns [sample_line boundary_record; sample_line later_record])
    as (recs & Hrun & _ & Hbad).
  - repeat (apply Forall_cons_2; [vm_compute; eexists; reflexivity|]). apply Forall_nil_2.
  - exists recs. split; [assumption|]. now apply Hbad.
Defined.

Lemma generate_dump_completes_witness :
  failure (generate_dump (RT := sample_runtime [] []) small_cdump) = None.
Proof.
  apply (proj2 (generate_dump_completes (RT := sample_runtime [] []) small_cdump)).
  split; eexists; vm_compute; reflexivity.
Defined.

Lemma str_to_key_canonical_witness :
("t"%char ∉ to_drop) /\ "t"%char <> " "%char /\ lower_char "t" = "t"%char.
Proof.
  exact (proj2 (str_to_key_canonical "Tom Sawyer") "t"%char eq_refl).
Defined.

Lemma uniq_first_of_each_key_witness :
  exists l1 l2, ["b1"; "a1"; "b2"; "a2"] = l1 ++ "a1" :: l2 /\ (initial "a1" ∉ initial <$> l1).
Proof.
  apply (proj2 (proj2 (proj2 (uniq_first_of_each_key ["b1"; "a1"; "b2"; "a2"] initial)))).
  apply list_elem_of_In. vm_compute. auto.
Defined.

Lemma olid_shapes_witness : is_author_olid "OL123A" = true.
Proof.
  apply (proj2 (proj1 (olid_shapes "OL123A"))).
  exists "123", EmptyString. repeat split; [discriminate | now left].
Defined.
